(** * etk.docking: the tabbed DockGroup and the DockLayout drag coordinator

    A shallow embedding of [lib/etk/docking/dockgroup.py] and
    [lib/etk/docking/docklayout.py].  Python objects are references
    (natural numbers), mutable objects live in a store, methods are
    computations in a state-and-exception monad, and calls into GTK that
    return a value the code depends on are taken from an explicit toolkit
    record. *)

From stdpp Require Import gmap list.
From Stdlib Require Import ZArith Lia.
From Stdlib Require QArith.

Local Open Scope Z_scope.

(** ** Python values and control flow *)
Module Py.

(** The exceptions the modelled code can raise.  [Raised n] stands for an
    exception thrown by code outside the two modules (a callback body). *)
Inductive exn : Type :=
| TypeError
| IndexError
| ValueError
| AttributeError
| AssertionError
| KeyError
| Raised (n : nat).

Inductive outcome (A : Type) : Type :=
| Ok (a : A)
| Raise (e : exn).
Arguments Ok {A} a.
Arguments Raise {A} e.

(** A method of an object with state [S]: it returns or raises, and leaves
    the object in some state either way. *)
Definition M (S A : Type) : Type := S -> outcome A * S.

Definition ret {S A} (a : A) : M S A := fun s => (Ok a, s).
Definition raise {S A} (e : exn) : M S A := fun s => (Raise e, s).
Definition bind {S A B} (m : M S A) (k : A -> M S B) : M S B :=
  fun s => match m s with
           | (Ok a, s') => k a s'
           | (Raise e, s') => (Raise e, s')
           end.
Definition get {S} : M S S := fun s => (Ok s, s).
Definition modify {S} (f : S -> S) : M S unit := fun s => (Ok tt, f s).
Definition lift {S A} (o : outcome A) : M S A := fun s => (o, s).

(** [try: body finally: fin] where [fin] itself does not raise. *)
Definition try_finally {S A} (body : M S A) (fin : S -> S) : M S A :=
  fun s => let '(r, s') := body s in (r, fin s').

Definition raised {A} (o : outcome A) : bool :=
  match o with Ok _ => false | Raise _ => true end.

(** [l[i]] for an index that may be [None]: negative indices count from the
    end, anything outside [-len, len) is an IndexError, [None] a TypeError. *)
Definition getitem {A} (l : list A) (i : option Z) : outcome A :=
  match i with
  | None => Raise TypeError
  | Some i =>
      let n := Z.of_nat (length l) in
      let j := if i <? 0 then i + n else i in
      if (0 <=? j) && (j <? n)
      then match l !! Z.to_nat j with
           | Some a => Ok a
           | None => Raise IndexError
           end
      else Raise IndexError
  end.

(** Slice bounds: a negative bound counts from the end, then it is clamped. *)
Definition slice_bound {A} (l : list A) (k : Z) : nat :=
  let n := Z.of_nat (length l) in
  Z.to_nat (Z.min n (Z.max 0 (if k <? 0 then k + n else k))).

(** [l[:k]] and [l[k:]]. *)
Definition slice_to {A} (l : list A) (k : Z) : list A := take (slice_bound l k) l.
Definition slice_from {A} (l : list A) (k : Z) : list A := drop (slice_bound l k) l.

(** [x in l], [l.index(x)] and [l.remove(x)] on lists of references. *)
Definition contains (l : list nat) (x : nat) : bool := bool_decide (x ∈ l).

Fixpoint index (l : list nat) (x : nat) : option nat :=
  match l with
  | [] => None
  | y :: l' => if decide (y = x) then Some 0%nat else S <$> index l' x
  end.

Fixpoint remove (l : list nat) (x : nat) : list nat :=
  match l with
  | [] => []
  | y :: l' => if decide (y = x) then l' else y :: remove l' x
  end.

(** Python 2 orders [None] below every integer: [i < None] is false. *)
Definition int_lt_opt (i : Z) (j : option Z) : bool :=
  match j with
  | None => false
  | Some j => i <? j
  end.

#[global] Arguments getitem : simpl never.
#[global] Arguments slice_to : simpl never.
#[global] Arguments slice_from : simpl never.

End Py.

Import Py.

Declare Scope py_scope.
Delimit Scope py_scope with py.
Notation "'let!' x ':=' m 'in' k" := (bind m (fun x => k))
  (at level 10, x name, m at level 100, k at level 200) : py_scope.
Notation "'run!' m 'in' k" := (bind m (fun _ => k))
  (at level 10, m at level 100, k at level 200) : py_scope.
Local Open Scope py_scope.

(** ** dockgroup.py *)
Module dockgroup.

(** References to [_DockGroupTab] objects and to widgets. *)
Abbreviation tabref := nat (only parsing).
Abbreviation widget_id := nat (only parsing).

(** What a caller can hand to the group's methods. *)
Inductive pyobj : Type :=
| DockItem (w : widget_id)      (* an etk.docking DockItem *)
| OtherWidget (w : widget_id)   (* any other gtk.Widget *)
| TabObject (r : tabref)        (* a _DockGroupTab: a plain object, no widget *)
| PyNone.

Definition isinstance_DockItem (o : pyobj) : bool :=
  match o with DockItem _ => true | _ => false end.

Definition isinstance_Widget (o : pyobj) : bool :=
  match o with DockItem _ | OtherWidget _ => true | _ => false end.

Inductive StateType : Type := STATE_NORMAL | STATE_PRELIGHT.

Record Rectangle : Type := mkRect { x : Z; y : Z; width : Z; height : Z }.

Definition Rectangle0 : Rectangle := mkRect 0 0 0 0.

(** [_DockGroupTab]: the slots [image], [label], [button] and [menu_item]
    hold widgets created with the tab and never reassigned; they are named
    after the tab's reference ([peer] below). *)
Record _DockGroupTab : Type := mkTab {
  item : widget_id;
  state : StateType;
  area : Rectangle
}.

Inductive peer : Type := Image | Label | Button | MenuItem.

(** Widgets the group talks to. *)
Inductive target : Type :=
| TItem (w : widget_id)
| TPeer (p : peer) (r : tabref)
| TListMenu
| TSelf.

(** Calls into GTK that change ownership or ask for a new layout pass.
    Geometry and visibility calls on children ([size_allocate], [show],
    [hide]) give nothing back to the group and are not recorded. *)
Inductive gtk_call : Type :=
| set_parent (t : target)
| unparent (t : target)
| destroy (t : target)
| menu_append (r : tabref)
| menu_remove (r : tabref)
| queue_resize.

Record DockGroup : Type := mkGroup {
  _tabs : list tabref;
  _visible_tabs : list tabref;
  _current_index : option Z;
  _current_item : option widget_id;
  _decoration_area : Rectangle;
  allocation : Rectangle;
  tab_store : tabref -> _DockGroupTab;   (* the tab objects, by reference *)
  next_tab : tabref;                     (* the next object to be created *)
  gtk_calls : list gtk_call
}.

Definition _frame_width : Z := 1.
Definition _spacing : Z := 3.
Definition border_width : Z := 2.

(** Sizes the toolkit reports for child widgets, as (width, height). *)
Record Toolkit : Type := mkToolkit {
  image_req : tabref -> Z * Z;
  label_req : tabref -> Z * Z;
  button_req : tabref -> Z * Z;
  list_button_req : Z * Z;
  min_button_req : Z * Z;
  max_button_req : Z * Z;
  item_req : widget_id -> Z * Z
}.

(** [DockGroup.__init__] *)
Definition init : DockGroup :=
  {| _tabs := []; _visible_tabs := [];
     _current_index := None; _current_item := None;
     _decoration_area := Rectangle0; allocation := Rectangle0;
     tab_store := fun _ => mkTab 0%nat STATE_NORMAL Rectangle0;
     next_tab := 0%nat; gtk_calls := [] |}.

(** Field updates. *)
Definition set_tabs (l : list tabref) (g : DockGroup) : DockGroup :=
  mkGroup l (_visible_tabs g) (_current_index g) (_current_item g)
          (_decoration_area g) (allocation g) (tab_store g) (next_tab g) (gtk_calls g).
Definition set_visible_tabs (l : list tabref) (g : DockGroup) : DockGroup :=
  mkGroup (_tabs g) l (_current_index g) (_current_item g)
          (_decoration_area g) (allocation g) (tab_store g) (next_tab g) (gtk_calls g).
Definition set_current (i : option Z) (w : option widget_id) (g : DockGroup) : DockGroup :=
  mkGroup (_tabs g) (_visible_tabs g) i w
          (_decoration_area g) (allocation g) (tab_store g) (next_tab g) (gtk_calls g).
Definition set_decoration_area (r : Rectangle) (g : DockGroup) : DockGroup :=
  mkGroup (_tabs g) (_visible_tabs g) (_current_index g) (_current_item g)
          r (allocation g) (tab_store g) (next_tab g) (gtk_calls g).
Definition set_allocation (r : Rectangle) (g : DockGroup) : DockGroup :=
  mkGroup (_tabs g) (_visible_tabs g) (_current_index g) (_current_item g)
          (_decoration_area g) r (tab_store g) (next_tab g) (gtk_calls g).
Definition set_store (h : tabref -> _DockGroupTab) (n : tabref) (g : DockGroup) : DockGroup :=
  mkGroup (_tabs g) (_visible_tabs g) (_current_index g) (_current_item g)
          (_decoration_area g) (allocation g) h n (gtk_calls g).
Definition call (cs : list gtk_call) (g : DockGroup) : DockGroup :=
  mkGroup (_tabs g) (_visible_tabs g) (_current_index g) (_current_item g)
          (_decoration_area g) (allocation g) (tab_store g) (next_tab g) (gtk_calls g ++ cs).

(** Assignment to a slot of the tab object [r]. *)
Definition store_upd (r : tabref) (f : _DockGroupTab -> _DockGroupTab)
    (h : tabref -> _DockGroupTab) : tabref -> _DockGroupTab :=
  fun r' => if decide (r' = r) then f (h r') else h r'.

Definition with_area (f : Rectangle -> Rectangle) (t : _DockGroupTab) : _DockGroupTab :=
  mkTab (item t) (state t) (f (area t)).
Definition with_width (w : Z) (a : Rectangle) : Rectangle := mkRect (x a) (y a) w (height a).
Definition with_size (w h : Z) (a : Rectangle) : Rectangle := mkRect (x a) (y a) w h.
Definition with_xy (cx cy : Z) (a : Rectangle) : Rectangle := mkRect cx cy (width a) (height a).

Definition upd_tab (r : tabref) (f : _DockGroupTab -> _DockGroupTab) (g : DockGroup) : DockGroup :=
  set_store (store_upd r f (tab_store g)) (next_tab g) g.

Definition tab_width (g : DockGroup) (r : tabref) : Z := width (area (tab_store g r)).

(** *** The item API *)

(** [get_n_items] *)
Definition get_n_items (g : DockGroup) : Z := Z.of_nat (length (_tabs g)).

(** [item_num]: the index of the first tab holding [item], else [None].
    The loop returns [self._tabs.index(tab)] for the first matching tab. *)
Definition item_matches (g : DockGroup) (o : pyobj) (r : tabref) : bool :=
  match o with
  | DockItem w => bool_decide (item (tab_store g r) = w)
  | _ => false
  end.

Definition item_num (g : DockGroup) (o : pyobj) : option Z :=
  match List.find (item_matches g o) (_tabs g) with
  | Some r => Z.of_nat <$> index (_tabs g) r
  | None => None
  end.

(** [get_nth_item] *)
Definition get_nth_item (g : DockGroup) (n : Z) : option widget_id :=
  if (0 <=? n) && (n <=? get_n_items g - 1)
  then match getitem (_tabs g) (Some n) with
       | Ok r => Some (item (tab_store g r))
       | Raise _ => None
       end
  else None.

(** [get_current_item]: a DockItem is a live widget and counts as true. *)
Definition get_current_item (g : DockGroup) : option Z :=
  match _current_item g with
  | Some _ => _current_index g
  | None => None
  end.

(** [set_current_item] *)
Definition set_current_item (n : Z) : M DockGroup unit :=
  let! g := get in
  run! (match _tabs g with
        | _ :: _ =>
            let i := if n <? 0 then 0
                     else if n >? get_n_items g - 1 then get_n_items g - 1
                     else n in
            run! modify (set_current (Some i) (_current_item g)) in
            let! r := lift (getitem (_tabs g) (Some i)) in
            modify (set_current (Some i) (Some (item (tab_store g r))))
        | [] => modify (set_current None None)
        end) in
  modify (call [queue_resize]).

(** [do_add] *)
Definition do_add (widget : pyobj) : M DockGroup unit :=
  match widget with
  | DockItem w =>
      let! g := get in
      let r := next_tab g in
      run! modify (set_store (store_upd r (fun _ => mkTab w STATE_NORMAL Rectangle0)
                                        (tab_store g)) (S r)) in
      run! modify (call [set_parent (TItem w); set_parent (TPeer Image r);
                         set_parent (TPeer Label r); set_parent (TPeer Button r);
                         menu_append r]) in
      run! modify (fun g => set_tabs (_tabs g ++ [r]) g) in
      let! g := get in
      match item_num g widget with
      | Some n => set_current_item n
      | None => raise TypeError  (* [None] is no index; unreachable, the tab was just added *)
      end
  | _ => raise TypeError         (* a bare [raise] with no active exception *)
  end.

(** [do_remove] *)
Definition do_remove (widget : pyobj) : M DockGroup unit :=
  if isinstance_DockItem widget then
    let! g := get in
    match _tabs g with
    | _ :: _ =>
        let index := item_num g widget in
        let! tab := lift (getitem (_tabs g) index) in
        run! (if contains (_visible_tabs g) tab
              then modify (fun g => set_visible_tabs (remove (_visible_tabs g) tab) g)
              else ret tt) in
        run! modify (call [unparent (TItem (item (tab_store g tab)));
                           destroy (TItem (item (tab_store g tab)));
                           unparent (TPeer Image tab); destroy (TPeer Image tab);
                           unparent (TPeer Label tab); destroy (TPeer Label tab);
                           unparent (TPeer Button tab); destroy (TPeer Button tab);
                           menu_remove tab; destroy (TPeer MenuItem tab)]) in
        run! modify (fun g => set_tabs (remove (_tabs g) tab) g) in
        match index with
        | Some index =>
            let index := if int_lt_opt index (_current_index g)
                         then match _current_index g with
                              | Some c => c - 1
                              | None => index
                              end
                         else index in
            set_current_item index
        | None => raise TypeError  (* unreachable: [getitem] raised already *)
        end
    | [] => ret tt
    end
  else ret tt.

(** An exception raised in a handler that GTK calls (a [do_*] method run
    for a signal, a [foreach] callback) is printed there and does not reach
    the caller; what the handler did before it raised stays done. *)
Definition swallow {S} (m : M S unit) : M S unit :=
  fun s => (Ok tt, (m s).2).

(** The group is the parent of the widget: [do_add] makes it the parent of
    the item of each tab, [do_remove] takes the item out again. *)
Definition holds (g : DockGroup) (o : pyobj) : bool :=
  match item_num g o with
  | Some _ => true
  | None => false
  end.

(** [gtk.Container.add]: the binding accepts only a gtk.Widget; GTK then
    refuses, with a warning, a widget that has a parent already, this
    group or ([elsewhere]) another container, and otherwise emits [add],
    which runs [do_add]. *)
Definition container_add (elsewhere : bool) (o : pyobj) : M DockGroup unit :=
  if isinstance_Widget o then
    let! g := get in
    if elsewhere || holds g o then ret tt
    else swallow (do_add o)
  else raise TypeError.

(** [gtk.Container.remove]: the binding accepts only a gtk.Widget; GTK
    then refuses, with a warning, a widget whose parent is not this group,
    and otherwise emits [remove], which runs [do_remove]. *)
Definition container_remove (o : pyobj) : M DockGroup unit :=
  if isinstance_Widget o then
    let! g := get in
    if holds g o then swallow (do_remove o)
    else ret tt
  else raise TypeError.

(** [append_item]; [elsewhere] says whether GTK knows another container as
    the parent of the item. *)
Definition append_item (elsewhere : bool) (o : pyobj) : M DockGroup unit :=
  container_add elsewhere o.

(** [remove_item]: [self.remove(self._tabs[item_num])]. *)
Definition remove_item (n : Z) : M DockGroup unit :=
  let! g := get in
  let! tab := lift (getitem (_tabs g) (Some n)) in
  container_remove (TabObject tab).

(** *** Size negotiation *)

Definition max3 (a b c : Z) : Z := Z.max (Z.max a b) c.

(** The width [do_size_request] gives a tab. *)
Definition natural_width (tk : Toolkit) (r : tabref) : Z :=
  _frame_width + _spacing + fst (image_req tk r) +
  _spacing + fst (label_req tk r) + _spacing + fst (button_req tk r) +
  _spacing + _frame_width.

Definition natural_height (tk : Toolkit) (r : tabref) : Z :=
  _frame_width + _spacing +
  max3 (snd (image_req tk r)) (snd (label_req tk r)) (snd (button_req tk r)) +
  _spacing + _frame_width.

(** The loop of [do_size_request] over [enumerate(self._tabs)]. *)
Fixpoint request_tabs (tk : Toolkit) (cur : option Z) (index : Z) (ts : list tabref)
    (dw dh : Z) (g : DockGroup) : Z * Z * DockGroup :=
  match ts with
  | [] => (dw, dh, g)
  | tab :: rest =>
      let g := upd_tab tab (with_area (with_size (natural_width tk tab)
                                                (natural_height tk tab))) g in
      let dw := if bool_decide (Some index = cur)
                then tab_width g tab - fst (label_req tk tab) else dw in
      let dh := Z.max dh (height (area (tab_store g tab))) in
      request_tabs tk cur (index + 1) rest dw dh g
  end.

(** [do_size_request]: returns the requisition (width, height). *)
Definition do_size_request (tk : Toolkit) : M DockGroup (Z * Z) :=
  let! g := get in
  let '(dw, dh, g1) := request_tabs tk (_current_index g) 0 (_tabs g) 0 0 g in
  let dw := dw + (_spacing + fst (list_button_req tk) + fst (min_button_req tk) +
                  fst (max_button_req tk) + _spacing + _frame_width) in
  let dh := Z.max (Z.max (Z.max dh (_spacing + snd (list_button_req tk) + _spacing))
                         (_spacing + snd (min_button_req tk) + _spacing))
                  (_spacing + snd (max_button_req tk) + _spacing) in
  run! modify (fun _ => set_decoration_area
                          (with_size dw dh (_decoration_area g1)) g1) in
  let '(iw, ih) := match _current_item g with
                   | Some w => item_req tk w
                   | None => (0, 0)
                   end in
  let iw := iw + 2 * _frame_width + 2 * border_width in
  let ih := ih + _frame_width + 2 * border_width in
  ret (Z.max dw iw, dh + ih).

(** First loop of [do_size_allocate]: tabs left of the current one, nearest
    first, at most [max_before] of them; each admitted tab goes in front. *)
Fixpoint admit_left (g : DockGroup) (max_before : Z) (ts : list tabref)
    (count avail : Z) (vis : list tabref) : Z * Z * list tabref :=
  match ts with
  | [] => (count, avail, vis)
  | tab :: rest =>
      if 0 <=? avail - tab_width g tab then
        if count <? max_before
        then admit_left g max_before rest (count + 1) (avail - tab_width g tab) (tab :: vis)
        else (count, avail, vis)
      else (count, avail, vis)
  end.

(** Second loop: tabs right of the current one, each admitted tab appended. *)
Fixpoint admit_right (g : DockGroup) (ts : list tabref)
    (avail : Z) (vis : list tabref) : Z * list tabref :=
  match ts with
  | [] => (avail, vis)
  | tab :: rest =>
      if 0 <=? avail - tab_width g tab
      then admit_right g rest (avail - tab_width g tab) (vis ++ [tab])
      else (avail, vis)
  end.

(** Third loop: the tabs the first loop skipped, each admitted tab in front. *)
Fixpoint admit_extra (g : DockGroup) (ts : list tabref)
    (avail : Z) (vis : list tabref) : Z * list tabref :=
  match ts with
  | [] => (avail, vis)
  | tab :: rest =>
      if 0 <=? avail - tab_width g tab
      then admit_extra g rest (avail - tab_width g tab) (tab :: vis)
      else (avail, vis)
  end.

(** Width of the tab strip: the allocation less frame, spacing and the three
    decoration buttons. *)
Definition strip_width (tk : Toolkit) (alloc : Rectangle) : Z :=
  width alloc - _frame_width - _spacing -
  fst (max_button_req tk) - fst (min_button_req tk) - fst (list_button_req tk) - _spacing.

(** [normal] as the lone-tab branch computes it.  The source unpacks the
    button requisition as [(bh, bw)], so the term it adds for the button is
    the second component. *)
Definition normal_width (tk : Toolkit) (r : tabref) : Z :=
  let iw := fst (image_req tk r) in
  let lw := fst (label_req tk r) in
  let bw := snd (button_req tk r) in
  _frame_width + _spacing + iw + _spacing + lw + _spacing + bw +
  _spacing + _frame_width.

(** The three loops in their order, from the empty list: the new visible
    list for current tab [cur] at index [c]. *)
Definition admitted (g : DockGroup) (strip max_tabs_before_current : Z)
    (cur : tabref) (c : Z) : list tabref :=
  let available_width := strip - tab_width g cur in
  let '(count, available_width, vis) :=
    admit_left g max_tabs_before_current (rev (slice_to (_tabs g) c))
               0 available_width [] in
  let vis := vis ++ [cur] in
  let '(available_width, vis) :=
    admit_right g (slice_from (_tabs g) (c + 1)) available_width vis in
  let '(available_width, vis) :=
    admit_extra g (rev (slice_to (_tabs g) (c - count))) available_width vis in
  vis.

(** Where the current tab stood in the visible list before this pass; the
    number of tabs when it was not there. *)
Definition tabs_before_current (g : DockGroup) : M DockGroup Z :=
  match _visible_tabs g with
  | _ :: _ =>
      let! cur := lift (getitem (_tabs g) (_current_index g)) in
      match index (_visible_tabs g) cur with
      | Some i => ret (Z.of_nat i)
      | None => ret (Z.of_nat (length (_tabs g)))
      end
  | [] => ret (Z.of_nat (length (_tabs g)))
  end.

(** The admission process of [do_size_allocate]. *)
Definition admit_tabs (tk : Toolkit) (alloc : Rectangle) : M DockGroup unit :=
  let! g := get in
  let! max_tabs_before_current := tabs_before_current g in
  run! modify (set_visible_tabs []) in
  let! cur := lift (getitem (_tabs g) (_current_index g)) in
  let c := default 0 (_current_index g) in
  modify (set_visible_tabs
            (admitted g (strip_width tk alloc) max_tabs_before_current cur c)).

(** The lone-tab branch. *)
Definition widen_lone_tab (tk : Toolkit) (alloc : Rectangle) : M DockGroup unit :=
  let! g := get in
  if bool_decide (length (_visible_tabs g) = 1%nat) then
    let! tab := lift (getitem (_tabs g) (_current_index g)) in
    let normal := normal_width tk tab in
    let width := strip_width tk alloc in
    if width <=? normal
    then modify (upd_tab tab (with_area (with_width width)))
    else ret tt
  else ret tt.

(** Last loop: x and y of each visible tab. *)
Fixpoint place_tabs (vis : list tabref) (cx cy : Z) (g : DockGroup) : DockGroup :=
  match vis with
  | [] => g
  | tab :: rest =>
      let g := upd_tab tab (with_area (with_xy cx cy)) g in
      place_tabs rest (cx + tab_width g tab) cy g
  end.

(** [do_size_allocate] *)
Definition do_size_allocate (tk : Toolkit) (alloc : Rectangle) : M DockGroup unit :=
  run! modify (set_allocation alloc) in
  let! g := get in
  run! (match _tabs g with
        | _ :: _ =>
            run! admit_tabs tk alloc in
            widen_lone_tab tk alloc
        | [] => ret tt
        end) in
  modify (fun g => place_tabs (_visible_tabs g) 0 0 g).

(** *** Vocabulary of the statements *)

(** The index [set_current_item] settles on in a group of [count] tabs. *)
Definition clamp_index (count n : Z) : Z :=
  if n <? 0 then 0 else if count <=? n then count - 1 else n.

(** The DockItem held by the tab object [r]. *)
Definition tab_item (g : DockGroup) (r : tabref) : widget_id := item (tab_store g r).

(** The state [set_current_item] leaves, before the resize request. *)
Definition selected (g : DockGroup) (n : Z) : DockGroup :=
  match _tabs g with
  | [] => set_current None None g
  | _ :: _ =>
      let i := clamp_index (get_n_items g) n in
      set_current (Some i) (tab_item g <$> (_tabs g !! Z.to_nat i)) g
  end.

(** The GTK calls that take the tab [r] holding item [w] out of the group. *)
Definition teardown (w : widget_id) (r : tabref) : list gtk_call :=
  [unparent (TItem w); destroy (TItem w);
   unparent (TPeer Image r); destroy (TPeer Image r);
   unparent (TPeer Label r); destroy (TPeer Label r);
   unparent (TPeer Button r); destroy (TPeer Button r);
   menu_remove r; destroy (TPeer MenuItem r)].

(** One call from outside: the public item operations, the container's
    [remove] (the close button of a tab calls it with the tab's item), and
    the two passes of size negotiation. *)
Inductive step : DockGroup -> DockGroup -> Prop :=
| step_append_item (elsewhere : bool) (o : pyobj) (g : DockGroup) :
    step g (append_item elsewhere o g).2
| step_remove_item (n : Z) (g : DockGroup) : step g (remove_item n g).2
| step_set_current_item (n : Z) (g : DockGroup) : step g (set_current_item n g).2
| step_remove (o : pyobj) (g : DockGroup) : step g (container_remove o g).2
| step_size_request (tk : Toolkit) (g : DockGroup) : step g (do_size_request tk g).2
| step_size_allocate (tk : Toolkit) (a : Rectangle) (g : DockGroup) :
    step g (do_size_allocate tk a g).2.

Inductive reachable : DockGroup -> Prop :=
| reachable_init : reachable init
| reachable_step (g g' : DockGroup) : reachable g -> step g g' -> reachable g'.

(** The selection rule as the specification words it, for removing index
    [i] from a group whose current index is [c] and which keeps [count']
    tabs. *)
Definition reselect_spec (c i count' : Z) : Z :=
  if c <? i then c
  else if i <? c then c - 1
  else Z.min i (count' - 1).

(** What the specification promises of an operation [op] that removes the
    tab at index [i]. *)
Definition removal_spec (op : M DockGroup unit) (g : DockGroup) (i : Z) : Prop :=
  let g' := (op g).2 in
  _tabs g' = delete (Z.to_nat i) (_tabs g) /\
  forall c, _current_index g = Some c ->
            _current_index g' = Some (reselect_spec c i (get_n_items g')).

(** The selection invariant of the data model. *)
Definition selection_ok (g : DockGroup) : Prop :=
  match _current_index g with
  | None => _tabs g = [] /\ _current_item g = None
  | Some c =>
      0 <= c < get_n_items g /\
      exists r, _tabs g !! Z.to_nat c = Some r /\ _current_item g = Some (tab_item g r)
  end.

(** The invariant reads four things of a group. *)
Definition same_selection (g g' : DockGroup) : Prop :=
  _tabs g' = _tabs g /\ _current_index g' = _current_index g /\
  _current_item g' = _current_item g /\ (forall r, tab_item g' r = tab_item g r).

(** Each operation leaves the group as it was or ends in [set_current_item]. *)
Definition settles (g g' : DockGroup) : Prop :=
  g' = g \/ exists g1 n, g' = (set_current_item n g1).2.

(** A group of three items 10, 11 and 12 with the first one current, built
    with the public operations. *)
Definition three_items : DockGroup :=
  (set_current_item 0
     (append_item false (DockItem 12%nat)
        (append_item false (DockItem 11%nat)
           (append_item false (DockItem 10%nat) init).2).2).2).2.

(** The same group with the middle item current. *)
Definition three_items_middle : DockGroup := (set_current_item 1 three_items).2.

Definition one_item : DockGroup := (append_item false (DockItem 10%nat) init).2.


(** A toolkit with 16x16 icons and buttons and 40x16 labels, and the group
    of one item after its size request: the tab is 86 wide. *)
Definition tk16 : Toolkit :=
  {| image_req := fun _ => (16, 16); label_req := fun _ => (40, 16);
     button_req := fun _ => (16, 16);
     list_button_req := (16, 16); min_button_req := (16, 16);
     max_button_req := (16, 16); item_req := fun _ => (200, 100) |}.

Definition one_item_requested : DockGroup := (do_size_request tk16 one_item).2.

End dockgroup.

(** ** util.py *)
Module util.

Import dockgroup.
Import QArith_base.

(** Pointer coordinates of an event are floats; a rational stands for a
    finite one.  Rectangles hold integers. *)
Definition Qltb (p q : Q) : bool :=
  match Qcompare p q with Lt => true | _ => false end.
Definition Qleb (p q : Q) : bool :=
  match Qcompare p q with Gt => false | _ => true end.

(** [_rect_contains] *)
Definition _rect_contains (rect : Rectangle) (px py : Q) : bool :=
  Qltb (inject_Z (x rect)) px && Qltb px (inject_Z (x rect + width rect)%Z) &&
  Qltb (inject_Z (y rect)) py && Qltb py (inject_Z (y rect + height rect)%Z).

(** [_rect_overlaps] *)
Definition _rect_overlaps (rect : Rectangle) (px py : Q) : bool :=
  Qleb (inject_Z (x rect)) px && Qleb px (inject_Z (x rect + width rect)%Z) &&
  Qleb (inject_Z (y rect)) py && Qleb py (inject_Z (y rect + height rect)%Z).

End util.

(** ** dockgroup.py: pointer events and signal handlers *)
Module dockgroup_events.

Import dockgroup util.
Import QArith_base.

Definition with_state (st : StateType) (t : _DockGroupTab) : _DockGroupTab :=
  mkTab (item t) st (area t).

(** The loop of [do_motion_notify_event] over the visible tabs.  The
    tooltip calls are not recorded. *)
Fixpoint notify_tabs (vis : list tabref) (ex ey : Q) (g : DockGroup) : DockGroup :=
  match vis with
  | [] => g
  | tab :: rest =>
      let t := tab_store g tab in
      let g :=
        if _rect_contains (area t) ex ey then
          match state t with
          | STATE_NORMAL =>
              call [queue_resize] (upd_tab tab (with_state STATE_PRELIGHT) g)
          | STATE_PRELIGHT => g
          end
        else
          match state t with
          | STATE_PRELIGHT =>
              call [queue_resize] (upd_tab tab (with_state STATE_NORMAL) g)
          | STATE_NORMAL => g
          end in
      notify_tabs rest ex ey g
  end.

(** [do_motion_notify_event] *)
Definition do_motion_notify_event (ex ey : Q) : M DockGroup unit :=
  modify (fun g => notify_tabs (_visible_tabs g) ex ey g).

(** The first visible tab under the pointer, where the loop of
    [do_button_release_event] breaks. *)
Definition tab_at (g : DockGroup) (ex ey : Q) : option tabref :=
  List.find (fun tab => _rect_contains (area (tab_store g tab)) ex ey) (_visible_tabs g).

(** [self._tabs.index(tab)]: a ValueError when the tab is not there. *)
Definition tabs_index (g : DockGroup) (tab : tabref) : outcome Z :=
  match index (_tabs g) tab with
  | Some i => Ok (Z.of_nat i)
  | None => Raise ValueError
  end.

(** [do_button_release_event]: button 1 selects the tab, button 3 pops up
    the tab menu (a GTK call, not recorded). *)
Definition do_button_release_event (ex ey : Q) (button : Z) : M DockGroup bool :=
  let! g := get in
  run! (match tab_at g ex ey with
        | Some tab =>
            if (button =? 1)%Z then
              let! i := lift (tabs_index g tab) in
              set_current_item i
            else ret tt
        | None => ret tt
        end) in
  ret true.

(** [_on_tab_button_clicked] *)
Definition _on_tab_button_clicked (item : widget_id) : M DockGroup unit :=
  container_remove (DockItem item).

(** [_on_list_menu_item_activated] *)
Definition _on_list_menu_item_activated (tab : tabref) : M DockGroup unit :=
  let! g := get in
  let! i := lift (tabs_index g tab) in
  set_current_item i.

(** *** Vocabulary of the statements *)

(** One call from outside, pointer events and signals of the group's own
    buttons and menu included. *)
Inductive ui_step : DockGroup -> DockGroup -> Prop :=
| ui_call (g g' : DockGroup) : step g g' -> ui_step g g'
| ui_motion (ex ey : Q) (g : DockGroup) :
    ui_step g (do_motion_notify_event ex ey g).2
| ui_release (ex ey : Q) (button : Z) (g : DockGroup) :
    ui_step g (do_button_release_event ex ey button g).2
| ui_close (item : widget_id) (g : DockGroup) :
    ui_step g (_on_tab_button_clicked item g).2
| ui_menu (tab : tabref) (g : DockGroup) :
    ui_step g (_on_list_menu_item_activated tab g).2.

Inductive ui_reachable : DockGroup -> Prop :=
| ui_reachable_init : ui_reachable init
| ui_reachable_step (g g' : DockGroup) :
    ui_reachable g -> ui_step g g' -> ui_reachable g'.

(** The tab objects of a group are distinct and older than the next one to
    be created, and the visible tabs are tabs, in the tabs' order. *)
Definition group_wf (g : DockGroup) : Prop :=
  NoDup (_tabs g) /\
  (forall r, r ∈ _tabs g -> (r < next_tab g)%nat) /\
  _visible_tabs g `sublist_of` _tabs g.

(** The state the pointer leaves a tab in: prelighted under the pointer,
    normal elsewhere. *)
Definition hover_state (g : DockGroup) (ex ey : Q) (r : tabref) : StateType :=
  if _rect_contains (area (tab_store g r)) ex ey then STATE_PRELIGHT else STATE_NORMAL.

(** The group of three items, the middle one current, after a size request:
    each tab is 86 wide. *)
Definition three_items_requested : DockGroup :=
  (do_size_request tk16 three_items_middle).2.

(** The same after a layout pass 400 wide: three tabs side by side. *)
Definition three_items_laid_out : DockGroup :=
  (do_size_allocate tk16 (mkRect 0 0 400 200) three_items_requested).2.

(** The tabs left of index [c], nearest first, and the tabs right of it. *)
Definition left_of (g : DockGroup) (c : Z) : list tabref :=
  rev (take (Z.to_nat c) (_tabs g)).
Definition right_of (g : DockGroup) (c : Z) : list tabref :=
  drop (S (Z.to_nat c)) (_tabs g).

(** [max_tabs_before_current] as a layout pass computes it for the current
    tab [cur]. *)
Definition position_before (g : DockGroup) (cur : tabref) : Z :=
  match _visible_tabs g with
  | [] => Z.of_nat (length (_tabs g))
  | _ :: _ => match index (_visible_tabs g) cur with
              | Some i => Z.of_nat i
              | None => Z.of_nat (length (_tabs g))
              end
  end.

(** The total width of a list of tabs. *)
Definition total_width (g : DockGroup) (ts : list tabref) : Z :=
  foldr (fun r acc => (tab_width g r + acc)%Z) 0%Z ts.

End dockgroup_events.

(** ** docklayout.py *)
Module docklayout.

Import dockgroup.

Definition MAGIC_BORDER_SIZE : Z := 10.

(** The classes the generic functions dispatch on. *)
Inductive kind : Type :=
| KDockGroup
| KDockPaned
| KDockFrame
| KContainer      (* another gtk.Container *)
| KWidget.        (* a widget that is no container *)

Inductive Orientation : Type := ORIENTATION_HORIZONTAL | ORIENTATION_VERTICAL.

Definition isinstance_Container (k : kind) : bool :=
  match k with KWidget => false | _ => true end.

Definition isinstance_DockFrame (k : kind) : bool :=
  match k with KDockFrame => true | _ => false end.

#[local] Set Warnings "-register-all".

(** A widget as the drag handlers see it: identity, class, what GTK reports
    for it, and its chain of ancestors ([get_parent]). *)
Inductive widget : Type := mkWidget {
  wid : widget_id;
  wkind : kind;
  wallocation : Rectangle;
  get_orientation : Orientation;
  get_pointer : Z * Z;
  get_parent : option widget
}.

(** A widget as registration sees it: the subtree [foreach] walks. *)
Inductive wtree : Type :=
| Node (w : widget_id) (k : kind) (children : list wtree).

Definition DragContext : Type := nat.
Definition SelectionData : Type := nat.
Definition timestamp : Type := Z.

(** Calls the coordinator makes to the callbacks of a session, in order.
    Ghost state: nothing reads it; it lets theorems count the calls. *)
Inductive invocation : Type :=
| called_leave (drop_widget : widget_id)
| called_received (drop_widget : widget_id).

(** One connected signal handler. *)
Inductive signal : Type :=
| sig_add | sig_remove | sig_drag_motion | sig_drag_leave | sig_drag_drop
| sig_drag_data_received | sig_drag_end | sig_drag_failed.

Record connection : Type := mkConn {
  conn_widget : widget_id;
  conn_signal : signal;
  conn_id : nat
}.

Section handlers.

(** Everything outside the coordinator the callbacks act on: attributes of
    the widgets and the state of GTK.  Output to the log and to stdout is
    not modelled. *)
Context {World : Type}.

(** [DragData = namedtuple('DragData', 'drop_widget leave received')];
    [leave] and [received] hold a function or [None]. *)
Record DragData : Type := mkDragData {
  drop_widget : widget;
  leave : option (widget -> M World unit);
  received : option (SelectionData -> Z -> M World unit)
}.

Definition handler : Type :=
  widget -> DragContext -> Z -> Z -> timestamp -> M World (option DragData).

(** The parts of the handler bodies that run against the DockGroup and
    DockPaned drag API and against GTK. *)
Record Externals : Type := mkExternals {
  group_set_drop_tab_index : widget -> Z -> Z -> M World unit;
  dock_group_highlight : widget -> M World unit;
  dock_unhighlight : widget -> M World unit;
  dock_group_drag_data_received :
    widget -> DragContext -> Z -> Z -> timestamp -> SelectionData -> Z -> M World unit;
  paned_set_drop_handle_index : widget -> Z -> Z -> M World unit;
  dock_paned_highlight : widget -> M World unit;
  dock_paned_drag_data_received :
    widget -> DragContext -> Z -> Z -> timestamp -> SelectionData -> Z -> M World unit
}.

Context (ext : Externals).

(** [_propagate_to_parent] *)
Definition _propagate_to_parent (func : handler) : handler :=
  fun widget context x y timestamp =>
    match get_parent widget with
    | Some parent =>
        let '(px, py) := get_pointer parent in
        func parent context px py timestamp
    | None => ret None
    end.

(** [dock_paned_magic_borders_leave] *)
Definition dock_paned_magic_borders_leave (self : widget) : M World unit := ret tt.

(** [dock_paned_magic_borders] *)
Definition dock_paned_magic_borders : handler :=
  fun self context x y timestamp =>
    let a := wallocation self in
    if Z.abs (Z.min y (height a - y)) <? MAGIC_BORDER_SIZE then
      ret (Some (mkDragData self (Some dock_paned_magic_borders_leave) None))
    else if Z.abs (Z.min x (width a - x)) <? MAGIC_BORDER_SIZE then
      ret (Some (mkDragData self (Some dock_paned_magic_borders_leave) None))
    else ret None.

(** [dock_frame_magic_borders]: every branch is [pass]. *)
Definition dock_frame_magic_borders : handler :=
  fun self context x y timestamp => ret None.

(** The generic function [magic_borders] with its [when_type] cases. *)
Definition magic_borders : handler :=
  fun widget context x y timestamp =>
    match wkind widget with
    | KDockPaned => dock_paned_magic_borders widget context x y timestamp
    | KDockFrame => dock_frame_magic_borders widget context x y timestamp
    | _ => ret None
    end.

(** [handled or func(...)]: a DragData is a non-empty tuple and counts as
    true, [None] as false. *)
Definition or_else (handled : option DragData) (other : M World (option DragData))
    : M World (option DragData) :=
  match handled with
  | Some d => ret (Some d)
  | None => other
  end.

(** [with_magic_borders] *)
Definition with_magic_borders (func : handler) : handler :=
  fun widget context x y timestamp =>
    let! handled := _propagate_to_parent magic_borders widget context x y timestamp in
    or_else handled (func widget context x y timestamp).

(** [dock_group_drag_motion], before decoration. *)
Definition dock_group_drag_motion : handler :=
  fun self context x y timestamp =>
    run! group_set_drop_tab_index ext self x y in
    run! dock_group_highlight ext self in
    ret (Some (mkDragData self (Some (dock_unhighlight ext))
                 (Some (dock_group_drag_data_received ext self context x y timestamp)))).

(** [dock_paned_drag_motion], before decoration. *)
Definition dock_paned_drag_motion : handler :=
  fun self context x y timestamp =>
    run! paned_set_drop_handle_index ext self x y in
    run! dock_paned_highlight ext self in
    ret (Some (mkDragData self (Some (dock_unhighlight ext))
                 (Some (dock_paned_drag_data_received ext self context x y timestamp)))).

(** The generic function [drag_motion]: the decorated handlers for
    DockGroup and DockPaned, else the call goes to the parent. *)
Fixpoint drag_motion (widget : widget) : DragContext -> Z -> Z -> timestamp ->
    M World (option DragData) :=
  fun context x y timestamp =>
    match wkind widget with
    | KDockGroup => with_magic_borders dock_group_drag_motion widget context x y timestamp
    | KDockPaned => with_magic_borders dock_paned_drag_motion widget context x y timestamp
    | _ => _propagate_to_parent drag_motion widget context x y timestamp
    end.

(** [DockLayout]: the object and what its handlers act on. *)
Record DockLayout : Type := mkLayout {
  frames : gset widget_id;
  _signal_handlers : gmap widget_id (gset nat);
  _drag_data : option DragData
}.

Record Sys : Type := mkSys {
  self : DockLayout;
  connections : list connection;     (* GTK's table of connected handlers *)
  next_handler_id : nat;
  drag_dests : gset widget_id;       (* widgets made a drag destination *)
  world : World;
  invoked : list invocation
}.

(** [DockLayout.__init__] *)
Definition init : DockLayout :=
  {| frames := ∅; _signal_handlers := ∅; _drag_data := None |}.

Definition set_self (f : DockLayout -> DockLayout) (s : Sys) : Sys :=
  mkSys (f (self s)) (connections s) (next_handler_id s) (drag_dests s) (world s) (invoked s).
Definition set_drag_data (d : option DragData) (l : DockLayout) : DockLayout :=
  mkLayout (frames l) (_signal_handlers l) d.
Definition set_signal_handlers (m : gmap widget_id (gset nat)) (l : DockLayout) : DockLayout :=
  mkLayout (frames l) m (_drag_data l).
Definition set_frames (f : gset widget_id) (l : DockLayout) : DockLayout :=
  mkLayout f (_signal_handlers l) (_drag_data l).

(** Run a computation on the world inside the system. *)
Definition in_world {A} (m : M World A) : M Sys A :=
  fun s => let '(r, w) := m (world s) in
           (r, mkSys (self s) (connections s) (next_handler_id s) (drag_dests s) w (invoked s)).

Definition note (i : invocation) : M Sys unit :=
  modify (fun s => mkSys (self s) (connections s) (next_handler_id s) (drag_dests s)
                         (world s) (invoked s ++ [i])).

(** [widget.drag_dest_set(...)] *)
Definition drag_dest_set (w : widget_id) : M Sys unit :=
  modify (fun s => mkSys (self s) (connections s) (next_handler_id s)
                         (drag_dests s ∪ {[w]}) (world s) (invoked s)).

(** The signals a widget of class [k] has: [add] and [remove] are signals
    of gtk.Container, the drag signals are signals of every gtk.Widget. *)
Definition has_signal (k : kind) (name : signal) : bool :=
  match name with
  | sig_add | sig_remove => isinstance_Container k
  | _ => true
  end.

(** [widget.connect(name, callback)]: GTK hands out a new handler id; a
    name that is no signal of the widget raises TypeError. *)
Definition connect (w : widget_id) (k : kind) (name : signal) : M Sys nat :=
  fun s =>
    if has_signal k name then
      (Ok (next_handler_id s),
       mkSys (self s) (connections s ++ [mkConn w name (next_handler_id s)])
             (S (next_handler_id s)) (drag_dests s) (world s) (invoked s))
    else (Raise TypeError, s).

(** [for s in signals: widget.disconnect(s)] *)
Definition disconnect_all (w : widget_id) (signals : gset nat) : M Sys unit :=
  modify (fun s =>
    mkSys (self s)
          (filter (fun c => ¬ (conn_widget c = w ∧ conn_id c ∈ signals)) (connections s))
          (next_handler_id s) (drag_dests s) (world s) (invoked s)).

Definition signal_names : list signal :=
  [sig_add; sig_remove; sig_drag_motion; sig_drag_leave; sig_drag_drop;
   sig_drag_data_received; sig_drag_end; sig_drag_failed].

(** The loop [signals.add(widget.connect(name, callback))]. *)
Fixpoint connect_each (w : widget_id) (k : kind) (names : list signal)
    (signals : gset nat) : M Sys (gset nat) :=
  match names with
  | [] => ret signals
  | name :: rest =>
      let! id := connect w k name in
      connect_each w k rest (signals ∪ {[id]})
  end.

(** [self._signal_handlers.get(widget)] as a condition: an entry that is a
    non-empty set. *)
Definition has_handlers (l : DockLayout) (w : widget_id) : bool :=
  match _signal_handlers l !! w with
  | Some signals => negb (bool_decide (signals = ∅))
  | None => false
  end.

(** [add_signal_handlers]; [widget.foreach(callback)] calls the callback
    on each child, and an exception of the callback does not reach the
    caller of [foreach]. *)
Fixpoint add_signal_handlers (widget : wtree) : M Sys unit :=
  match widget with
  | Node w k children =>
      let! s := get in
      if has_handlers (self s) w then ret tt
      else
        run! drag_dest_set w in
        let! signals := connect_each w k signal_names ∅ in
        run! modify (set_self (fun l =>
               set_signal_handlers (<[w := signals]> (_signal_handlers l)) l)) in
        if isinstance_Container k then
          (fix foreach (cs : list wtree) : M Sys unit :=
             match cs with
             | [] => ret tt
             | c :: cs' => run! swallow (add_signal_handlers c) in foreach cs'
             end) children
        else ret tt
  end.

(** [remove_signal_handlers] *)
Fixpoint remove_signal_handlers (widget : wtree) : M Sys unit :=
  match widget with
  | Node w k children =>
      let! s := get in
      match _signal_handlers (self s) !! w with
      | None => ret tt                                   (* KeyError: no signals *)
      | Some signals =>
          run! disconnect_all w signals in
          run! modify (set_self (fun l =>
                 set_signal_handlers (delete w (_signal_handlers l)) l)) in
          if isinstance_Container k then
            (fix foreach (cs : list wtree) : M Sys unit :=
               match cs with
               | [] => ret tt
               | c :: cs' => run! swallow (remove_signal_handlers c) in foreach cs'
               end) children
          else ret tt
      end
  end.

Definition root (t : wtree) : widget_id := match t with Node w _ _ => w end.
Definition root_kind (t : wtree) : kind := match t with Node _ k _ => k end.

(** [DockLayout.add] *)
Definition add (frame : wtree) : M Sys unit :=
  if isinstance_DockFrame (root_kind frame) then
    run! modify (set_self (fun l => set_frames (frames l ∪ {[root frame]}) l)) in
    add_signal_handlers frame
  else raise AssertionError.

(** [DockLayout.remove] *)
Definition remove (frame : wtree) : M Sys unit :=
  run! remove_signal_handlers frame in
  let! s := get in
  if bool_decide (root frame ∈ frames (self s))
  then modify (set_self (fun l => set_frames (frames l ∖ {[root frame]}) l))
  else raise KeyError.

(** [on_widget_add] and [on_widget_remove] *)
Definition on_widget_add (container widget : wtree) : M Sys unit :=
  if isinstance_Container (root_kind widget) then add_signal_handlers widget else ret tt.
Definition on_widget_remove (container widget : wtree) : M Sys unit :=
  if isinstance_Container (root_kind widget) then remove_signal_handlers widget else ret tt.

(** [on_widget_drag_leave] *)
Definition on_widget_drag_leave (widget : widget) (context : DragContext)
    (timestamp : timestamp) : M Sys unit :=
  let! s := get in
  match _drag_data (self s) with
  | Some drag_data =>
      match leave drag_data with
      | Some f =>
          run! note (called_leave (wid (drop_widget drag_data))) in
          in_world (f (drop_widget drag_data))
      | None => ret tt
      end
  | None => ret tt
  end.

(** [x is y] on what [d and d.drop_widget] gives: the same widget object,
    or [None] on both sides. *)
Definition target_of (d : option DragData) : option widget_id :=
  (fun d => wid (drop_widget d)) <$> d.

(** [on_widget_drag_motion] *)
Definition on_widget_drag_motion (widget : widget) (context : DragContext)
    (x y : Z) (timestamp : timestamp) : M Sys unit :=
  let! drag_data := in_world (drag_motion widget context x y timestamp) in
  let! s := get in
  let old_drop_widget := target_of (_drag_data (self s)) in
  let new_drop_widget := target_of drag_data in
  if negb (bool_decide (new_drop_widget = old_drop_widget)) then
    run! on_widget_drag_leave widget context timestamp in
    modify (set_self (set_drag_data drag_data))
  else ret tt.

(** [on_widget_drag_data_received] *)
Definition on_widget_drag_data_received (widget : widget) (context : DragContext)
    (x y : Z) (selection_data : SelectionData) (info : Z) (timestamp : timestamp)
    : M Sys unit :=
  let! s := get in
  match _drag_data (self s) with
  | None => raise AttributeError             (* [None.received] *)
  | Some drag_data =>
      match received drag_data with
      | None => raise AssertionError         (* [assert drag_data.received] *)
      | Some f =>
          try_finally
            (run! note (called_received (wid (drop_widget drag_data))) in
             in_world (f selection_data info))
             (set_self (set_drag_data None))
      end
  end.

(** *** Vocabulary of the statements *)

(** One drag-motion event as GTK delivers it. *)
Record motion : Type := mkMotion {
  m_widget : widget;
  m_context : DragContext;
  m_x : Z;
  m_y : Z;
  m_time : timestamp
}.

(** What one motion event did: the system before, what [drag_motion]
    resolved and the world it left, how the handler ended, the system
    after. *)
Record observation : Type := mkObservation {
  before : Sys;
  resolved : outcome (option DragData);
  resolved_world : World;
  result : outcome unit;
  after : Sys
}.

(** The handler applied to a sequence of events.  An exception in a signal
    handler is reported by GTK and the next event is handled as usual. *)
Fixpoint observe (events : list motion) (s : Sys) : list observation :=
  match events with
  | [] => []
  | e :: rest =>
      let '(d, w) := drag_motion (m_widget e) (m_context e) (m_x e) (m_y e) (m_time e)
                                 (world s) in
      let '(r, s') := on_widget_drag_motion (m_widget e) (m_context e) (m_x e) (m_y e)
                                            (m_time e) s in
      mkObservation s d w r s' :: observe rest s'
  end.

(** The calls to [leave] due when the session [d] is given up. *)
Definition leave_calls (d : option DragData) : list invocation :=
  match d with
  | Some d => match leave d with
              | Some _ => [called_leave (wid (drop_widget d))]
              | None => []
              end
  | None => []
  end.

(** The effect of the [leave] callback of session [d] on the world. *)
Definition run_leave (d : option DragData) : M World unit :=
  match d with
  | Some d => match leave d with
              | Some f => f (drop_widget d)
              | None => ret tt
              end
  | None => ret tt
  end.

(** The session update rule, for one observed event: with the same target
    nothing changes and nothing is called; with another target the old
    session's [leave] is called once, on the world [drag_motion] left, and
    the session is replaced once that call has returned. *)
Definition observation_ok (o : observation) : Prop :=
  let old := _drag_data (self (before o)) in
  match resolved o with
  | Raise e =>
      result o = Raise e /\ self (after o) = self (before o) /\
      invoked (after o) = invoked (before o) /\ world (after o) = resolved_world o
  | Ok d =>
      if bool_decide (target_of d = target_of old)
      then result o = Ok tt /\ self (after o) = self (before o) /\
           invoked (after o) = invoked (before o) /\
           world (after o) = resolved_world o
      else invoked (after o) = invoked (before o) ++ leave_calls old /\
           run_leave old (resolved_world o) = (result o, world (after o)) /\
           self (after o) =
             (if raised (result o) then self (before o)
              else set_drag_data d (self (before o)))
  end.

(** Every entry of the handler map is a non-empty set. *)
Definition handlers_ok (l : DockLayout) : Prop :=
  forall w signals, _signal_handlers l !! w = Some signals -> signals <> ∅.

(** What a registration call may do to the coordinator: the session and
    the frames stay, registered widgets stay registered, and entries stay
    non-empty. *)
Definition registers (s s' : Sys) : Prop :=
  _drag_data (self s') = _drag_data (self s) /\
  frames (self s') = frames (self s) /\
  (forall w, has_handlers (self s) w = true -> has_handlers (self s') w = true) /\
  (handlers_ok (self s) -> handlers_ok (self s')).

(** One call into the coordinator. *)
Inductive sys_step : Sys -> Sys -> Prop :=
| step_add (t : wtree) (s : Sys) : sys_step s (add t s).2
| step_remove (t : wtree) (s : Sys) : sys_step s (remove t s).2
| step_add_signal_handlers (t : wtree) (s : Sys) :
    sys_step s (add_signal_handlers t s).2
| step_remove_signal_handlers (t : wtree) (s : Sys) :
    sys_step s (remove_signal_handlers t s).2
| step_on_widget_add (c t : wtree) (s : Sys) : sys_step s (on_widget_add c t s).2
| step_on_widget_remove (c t : wtree) (s : Sys) : sys_step s (on_widget_remove c t s).2
| step_drag_motion (e : motion) (s : Sys) :
    sys_step s (on_widget_drag_motion (m_widget e) (m_context e) (m_x e) (m_y e)
                                      (m_time e) s).2
| step_drag_leave (e : motion) (s : Sys) :
    sys_step s (on_widget_drag_leave (m_widget e) (m_context e) (m_time e) s).2
| step_drag_data_received (e : motion) (sel : SelectionData) (info : Z) (s : Sys) :
    sys_step s (on_widget_drag_data_received (m_widget e) (m_context e) (m_x e) (m_y e)
                                             sel info (m_time e) s).2.

(** The systems a new [DockLayout] can get to. *)
Inductive sys_reachable : Sys -> Prop :=
| sys_reachable_init (s : Sys) : self s = init -> sys_reachable s
| sys_reachable_step (s s' : Sys) : sys_reachable s -> sys_step s s' -> sys_reachable s'.

End handlers.

(** *** A small system for examples *)

(** A world with nothing in it, and handler bodies that do nothing. *)
Definition quiet : @Externals unit :=
  {| group_set_drop_tab_index := fun _ _ _ => ret tt;
     dock_group_highlight := fun _ => ret tt;
     dock_unhighlight := fun _ => ret tt;
     dock_group_drag_data_received := fun _ _ _ _ _ _ _ => ret tt;
     paned_set_drop_handle_index := fun _ _ _ => ret tt;
     dock_paned_highlight := fun _ => ret tt;
     dock_paned_drag_data_received := fun _ _ _ _ _ _ _ => ret tt |}.

(** A frame holding a paned with two groups. *)
Definition frame_tree : wtree :=
  Node 1 KDockFrame [Node 2 KDockPaned [Node 3 KDockGroup []; Node 4 KDockGroup []]].

Definition new_system : @Sys unit := mkSys init [] 0 ∅ tt [].

(** The system after [layout.add(frame)]. *)
Definition framed_system : @Sys unit := (add frame_tree new_system).2.

End docklayout.

(** ** docklayout.py: drag source handlers and the registered subtree *)
Module docklayout_more.

Import dockgroup docklayout.

Section sources.

Context {World : Type}.

(** The body of [dock_group_drag_failed]: the loop that puts the dragged
    items without a parent back into the group runs against the DockGroup
    drag API. *)
Context (group_reinsert_dragged : widget -> DragContext -> Z -> M World unit).

(** The generic function [drag_failed]: [dock_group_drag_failed] for a
    DockGroup, which returns True after its loop; for every other widget
    [parent and drag_failed(parent, context, result)], which is [None]
    without a parent. *)
Fixpoint drag_failed (widget : widget) : DragContext -> Z -> M World (option bool) :=
  fun context result =>
    match wkind widget with
    | KDockGroup =>
        run! group_reinsert_dragged widget context result in
        ret (Some true)
    | _ =>
        match get_parent widget with
        | Some parent => drag_failed parent context result
        | None => ret None
        end
    end.

(** [on_widget_drag_failed] *)
Definition on_widget_drag_failed (widget : widget) (context : DragContext) (result : Z)
    : M World (option bool) :=
  drag_failed widget context result.

End sources.

(** *** Vocabulary of the statements *)

(** The nearest widget, from [widget] upwards, that has a drag-motion
    handler of its own: a DockGroup or a DockPaned. *)
Fixpoint drop_ancestor (widget : widget) : option docklayout.widget :=
  match wkind widget with
  | KDockGroup | KDockPaned => Some widget
  | _ => match get_parent widget with
         | Some parent => drop_ancestor parent
         | None => None
         end
  end.

(** The nearest DockGroup, from [widget] upwards. *)
Fixpoint group_ancestor (widget : widget) : option docklayout.widget :=
  match wkind widget with
  | KDockGroup => Some widget
  | _ => match get_parent widget with
         | Some parent => group_ancestor parent
         | None => None
         end
  end.

(** The pointer is within [MAGIC_BORDER_SIZE] of an edge of the paned, as
    [dock_paned_magic_borders] tests it. *)
Definition near_border (paned : widget) (px py : Z) : bool :=
  (Z.abs (Z.min py (height (wallocation paned) - py)) <? MAGIC_BORDER_SIZE)
  || (Z.abs (Z.min px (width (wallocation paned) - px)) <? MAGIC_BORDER_SIZE).

(** What a session resolved for the handler widget [h] looks like: its
    target is [h] and it has a [received] callback, or its target is the
    DockPaned parent of [h] and it has none. *)
Definition resolved_for {World : Type} (h : widget) (d : @DragData World) : Prop :=
  (drop_widget d = h /\ is_Some (received d)) \/
  (get_parent h = Some (drop_widget d) /\ wkind (drop_widget d) = KDockPaned /\
   received d = None).

(** The session, if there is one, targets a DockGroup or a DockPaned, and
    one without a [received] callback targets a DockPaned. *)
Definition session_ok {World : Type} (s : @Sys World) : Prop :=
  match _drag_data (self s) with
  | None => True
  | Some d =>
      (wkind (drop_widget d) = KDockGroup \/ wkind (drop_widget d) = KDockPaned) /\
      (received d = None -> wkind (drop_widget d) = KDockPaned)
  end.

(** The widgets [add_signal_handlers] walks from a widget: the widget, and
    for a container the widgets walked from its children, in order. *)
Fixpoint subtree (t : wtree) : list widget_id :=
  match t with
  | Node w k children =>
      w :: (if isinstance_Container k then flat_map subtree children else [])
  end.

(** The containers among them that [add_signal_handlers] gets to: on a
    widget that is no container [connect] raises before anything is
    recorded. *)
Fixpoint containers (t : wtree) : list widget_id :=
  match t with
  | Node w k children =>
      if isinstance_Container k then w :: flat_map containers children else []
  end.

(** The eight connections made on widget [w] when the next handler id is
    [n], and the set of their ids. *)
Definition connections_for (w : widget_id) (n : nat) : list connection :=
  imap (fun j name => mkConn w name (n + j)) signal_names.

Definition handler_ids (n : nat) : gset nat :=
  list_to_set (seq n (length signal_names)).

(** Registration of a list of widgets in order, as a specification: what
    it adds to the connection table and to the handler map. *)
Fixpoint registered_connections (ws : list widget_id) (n : nat) : list connection :=
  match ws with
  | [] => []
  | w :: ws' =>
      connections_for w n ++ registered_connections ws' (n + length signal_names)
  end.

Fixpoint registered_handlers (ws : list widget_id) (n : nat)
    (m : gmap widget_id (gset nat)) : gmap widget_id (gset nat) :=
  match ws with
  | [] => m
  | w :: ws' =>
      registered_handlers ws' (n + length signal_names) (<[w := handler_ids n]> m)
  end.

Definition registered_dests (ws : list widget_id) (d : gset widget_id) : gset widget_id :=
  foldl (fun d w => d ∪ {[w]}) d ws.

(** The system after the widgets [ds] were made drag destinations and the
    widgets [ws] were registered in order. *)
Definition registered {World : Type} (ws ds : list widget_id) (s : @Sys World) : Sys :=
  mkSys (set_signal_handlers
           (registered_handlers ws (next_handler_id s) (_signal_handlers (self s)))
           (self s))
        (connections s ++ registered_connections ws (next_handler_id s))
        (next_handler_id s + length signal_names * length ws)
        (registered_dests ds (drag_dests s))
        (world s) (invoked s).

(** How [add_signal_handlers] ends on a subtree without entries. *)
Definition add_outcome (t : wtree) : outcome unit :=
  if isinstance_Container (root_kind t) then Ok tt else Raise TypeError.

(** The system after the entry of widget [w] was taken out: the handlers
    named in the entry disconnected, the entry deleted. *)
Definition unregistered_one {World : Type} (s : @Sys World) (w : widget_id) : Sys :=
  match _signal_handlers (self s) !! w with
  | Some signals =>
      mkSys (set_signal_handlers (delete w (_signal_handlers (self s))) (self s))
            (filter (fun c => ¬ (conn_widget c = w ∧ conn_id c ∈ signals)) (connections s))
            (next_handler_id s) (drag_dests s) (world s) (invoked s)
  | None => s
  end.

Definition unregistered {World : Type} (ws : list widget_id) (s : @Sys World) : Sys :=
  foldl unregistered_one s ws.

(** The connection table hands out ids it has not used. *)
Definition connections_fresh {World : Type} (s : @Sys World) : Prop :=
  forall c, c ∈ connections s -> (conn_id c < next_handler_id s)%nat.

(** No widget of the list has an entry in the handler map. *)
Definition unregistered_in {World : Type} (ws : list widget_id) (s : @Sys World) : Prop :=
  forall w, w ∈ ws -> _signal_handlers (self s) !! w = None.

(** Every handler id recorded for a widget is a connection of that widget
    in GTK's table. *)
Definition tracked_live {World : Type} (s : @Sys World) : Prop :=
  forall w signals id,
    _signal_handlers (self s) !! w = Some signals -> id ∈ signals ->
    exists name, mkConn w name id ∈ connections s.

(** What a registration call may do, given the widgets [ws] it walks:
    connections are added at the end of the table and belong to widgets of
    [ws]; entries of other widgets stay. *)
Definition adds_within {World : Type} (ws : list widget_id) (s s' : @Sys World) : Prop :=
  (exists new, connections s' = connections s ++ new /\
               forall c, c ∈ new -> conn_widget c ∈ ws) /\
  (forall w, w ∉ ws -> _signal_handlers (self s') !! w = _signal_handlers (self s) !! w) /\
  (tracked_live s -> tracked_live s').

(** What a removal call may do, given the widgets [ws] it walks: the table
    loses connections of widgets of [ws] only and keeps its order; entries
    are deleted, never changed, and those of other widgets stay. *)
Definition removes_within {World : Type} (ws : list widget_id) (s s' : @Sys World) : Prop :=
  connections s' `sublist_of` connections s /\
  (forall c, c ∈ connections s -> conn_widget c ∉ ws -> c ∈ connections s') /\
  (forall w, w ∉ ws -> _signal_handlers (self s') !! w = _signal_handlers (self s) !! w) /\
  (forall w, _signal_handlers (self s') !! w = None \/
             _signal_handlers (self s') !! w = _signal_handlers (self s) !! w) /\
  (tracked_live s -> tracked_live s').

(** A frame holding a paned with two groups; the first group holds a
    widget that is no container. *)
Definition leafy_tree : wtree :=
  Node 1 KDockFrame
    [Node 2 KDockPaned [Node 3 KDockGroup [Node 5 KWidget []]; Node 4 KDockGroup []]].

(** A frame, a paned in it, a group in the paned; the pointer is 5 from the
    paned's left edge. *)
Definition sample_frame : widget :=
  mkWidget 1 KDockFrame (mkRect 0 0 400 300) ORIENTATION_HORIZONTAL (200, 150) None.
Definition sample_paned : widget :=
  mkWidget 2 KDockPaned (mkRect 0 0 400 300) ORIENTATION_HORIZONTAL (5, 150)
           (Some sample_frame).
Definition sample_group : widget :=
  mkWidget 3 KDockGroup (mkRect 0 0 200 300) ORIENTATION_HORIZONTAL (5, 150)
           (Some sample_paned).

End docklayout_more.

(** * Properties of the DockGroup *)
Module dockgroup_props.

Import dockgroup.

Lemma getitem_in_range {A} (l : list A) (i : Z) :
  0 <= i < Z.of_nat (length l) ->
  exists a, l !! Z.to_nat i = Some a /\ getitem l (Some i) = Ok a.
Proof.
  intros Hi. unfold getitem.
  destruct (Z.ltb_spec i 0) as [Hneg|_]; [lia|].
  destruct (Z.leb_spec 0 i) as [_|Hneg]; [|lia].
  destruct (Z.ltb_spec i (Z.of_nat (length l))) as [_|Hbig]; [|lia].
  destruct (lookup_lt_is_Some_2 l (Z.to_nat i)) as [a Ha]; [lia|].
  exists a. simpl. rewrite Ha. auto.
Qed.

Lemma clamp_index_range (count n : Z) :
  0 < count -> 0 <= clamp_index count n < count.
Proof.
  unfold clamp_index. intros Hc.
  destruct (Z.ltb_spec n 0); [lia|].
  destruct (Z.leb_spec count n); lia.
Qed.

Lemma set_current_item_eq (n : Z) (g : DockGroup) :
  set_current_item n g = (Ok tt, call [queue_resize] (selected g n)).
Proof.
  unfold set_current_item, selected, bind, get, modify, lift.
  destruct (_tabs g) as [|r0 rest] eqn:Htabs; [reflexivity|].
  assert (Hlen : 0 < get_n_items g).
  { unfold get_n_items. rewrite Htabs. simpl. lia. }
  pose proof (clamp_index_range (get_n_items g) n Hlen) as Hrange.
  assert (Hclamp : (if n <? 0 then 0
                    else if n >? get_n_items g - 1 then get_n_items g - 1 else n)
                   = clamp_index (get_n_items g) n).
  { unfold clamp_index. destruct (n <? 0); [reflexivity|].
    rewrite Z.gtb_ltb.
    destruct (Z.ltb_spec (get_n_items g - 1) n), (Z.leb_spec (get_n_items g) n);
      try reflexivity; lia. }
  rewrite Hclamp. simpl.
  destruct (getitem_in_range (r0 :: rest) (clamp_index (get_n_items g) n))
    as (r & Hlook & Hget).
  { unfold get_n_items in *. rewrite Htabs in *. exact Hrange. }
  rewrite Hget, Hlook. reflexivity.
Qed.

(** C5: [set_current_item n] never raises and keeps the tabs; on a non-empty
    group it selects index 0 for a negative [n], the last index for [n] at
    or beyond the count and [n] itself otherwise, and the current item is
    the item of that tab; on an empty group the current index and the
    current item are [None]. *)
Theorem set_current_item_clamps (g : DockGroup) (n : Z) :
  let count := get_n_items g in
  let g' := (set_current_item n g).2 in
  (set_current_item n g).1 = Ok tt /\
  _tabs g' = _tabs g /\
  match _tabs g with
  | [] => _current_index g' = None /\ _current_item g' = None /\
          get_current_item g' = None
  | _ :: _ =>
      let i := if n <? 0 then 0 else if count <=? n then count - 1 else n in
      _current_index g' = Some i /\
      _current_item g' = tab_item g <$> (_tabs g !! Z.to_nat i) /\
      is_Some (_current_item g')
  end.
Proof.
  intros count g'. subst g'. rewrite set_current_item_eq. simpl.
  split; [reflexivity|].
  unfold selected. destruct (_tabs g) as [|r0 rest] eqn:Htabs; simpl.
  - rewrite Htabs. auto.
  - rewrite Htabs. split; [reflexivity|].
    fold (clamp_index count n). split; [reflexivity|]. split; [reflexivity|].
    assert (Hr : 0 <= clamp_index count n < count).
    { apply clamp_index_range. unfold count, get_n_items. rewrite Htabs. simpl. lia. }
    unfold count, get_n_items in Hr. rewrite Htabs in Hr.
    destruct (lookup_lt_is_Some_2 (r0 :: rest) (Z.to_nat (clamp_index count n)))
      as [r Hlook]; [unfold count, get_n_items; rewrite Htabs; lia|].
    fold count. rewrite Hlook. simpl. eauto.
Qed.

(** C9: [do_remove] with an argument that is no DockItem returns without
    raising and leaves the whole group as it was. *)
Theorem do_remove_ignores_other_objects (g : DockGroup) (o : pyobj) :
  isinstance_DockItem o = false ->
  do_remove o g = (Ok tt, g).
Proof.
  intros Hno. unfold do_remove. rewrite Hno. reflexivity.
Qed.

Lemma do_remove_ignores_other_objects_witness :
  isinstance_DockItem (TabObject 1%nat) = false /\
  do_remove (TabObject 1%nat) three_items = (Ok tt, three_items).
Proof.
  split; [reflexivity|].
  apply (do_remove_ignores_other_objects three_items (TabObject 1%nat)).
  reflexivity.
Defined.

Lemma selected_tabs (g : DockGroup) (n : Z) : _tabs (selected g n) = _tabs g.
Proof. unfold selected. destruct (_tabs g) eqn:E; simpl; congruence. Qed.

Lemma selected_gtk_calls (g : DockGroup) (n : Z) :
  gtk_calls (selected g n) = gtk_calls g.
Proof. unfold selected. destruct (_tabs g) eqn:E; reflexivity. Qed.

Lemma selected_empty (g : DockGroup) (n : Z) :
  _tabs g = [] -> selected g n = set_current None None g.
Proof. unfold selected. intros ->. reflexivity. Qed.

Lemma selected_nonempty (g : DockGroup) (n : Z) :
  _tabs g <> [] ->
  selected g n =
    set_current (Some (clamp_index (get_n_items g) n))
      (tab_item g <$> (_tabs g !! Z.to_nat (clamp_index (get_n_items g) n))) g.
Proof. unfold selected. destruct (_tabs g) eqn:E; [congruence|]. reflexivity. Qed.

(** [l.index(x)] finds the first occurrence, and [l.remove(x)] deletes it. *)
Lemma index_Some (l : list nat) (x i : nat) :
  index l x = Some i -> l !! i = Some x /\ remove l x = delete i l.
Proof.
  revert i. induction l as [|y l IH]; intros i; simpl; [discriminate|].
  destruct (decide (y = x)) as [->|Hne].
  - intros [= <-]. auto.
  - destruct (index l x) as [j|] eqn:Hj; simpl; [|discriminate].
    intros [= <-]. destruct (IH j eq_refl) as [Hl Hr].
    simpl. rewrite Hr. auto.
Qed.

Lemma index_elem (l : list nat) (x : nat) :
  x ∈ l -> is_Some (index l x).
Proof.
  induction l as [|y l IH]; [intros H; inversion H|].
  intros Hin. simpl. destruct (decide (y = x)); [eauto|].
  destruct IH as [j Hj].
  - apply elem_of_cons in Hin. destruct Hin; [congruence|assumption].
  - rewrite Hj. simpl. eauto.
Qed.

Lemma item_num_Some (g : DockGroup) (w : widget_id) (i : Z) :
  item_num g (DockItem w) = Some i ->
  0 <= i < get_n_items g /\
  exists r, index (_tabs g) r = Some (Z.to_nat i) /\
            _tabs g !! Z.to_nat i = Some r /\ tab_item g r = w.
Proof.
  unfold item_num. destruct (List.find _ _) as [r|] eqn:Hfind; [|discriminate].
  apply List.find_some in Hfind. destruct Hfind as [_ Hmatch].
  simpl in Hmatch. apply bool_decide_eq_true in Hmatch.
  destruct (index (_tabs g) r) as [j|] eqn:Hj; simpl; [|discriminate].
  intros [= <-]. rewrite Nat2Z.id.
  destruct (index_Some _ _ _ Hj) as [Hlook _].
  split.
  - apply lookup_lt_Some in Hlook. unfold get_n_items. lia.
  - exists r. auto.
Qed.

(** [do_remove] on the item of a tab, in one equation. *)
Lemma do_remove_item_eq (g : DockGroup) (w : widget_id) (i : Z) (r : tabref) :
  item_num g (DockItem w) = Some i ->
  index (_tabs g) r = Some (Z.to_nat i) ->
  tab_item g r = w ->
  0 <= i ->
  do_remove (DockItem w) g =
    set_current_item
      (if int_lt_opt i (_current_index g)
       then match _current_index g with Some c => c - 1 | None => i end
       else i)
      (set_tabs (delete (Z.to_nat i) (_tabs g))
         (call (teardown w r)
            (if contains (_visible_tabs g) r
             then set_visible_tabs (remove (_visible_tabs g) r) g
             else g))).
Proof.
  intros Hnum Hidx Hitem Hi.
  destruct (index_Some _ _ _ Hidx) as [Hlook Hrem].
  unfold do_remove. simpl. unfold bind at 1. unfold get at 1.
  destruct (_tabs g) as [|r0 rest] eqn:Htabs; [discriminate|].
  rewrite Hnum.
  destruct (getitem_in_range (r0 :: rest) i) as (r' & Hlook' & Hget).
  { apply lookup_lt_Some in Hlook. lia. }
  assert (r' = r) as -> by congruence.
  unfold bind, lift. rewrite Hget.
  unfold tab_item in Hitem. rewrite Hitem.
  destruct (contains (_visible_tabs g) r); simpl;
    rewrite ?Htabs, Hrem; reflexivity.
Qed.

(** C1, as amended: [do_remove] with the DockItem of the tab at index [i]
    (what the close button of that tab calls) returns without raising,
    deletes that tab, unparents and destroys the item, the image, the
    label, the button and the menu item, and asks for a resize; a group
    left empty has no current index and no current item; otherwise the
    current index becomes [c - 1] when [i < c] and [min i (count' - 1)]
    when [i >= c], and the current item is the item of that tab. *)
Theorem do_remove_reselects (g : DockGroup) (w : widget_id) (i c : Z) :
  item_num g (DockItem w) = Some i ->
  _current_index g = Some c ->
  0 <= c < get_n_items g ->
  let g' := (do_remove (DockItem w) g).2 in
  let count' := get_n_items g - 1 in
  (do_remove (DockItem w) g).1 = Ok tt /\
  0 <= i < get_n_items g /\
  _tabs g' = delete (Z.to_nat i) (_tabs g) /\
  get_n_items g' = count' /\
  (exists r, _tabs g !! Z.to_nat i = Some r /\ tab_item g r = w /\
             gtk_calls g' = gtk_calls g ++ teardown w r ++ [queue_resize]) /\
  (if count' =? 0
   then _tabs g' = [] /\ _current_index g' = None /\ _current_item g' = None /\
        get_current_item g' = None
   else let j := if i <? c then c - 1 else Z.min i (count' - 1) in
        _current_index g' = Some j /\
        _current_item g' = tab_item g <$> (_tabs g' !! Z.to_nat j) /\
        get_current_item g' = Some j).
Proof.
  intros Hnum Hcur Hc g' count'.
  destruct (item_num_Some _ _ _ Hnum) as (Hi & r & Hidx & Hlook & Hitem).
  subst g'. rewrite (do_remove_item_eq g w i r Hnum Hidx Hitem) by lia.
  rewrite set_current_item_eq, Hcur. cbn [int_lt_opt fst snd].
  set (idx := if i <? c then c - 1 else i).
  set (g1 := set_tabs _ _).
  assert (Htabs1 : _tabs g1 = delete (Z.to_nat i) (_tabs g)) by reflexivity.
  assert (Hstore1 : tab_store g1 = tab_store g).
  { unfold g1. destruct (contains _ _); reflexivity. }
  assert (Hcalls1 : gtk_calls g1 = gtk_calls g ++ teardown w r).
  { unfold g1. destruct (contains _ _); reflexivity. }
  assert (Hlen1 : get_n_items g1 = count').
  { unfold get_n_items, count'. rewrite Htabs1, length_delete by eauto.
    unfold get_n_items in *. lia. }
  split; [reflexivity|]. split; [exact Hi|].
  split; [change (_tabs (selected g1 idx) = delete (Z.to_nat i) (_tabs g));
          rewrite selected_tabs; exact Htabs1|].
  split; [change (get_n_items (selected g1 idx) = count');
          unfold get_n_items in *; rewrite selected_tabs; exact Hlen1|].
  split.
  { exists r. split; [exact Hlook|]. split; [exact Hitem|].
    change (gtk_calls (selected g1 idx) ++ [queue_resize]
            = gtk_calls g ++ teardown w r ++ [queue_resize]).
    rewrite selected_gtk_calls, Hcalls1, <- app_assoc. reflexivity. }
  change (get_current_item (call [queue_resize] (selected g1 idx)))
    with (get_current_item (selected g1 idx)).
  change (_tabs (call [queue_resize] (selected g1 idx)))
    with (_tabs (selected g1 idx)).
  change (_current_index (call [queue_resize] (selected g1 idx)))
    with (_current_index (selected g1 idx)).
  change (_current_item (call [queue_resize] (selected g1 idx)))
    with (_current_item (selected g1 idx)).
  rewrite selected_tabs.
  destruct (Z.eqb_spec count' 0) as [Hzero|Hnz].
  - assert (Hnil : _tabs g1 = []).
    { apply length_zero_iff_nil. unfold get_n_items in Hlen1. lia. }
    rewrite (selected_empty g1 idx Hnil). auto.
  - assert (Hcons : _tabs g1 <> []).
    { intros Hnil. unfold get_n_items in Hlen1. rewrite Hnil in Hlen1. simpl in Hlen1. lia. }
    rewrite (selected_nonempty g1 idx Hcons), Hlen1.
    assert (Hpos : 0 < count').
    { unfold count', get_n_items in *. destruct (_tabs g1); [congruence|].
      simpl in Hlen1. lia. }
    assert (Hj : clamp_index count' idx
                 = (if i <? c then c - 1 else Z.min i (count' - 1))).
    { unfold clamp_index, idx, count' in *.
      destruct (Z.ltb_spec i c).
      - destruct (Z.ltb_spec (c - 1) 0); [lia|].
        destruct (Z.leb_spec (get_n_items g - 1) (c - 1)); lia.
      - destruct (Z.ltb_spec i 0); [lia|].
        destruct (Z.leb_spec (get_n_items g - 1) i); lia. }
    rewrite Hj. cbn [_current_index _current_item set_current get_current_item].
    assert (Hitems : tab_item g1 = tab_item g).
    { unfold tab_item. rewrite Hstore1. reflexivity. }
    rewrite Hitems.
    split; [reflexivity|]. split; [reflexivity|].
    destruct (lookup_lt_is_Some_2 (_tabs g1)
                (Z.to_nat (if i <? c then c - 1 else Z.min i (count' - 1))))
      as [r2 Hr2].
    { unfold get_n_items in Hlen1. destruct (Z.ltb_spec i c); lia. }
    rewrite Hr2. reflexivity.
Qed.

Lemma do_remove_reselects_witness :
  item_num three_items_middle (DockItem 11%nat) = Some 1 /\
  _current_index three_items_middle = Some 1 /\
  0 <= 1 < get_n_items three_items_middle /\
  _current_index (do_remove (DockItem 11%nat) three_items_middle).2 = Some 1 /\
  _current_item (do_remove (DockItem 11%nat) three_items_middle).2 = Some 12%nat.
Proof.
  assert (Hnum : item_num three_items_middle (DockItem 11%nat) = Some 1) by reflexivity.
  assert (Hcur : _current_index three_items_middle = Some 1) by reflexivity.
  assert (Hr : 0 <= 1 < get_n_items three_items_middle) by (vm_compute; split; congruence).
  split; [exact Hnum|]. split; [exact Hcur|]. split; [exact Hr|].
  pose proof (do_remove_reselects three_items_middle 11%nat 1 1 Hnum Hcur Hr) as H.
  cbv zeta in H. destruct H as (_ & _ & _ & _ & _ & H).
  change (get_n_items three_items_middle - 1 =? 0) with false in H.
  destruct H as (Hidx & _ & _). split; [exact Hidx|reflexivity].
Defined.

(** [remove_item] hands a [_DockGroupTab] to the container's [remove], which
    takes widgets only: the call raises and the group stays as it was. *)
Lemma remove_item_raises (n : Z) (g : DockGroup) :
  (remove_item n g).2 = g /\ raised (remove_item n g).1 = true.
Proof.
  unfold remove_item, bind, get, lift.
  destruct (getitem (_tabs g) (Some n)); simpl; auto.
Qed.

(** C1 as stated fails: [remove_item 2] on three tabs keeps all three, and
    [do_remove] with the item of tab 2 while tab 0 is current moves the
    selection to index 1 instead of keeping index 0. *)
Lemma remove_item_counterexample :
  ~ removal_spec (remove_item 2) three_items 2 /\
  ~ removal_spec (do_remove (DockItem 12%nat)) three_items 2.
Proof.
  split; intros [Htabs Hsel].
  - vm_compute in Htabs. discriminate Htabs.
  - specialize (Hsel 0 eq_refl). vm_compute in Hsel. discriminate Hsel.
Qed.

Lemma selected_ok (g : DockGroup) (n : Z) : selection_ok (selected g n).
Proof.
  destruct (_tabs g) as [|r0 rest] eqn:Htabs.
  - rewrite selected_empty by assumption. unfold selection_ok. simpl. auto.
  - rewrite selected_nonempty by congruence.
    assert (Hr : 0 <= clamp_index (get_n_items g) n < get_n_items g).
    { apply clamp_index_range. unfold get_n_items. rewrite Htabs. simpl. lia. }
    unfold selection_ok. simpl. split; [exact Hr|].
    destruct (lookup_lt_is_Some_2 (_tabs g) (Z.to_nat (clamp_index (get_n_items g) n)))
      as [r Hlook]; [unfold get_n_items in *; lia|].
    exists r. rewrite Hlook. auto.
Qed.

Lemma same_selection_refl (g : DockGroup) : same_selection g g.
Proof. repeat split. Qed.

Lemma same_selection_trans (g1 g2 g3 : DockGroup) :
  same_selection g1 g2 -> same_selection g2 g3 -> same_selection g1 g3.
Proof.
  intros (A1 & A2 & A3 & A4) (B1 & B2 & B3 & B4).
  split; [congruence|]. split; [congruence|]. split; [congruence|].
  intros r. rewrite B4. apply A4.
Qed.

Lemma selection_ok_same (g g' : DockGroup) :
  same_selection g g' -> selection_ok g -> selection_ok g'.
Proof.
  intros (Ht & Hi & Hw & Hs). unfold selection_ok, get_n_items.
  rewrite Ht, Hi, Hw. destruct (_current_index g); [|auto].
  intros [Hr (r & Hl & Hc)]. split; [exact Hr|]. exists r. rewrite Hs. auto.
Qed.

Lemma selection_ok_resized (g : DockGroup) (n : Z) :
  selection_ok (set_current_item n g).2.
Proof.
  rewrite set_current_item_eq. simpl.
  apply (selection_ok_same (selected g n)); [repeat split|apply selected_ok].
Qed.

(** Size negotiation writes tab areas only. *)
Lemma upd_area_same (g : DockGroup) (r : tabref) (f : Rectangle -> Rectangle) :
  same_selection g (upd_tab r (with_area f) g).
Proof.
  split; [reflexivity|]. split; [reflexivity|]. split; [reflexivity|].
  intros r'. unfold tab_item, upd_tab, store_upd. simpl.
  destruct (decide (r' = r)); reflexivity.
Qed.

Lemma request_tabs_same (tk : Toolkit) (cur : option Z) (ts : list tabref) :
  forall index dw dh g, same_selection g (request_tabs tk cur index ts dw dh g).2.
Proof.
  induction ts as [|tab rest IH]; intros index dw dh g; simpl.
  - apply same_selection_refl.
  - eapply same_selection_trans; [|apply IH]. apply upd_area_same.
Qed.

Lemma place_tabs_same (vis : list tabref) :
  forall cx cy g, same_selection g (place_tabs vis cx cy g).
Proof.
  induction vis as [|tab rest IH]; intros cx cy g; simpl.
  - apply same_selection_refl.
  - eapply same_selection_trans; [|apply IH]. apply upd_area_same.
Qed.

Lemma do_size_request_same (tk : Toolkit) (g : DockGroup) :
  same_selection g (do_size_request tk g).2.
Proof.
  unfold do_size_request, bind, get, modify, ret.
  pose proof (request_tabs_same tk (_current_index g) (_tabs g) 0 0 0 g) as H.
  destruct (request_tabs tk (_current_index g) 0 (_tabs g) 0 0 g) as [[dw dh] g1].
  simpl in *. destruct (match _current_item g with Some w => _ | None => _ end).
  simpl. eapply same_selection_trans; [exact H|]. repeat split.
Qed.

Lemma tabs_before_current_state (g s : DockGroup) :
  (tabs_before_current g s).2 = s.
Proof.
  unfold tabs_before_current, bind, lift, ret.
  destruct (_visible_tabs g); [reflexivity|].
  destruct (getitem _ _); [|reflexivity].
  destruct (index _ _); reflexivity.
Qed.

Lemma admit_tabs_same (tk : Toolkit) (a : Rectangle) (g : DockGroup) :
  same_selection g (admit_tabs tk a g).2.
Proof.
  unfold admit_tabs. unfold bind at 1. unfold get at 1. unfold bind at 1.
  pose proof (tabs_before_current_state g g) as Hs.
  destruct (tabs_before_current g g) as [[m|e] s]; simpl in Hs; subst s;
    [|apply same_selection_refl].
  unfold bind, modify, lift.
  destruct (getitem _ _); repeat split.
Qed.

Lemma widen_lone_tab_same (tk : Toolkit) (a : Rectangle) (g : DockGroup) :
  same_selection g (widen_lone_tab tk a g).2.
Proof.
  unfold widen_lone_tab, bind, get, modify, ret, lift.
  destruct (bool_decide _); [|apply same_selection_refl].
  destruct (getitem _ _) as [tab|e]; simpl; [|apply same_selection_refl].
  destruct (_ <=? _); simpl; [apply upd_area_same|apply same_selection_refl].
Qed.

Lemma do_size_allocate_same (tk : Toolkit) (a : Rectangle) (g : DockGroup) :
  same_selection g (do_size_allocate tk a g).2.
Proof.
  unfold do_size_allocate.
  unfold bind at 1. unfold modify at 1. unfold bind at 1. unfold get at 1.
  set (g0 := set_allocation a g).
  assert (H0 : same_selection g g0) by (repeat split).
  assert (Hbody : forall m : M DockGroup unit,
            same_selection g0 (m g0).2 ->
            same_selection g
              (bind m (fun _ => modify (fun g => place_tabs (_visible_tabs g) 0 0 g)) g0).2).
  { intros m Hm. unfold bind, modify. destruct (m g0) as [[[]|e] g1]; simpl in *.
    - eapply same_selection_trans; [exact H0|].
      eapply same_selection_trans; [exact Hm|]. apply place_tabs_same.
    - eapply same_selection_trans; [exact H0|exact Hm]. }
  change (_tabs g0) with (_tabs g).
  destruct (_tabs g) as [|r0 rest] eqn:Htabs; apply Hbody.
  - apply same_selection_refl.
  - unfold bind. pose proof (admit_tabs_same tk a g0) as H1.
    destruct (admit_tabs tk a g0) as [[[]|e] g1]; simpl in *; [|exact H1].
    eapply same_selection_trans; [exact H1|]. apply widen_lone_tab_same.
Qed.

Lemma item_num_is_Some (g : DockGroup) (w : widget_id) (r : tabref) :
  r ∈ _tabs g -> tab_item g r = w -> is_Some (item_num g (DockItem w)).
Proof.
  intros Hin Hitem. unfold item_num.
  destruct (List.find _ _) as [r'|] eqn:Hfind.
  - apply List.find_some in Hfind. destruct Hfind as [Hin' _].
    apply list_elem_of_In in Hin'.
    destruct (index_elem _ _ Hin') as [j Hj]. rewrite Hj. simpl. eauto.
  - exfalso. apply list_elem_of_In in Hin.
    pose proof (List.find_none _ _ Hfind r Hin) as Hno.
    simpl in Hno. apply bool_decide_eq_false in Hno. auto.
Qed.

Lemma do_add_settles (o : pyobj) (g : DockGroup) : settles g (do_add o g).2.
Proof.
  destruct o as [w|w|r|]; try (left; reflexivity).
  unfold do_add, bind, get, modify. simpl.
  set (g3 := set_tabs _ _).
  destruct (item_num_is_Some g3 w (next_tab g)) as [n Hn].
  - unfold g3. simpl. apply elem_of_app. right. apply list_elem_of_singleton. reflexivity.
  - unfold g3, tab_item, store_upd. simpl. destruct (decide _); [reflexivity|congruence].
  - rewrite Hn. right. exists g3, n. reflexivity.
Qed.

Lemma do_remove_settles (o : pyobj) (g : DockGroup) : settles g (do_remove o g).2.
Proof.
  destruct o as [w|w|r|]; try (left; reflexivity).
  destruct (item_num g (DockItem w)) as [i|] eqn:Hnum.
  - destruct (item_num_Some _ _ _ Hnum) as (Hi & r & Hidx & Hlook & Hitem).
    rewrite (do_remove_item_eq g w i r Hnum Hidx Hitem) by lia.
    right. eauto.
  - left. unfold do_remove. simpl. unfold bind at 1. unfold get at 1.
    destruct (_tabs g); [reflexivity|]. rewrite Hnum. reflexivity.
Qed.

Lemma settles_ok (g g' : DockGroup) :
  settles g g' -> selection_ok g -> selection_ok g'.
Proof.
  intros [->|(g1 & n & ->)] Hok; [exact Hok|apply selection_ok_resized].
Qed.

Lemma step_ok (g g' : DockGroup) : step g g' -> selection_ok g -> selection_ok g'.
Proof.
  intros Hstep Hok. destruct Hstep as [e o g|n g|n g|o g|tk g|tk a g].
  - unfold append_item, container_add.
    destruct (isinstance_Widget o); [|exact Hok].
    unfold bind, get. destruct (e || holds g o); [exact Hok|].
    exact (settles_ok _ _ (do_add_settles o g) Hok).
  - rewrite (proj1 (remove_item_raises n g)). exact Hok.
  - apply selection_ok_resized.
  - unfold container_remove.
    destruct (isinstance_Widget o); [|exact Hok].
    unfold bind, get. destruct (holds g o); [|exact Hok].
    exact (settles_ok _ _ (do_remove_settles o g) Hok).
  - exact (selection_ok_same _ _ (do_size_request_same tk g) Hok).
  - exact (selection_ok_same _ _ (do_size_allocate_same tk a g) Hok).
Qed.

Lemma reachable_ok (g : DockGroup) : reachable g -> selection_ok g.
Proof.
  induction 1 as [|g g' _ IH Hstep].
  - unfold selection_ok. simpl. auto.
  - exact (step_ok g g' Hstep IH).
Qed.

(** C2: in every state reached from a new group by [append_item],
    [remove_item], [set_current_item], the container's [remove] and the
    size passes, the current index is [None] exactly when there are no
    tabs; otherwise it is an index into the tabs, and the current item is
    the item of the tab at that index. *)
Theorem selection_invariant (g : DockGroup) :
  reachable g ->
  (_current_index g = None <-> _tabs g = []) /\
  (forall c, _current_index g = Some c ->
     0 <= c < get_n_items g /\
     exists r, _tabs g !! Z.to_nat c = Some r /\
               _current_item g = Some (tab_item g r)).
Proof.
  intros Hreach. apply reachable_ok in Hreach. unfold selection_ok in Hreach.
  destruct (_current_index g) as [c|] eqn:Hcur.
  - destruct Hreach as [Hr Hitem]. split.
    + split; [discriminate|]. intros Hnil. unfold get_n_items in Hr.
      rewrite Hnil in Hr. simpl in Hr. lia.
    + intros c' [= <-]. auto.
  - destruct Hreach as [Hnil _]. split; [tauto|]. discriminate.
Qed.

Lemma three_items_reachable : reachable three_items.
Proof.
  unfold three_items.
  eapply reachable_step; [|apply step_set_current_item].
  eapply reachable_step; [|apply step_append_item].
  eapply reachable_step; [|apply step_append_item].
  eapply reachable_step; [|apply step_append_item].
  apply reachable_init.
Defined.

Lemma selection_invariant_witness :
  reachable three_items /\
  (_current_index three_items = None <-> _tabs three_items = []).
Proof.
  split; [exact three_items_reachable|].
  exact (proj1 (selection_invariant three_items three_items_reachable)).
Defined.

(** *** The layout pass *)

(** Each loop admits a prefix of the list it walks. *)
Lemma admit_left_prefix (g : DockGroup) (m : Z) (ts : list tabref) :
  forall count avail vis,
  exists k avail',
    (k <= length ts)%nat /\
    admit_left g m ts count avail vis
      = (count + Z.of_nat k, avail', rev (take k ts) ++ vis).
Proof.
  induction ts as [|tab rest IH]; intros count avail vis; simpl.
  - exists 0%nat, avail. split; [lia|]. f_equal. f_equal. lia.
  - destruct (0 <=? avail - tab_width g tab);
      [|exists 0%nat, avail; split; [lia|]; f_equal; f_equal; lia].
    destruct (count <? m);
      [|exists 0%nat, avail; split; [lia|]; f_equal; f_equal; lia].
    destruct (IH (count + 1) (avail - tab_width g tab) (tab :: vis))
      as (k & avail' & Hk & Heq).
    exists (S k), avail'. split; [lia|]. rewrite Heq. simpl.
    rewrite <- app_assoc. simpl. f_equal. f_equal. lia.
Qed.

Lemma admit_right_prefix (g : DockGroup) (ts : list tabref) :
  forall avail vis,
  exists k, (admit_right g ts avail vis).2 = vis ++ take k ts.
Proof.
  induction ts as [|tab rest IH]; intros avail vis; simpl.
  - exists 0%nat. simpl. rewrite app_nil_r. reflexivity.
  - destruct (0 <=? avail - tab_width g tab).
    + destruct (IH (avail - tab_width g tab) (vis ++ [tab])) as [k Hk].
      exists (S k). rewrite Hk, <- app_assoc. reflexivity.
    + exists 0%nat. simpl. rewrite app_nil_r. reflexivity.
Qed.

Lemma admit_extra_prefix (g : DockGroup) (ts : list tabref) :
  forall avail vis,
  exists k, (admit_extra g ts avail vis).2 = rev (take k ts) ++ vis.
Proof.
  induction ts as [|tab rest IH]; intros avail vis; simpl.
  - exists 0%nat. reflexivity.
  - destruct (0 <=? avail - tab_width g tab).
    + destruct (IH (avail - tab_width g tab) (tab :: vis)) as [k Hk].
      exists (S k). rewrite Hk. simpl. rewrite <- app_assoc. reflexivity.
    + exists 0%nat. reflexivity.
Qed.

(** The tabs a loop takes from the reversed left part are its last ones. *)
Lemma rev_take_rev (l : list tabref) (k : nat) :
  rev (take k (rev l)) = drop (length l - k) l.
Proof. rewrite List.firstn_rev, List.rev_involutive. reflexivity. Qed.

Lemma slice_to_in_range (l : list tabref) (k : Z) :
  0 <= k <= Z.of_nat (length l) -> slice_to l k = take (Z.to_nat k) l.
Proof.
  intros Hk. unfold slice_to, slice_bound.
  destruct (Z.ltb_spec k 0); [lia|]. f_equal. lia.
Qed.

Lemma slice_from_in_range (l : list tabref) (k : Z) :
  0 <= k <= Z.of_nat (length l) -> slice_from l k = drop (Z.to_nat k) l.
Proof.
  intros Hk. unfold slice_from, slice_bound.
  destruct (Z.ltb_spec k 0); [lia|]. f_equal. lia.
Qed.

(** The admitted tabs are one stretch of the tab sequence around the
    current tab. *)
Lemma admitted_segment (g : DockGroup) (strip m : Z) (cur : tabref) (c : Z) :
  0 <= c ->
  _tabs g !! Z.to_nat c = Some cur ->
  exists before left right after,
    _tabs g = before ++ (left ++ cur :: right) ++ after /\
    admitted g strip m cur c = left ++ cur :: right.
Proof.
  intros Hc Hlook.
  pose proof (lookup_lt_Some _ _ _ Hlook) as Hlt.
  unfold admitted.
  rewrite (slice_to_in_range (_tabs g) c) by lia.
  rewrite (slice_from_in_range (_tabs g) (c + 1)) by lia.
  set (pre := take (Z.to_nat c) (_tabs g)).
  assert (Hpre : length pre = Z.to_nat c) by (unfold pre; rewrite length_take; lia).
  destruct (admit_left_prefix g m (rev pre) 0 (strip - tab_width g cur) [])
    as (k & avail1 & Hk & Heq1).
  rewrite Heq1. rewrite length_rev in Hk.
  rewrite rev_take_rev, app_nil_r.
  destruct (admit_right_prefix g (drop (Z.to_nat (c + 1)) (_tabs g)) avail1
              (drop (length pre - k) pre ++ [cur])) as [j Hj].
  destruct (admit_right g _ avail1 _) as [avail2 vis2]. simpl in Hj. subst vis2.
  rewrite (slice_to_in_range (_tabs g) (c - (0 + Z.of_nat k))) by lia.
  set (pre' := take (Z.to_nat (c - (0 + Z.of_nat k))) (_tabs g)).
  destruct (admit_extra_prefix g (rev pre') avail2
              ((drop (length pre - k) pre ++ [cur])
                 ++ take j (drop (Z.to_nat (c + 1)) (_tabs g)))) as [e He].
  destruct (admit_extra g _ avail2 _) as [avail3 vis3]. simpl in He. subst vis3.
  rewrite rev_take_rev.
  assert (Hpre' : pre' = take (length pre - k) pre).
  { unfold pre'. rewrite Hpre. unfold pre. rewrite take_take. f_equal. lia. }
  exists (take (length pre' - e) pre'),
         (drop (length pre' - e) pre' ++ drop (length pre - k) pre),
         (take j (drop (Z.to_nat (c + 1)) (_tabs g))),
         (drop j (drop (Z.to_nat (c + 1)) (_tabs g))).
  split.
  - rewrite <- (take_drop_middle (_tabs g) (Z.to_nat c) cur Hlook) at 1.
    fold pre. replace (S (Z.to_nat c)) with (Z.to_nat (c + 1)) by lia.
    rewrite <- (take_drop j (drop (Z.to_nat (c + 1)) (_tabs g))) at 1.
    rewrite <- (take_drop (length pre - k) pre) at 1.
    rewrite <- Hpre'.
    rewrite <- (take_drop (length pre' - e) pre') at 1.
    rewrite <- !app_assoc. reflexivity.
  - rewrite <- !app_assoc. reflexivity.
Qed.

Lemma place_tabs_lists (vis : list tabref) :
  forall cx cy g,
    _tabs (place_tabs vis cx cy g) = _tabs g /\
    _visible_tabs (place_tabs vis cx cy g) = _visible_tabs g /\
    forall r, tab_width (place_tabs vis cx cy g) r = tab_width g r.
Proof.
  induction vis as [|tab rest IH]; intros cx cy g; simpl; [auto|].
  destruct (IH (cx + tab_width (upd_tab tab (with_area (with_xy cx cy)) g) tab) cy
               (upd_tab tab (with_area (with_xy cx cy)) g)) as (H1 & H2 & H3).
  rewrite H1, H2. split; [reflexivity|]. split; [reflexivity|].
  intros r. rewrite H3. unfold tab_width, upd_tab, store_upd. simpl.
  destruct (decide (r = tab)); reflexivity.
Qed.

(** The layout pass on a group with a valid selection, in one equation. *)
Lemma do_size_allocate_eq (tk : Toolkit) (a : Rectangle) (g : DockGroup)
    (c : Z) (cur : tabref) :
  _current_index g = Some c ->
  0 <= c ->
  _tabs g !! Z.to_nat c = Some cur ->
  exists m,
    let g1 := set_visible_tabs
                (admitted (set_allocation a g) (strip_width tk a) m cur c)
                (set_allocation a g) in
    let g2 := if bool_decide (length (_visible_tabs g1) = 1%nat)
              then if strip_width tk a <=? normal_width tk cur
                   then upd_tab cur (with_area (with_width (strip_width tk a))) g1
                   else g1
              else g1 in
    (admit_tabs tk a (set_allocation a g)) = (Ok tt, g1) /\
    do_size_allocate tk a g = (Ok tt, place_tabs (_visible_tabs g2) 0 0 g2).
Proof.
  intros Hcur Hc Hlook.
  pose proof (lookup_lt_Some _ _ _ Hlook) as Hlt.
  destruct (getitem_in_range (_tabs g) c) as (cur' & Hlook' & Hget); [lia|].
  assert (cur' = cur) as -> by congruence.
  set (g0 := set_allocation a g).
  assert (Hm : exists m, tabs_before_current g0 g0 = (Ok m, g0)).
  { unfold tabs_before_current, bind, lift, ret.
    change (_tabs g0) with (_tabs g). change (_current_index g0) with (_current_index g).
    destruct (_visible_tabs g0); [eauto|].
    rewrite Hcur, Hget. destruct (index _ _); eauto. }
  destruct Hm as [m Hm]. exists m. intros g1 g2.
  assert (Hadmit : admit_tabs tk a g0 = (Ok tt, g1)).
  { unfold admit_tabs. unfold bind at 1. unfold get at 1. unfold bind at 1.
    rewrite Hm. unfold bind, modify, lift.
    change (_tabs g0) with (_tabs g). change (_current_index g0) with (_current_index g).
    rewrite Hcur, Hget. reflexivity. }
  split; [exact Hadmit|].
  unfold do_size_allocate.
  unfold bind at 1. unfold modify at 1. unfold bind at 1. unfold get at 1.
  fold g0. change (_tabs g0) with (_tabs g).
  destruct (_tabs g) as [|r0 rest] eqn:Htabs; [rewrite lookup_nil in Hlook; discriminate|].
  assert (Hwiden : widen_lone_tab tk a g1 = (Ok tt, g2)).
  { unfold widen_lone_tab. unfold bind at 1. unfold get at 1.
    change (_tabs g1) with (_tabs g). change (_current_index g1) with (_current_index g).
    rewrite Htabs, Hcur. unfold g2.
    destruct (bool_decide (length (_visible_tabs g1) = 1%nat)); [|reflexivity].
    unfold bind, lift. rewrite Hget.
    destruct (strip_width tk a <=? normal_width tk cur); reflexivity. }
  unfold bind. rewrite Hadmit, Hwiden. reflexivity.
Qed.

(** The visible tabs after a layout pass on a group with a valid selection:
    one stretch of the tabs that holds the current tab. *)
Lemma visible_segment (tk : Toolkit) (a : Rectangle) (g : DockGroup)
    (c : Z) (cur : tabref) :
  _current_index g = Some c ->
  0 <= c ->
  _tabs g !! Z.to_nat c = Some cur ->
  let g' := (do_size_allocate tk a g).2 in
  (do_size_allocate tk a g).1 = Ok tt /\
  _tabs g' = _tabs g /\
  exists before left right after,
    _tabs g = before ++ (left ++ cur :: right) ++ after /\
    _visible_tabs g' = left ++ cur :: right.
Proof.
  intros Hcur Hc Hlook g'.
  destruct (do_size_allocate_eq tk a g c cur Hcur Hc Hlook) as (m & _ & Heq).
  subst g'. rewrite Heq. cbn [fst snd].
  set (g1 := set_visible_tabs _ _) in *.
  set (g2 := if bool_decide _ then _ else _) in *.
  assert (H2 : _tabs g2 = _tabs g /\ _visible_tabs g2 = _visible_tabs g1).
  { unfold g2. destruct (bool_decide _); [|auto].
    destruct (_ <=? _); auto. }
  destruct H2 as [Ht2 Hv2].
  destruct (place_tabs_lists (_visible_tabs g2) 0 0 g2) as (Ht & Hv & _).
  rewrite Ht, Hv, Ht2, Hv2.
  split; [reflexivity|]. split; [reflexivity|].
  exact (admitted_segment (set_allocation a g) (strip_width tk a) m cur c Hc Hlook).
Qed.

(** The current tab of a group with tabs and a valid selection. *)
Lemma selection_current (g : DockGroup) :
  selection_ok g -> _tabs g <> [] ->
  exists c cur, _current_index g = Some c /\ 0 <= c /\
                _tabs g !! Z.to_nat c = Some cur /\
                getitem (_tabs g) (_current_index g) = Ok cur.
Proof.
  intros Hreach Hne. unfold selection_ok in Hreach.
  destruct (_current_index g) as [c|]; [|tauto].
  destruct Hreach as [Hr (cur & Hlook & _)].
  exists c, cur. split; [reflexivity|]. split; [lia|]. split; [exact Hlook|].
  destruct (getitem_in_range (_tabs g) c Hr) as (cur' & Hlook' & Hget).
  congruence.
Qed.

(** C4: after a layout pass on a group with tabs whose selection is valid
    (the selection invariant: it holds in every state the group gets to,
    whatever the state of its tabs, hovered ones included), the pass has not
    raised, the visible tabs are a subsequence of the tabs in the tabs'
    order (one contiguous stretch of them), and the current tab is among
    them. *)
Theorem visible_tabs_after_layout (tk : Toolkit) (a : Rectangle) (g : DockGroup) :
  selection_ok g ->
  _tabs g <> [] ->
  let g' := (do_size_allocate tk a g).2 in
  (do_size_allocate tk a g).1 = Ok tt /\
  _visible_tabs g' `sublist_of` _tabs g' /\
  (exists before after, _tabs g' = before ++ _visible_tabs g' ++ after) /\
  exists cur, getitem (_tabs g') (_current_index g') = Ok cur /\
              cur ∈ _visible_tabs g'.
Proof.
  intros Hreach Hne g'.
  destruct (selection_current g Hreach Hne) as (c & cur & Hcur & Hc & Hlook & Hget).
  destruct (visible_segment tk a g c cur Hcur Hc Hlook)
    as (Hok & Htabs & before & left & right & after & Hsplit & Hvis).
  destruct (do_size_allocate_same tk a g) as (_ & Hidx & _).
  fold g' in Hok, Htabs, Hvis, Hidx.
  rewrite Htabs, Hvis, Hidx. split; [exact Hok|]. split; [|split].
  - rewrite Hsplit. apply sublist_inserts_l, sublist_inserts_r. reflexivity.
  - exists before, after. exact Hsplit.
  - exists cur. split; [exact Hget|].
    apply elem_of_app. right. apply elem_of_cons. auto.
Qed.

Lemma visible_tabs_after_layout_witness :
  selection_ok three_items /\ _tabs three_items <> [] /\
  _visible_tabs (do_size_allocate tk16 (mkRect 0 0 300 200) three_items).2
    `sublist_of` _tabs (do_size_allocate tk16 (mkRect 0 0 300 200) three_items).2.
Proof.
  assert (Hok : selection_ok three_items).
  { split; [vm_compute; split; [discriminate|reflexivity]|].
    exists 0%nat. split; reflexivity. }
  assert (Hne : _tabs three_items <> []) by (vm_compute; discriminate).
  split; [exact Hok|]. split; [exact Hne|].
  exact (proj1 (proj2 (visible_tabs_after_layout tk16 (mkRect 0 0 300 200) three_items
                         Hok Hne))).
Defined.



Lemma one_item_requested_reachable : reachable one_item_requested.
Proof.
  unfold one_item_requested, one_item.
  eapply reachable_step; [|apply step_size_request].
  eapply reachable_step; [|apply step_append_item].
  apply reachable_init.
Defined.


End dockgroup_props.

(** * Properties of the DockLayout coordinator *)
Module docklayout_props.

Import dockgroup docklayout.

Section props.

Context {World : Type} (ext : @Externals World).

(** [magic_borders] gives an answer or [None]; it neither raises nor acts
    on the world. *)
Lemma magic_borders_pure (parent : widget) (context : DragContext) (px py : Z)
    (t : timestamp) (w : World) :
  exists handled, magic_borders parent context px py t w = (Ok handled, w).
Proof.
  unfold magic_borders, dock_paned_magic_borders, dock_frame_magic_borders.
  destruct (wkind parent); try (eexists; reflexivity).
  destruct (_ <? _); [eexists; reflexivity|].
  destruct (_ <? _); eexists; reflexivity.
Qed.

(** C6: [drag_motion] runs the DockGroup and the DockPaned body under
    [with_magic_borders]; a handler under [with_magic_borders] is its own
    body when the widget has no parent; with a parent, [magic_borders] is
    evaluated on the parent at the parent's pointer position, its answer is
    the result whenever there is one, and the body runs, on the same
    arguments, only when there is none. *)
Theorem magic_borders_first (func : handler) (widget : widget)
    (context : DragContext) (x y : Z) (t : timestamp) (w : World) :
  drag_motion ext widget context x y t w =
    match wkind widget with
    | KDockGroup =>
        with_magic_borders (dock_group_drag_motion ext) widget context x y t w
    | KDockPaned =>
        with_magic_borders (dock_paned_drag_motion ext) widget context x y t w
    | _ => _propagate_to_parent (drag_motion ext) widget context x y t w
    end /\
  match get_parent widget with
  | None =>
      with_magic_borders func widget context x y t w = func widget context x y t w
  | Some parent =>
      exists handled,
        magic_borders parent context (get_pointer parent).1 (get_pointer parent).2 t w
          = (Ok handled, w) /\
        with_magic_borders func widget context x y t w =
          match handled with
          | Some answer => (Ok (Some answer), w)
          | None => func widget context x y t w
          end
  end.
Proof.
  split.
  - destruct widget as [i k a o p par]. destruct k; reflexivity.
  - unfold with_magic_borders, _propagate_to_parent, bind.
    destruct (get_parent widget) as [parent|]; [|reflexivity].
    destruct (get_pointer parent) as [px py]. simpl.
    destruct (magic_borders_pure parent context px py t w) as [handled Hm].
    exists handled. split; [exact Hm|]. rewrite Hm.
    destruct handled; reflexivity.
Qed.

(** [on_widget_drag_motion], given what [drag_motion] resolves to. *)
Lemma on_widget_drag_motion_eq (widget : widget) (context : DragContext)
    (x y : Z) (t : timestamp) (s : Sys) (r : outcome (option DragData)) (w : World) :
  drag_motion ext widget context x y t (world s) = (r, w) ->
  on_widget_drag_motion ext widget context x y t s =
    let old := _drag_data (self s) in
    let sys l w i := mkSys l (connections s) (next_handler_id s) (drag_dests s) w i in
    match r with
    | Raise e => (Raise e, sys (self s) w (invoked s))
    | Ok d =>
        if bool_decide (target_of d = target_of old)
        then (Ok tt, sys (self s) w (invoked s))
        else let '(o, w2) := run_leave old w in
             (o, sys (if raised o then self s else set_drag_data d (self s))
                     w2 (invoked s ++ leave_calls old))
    end.
Proof.
  intros Hdm. unfold on_widget_drag_motion.
  unfold bind at 1. unfold in_world at 1. rewrite Hdm.
  destruct r as [d|err]; [|reflexivity].
  unfold bind at 1. unfold get at 1. cbn [self].
  destruct (bool_decide (target_of d = target_of (_drag_data (self s))));
    cbn [negb]; [reflexivity|].
  unfold on_widget_drag_leave, bind, get, note, modify, in_world, ret.
  cbn [self world invoked run_leave leave_calls].
  destruct (_drag_data (self s)) as [old|]; [|cbn; rewrite app_nil_r; reflexivity].
  cbn [run_leave leave_calls].
  destruct (leave old) as [f|]; [|cbn; rewrite app_nil_r; reflexivity].
  cbn [self world invoked connections next_handler_id drag_dests].
  destruct (f (drop_widget old) w) as [[[]|err] w2]; reflexivity.
Qed.

(** One motion event follows the session update rule. *)
Lemma motion_step_ok (e : motion) (s : Sys) :
  observation_ok
    (mkObservation s
       (drag_motion ext (m_widget e) (m_context e) (m_x e) (m_y e) (m_time e) (world s)).1
       (drag_motion ext (m_widget e) (m_context e) (m_x e) (m_y e) (m_time e) (world s)).2
       (on_widget_drag_motion ext (m_widget e) (m_context e) (m_x e) (m_y e) (m_time e) s).1
       (on_widget_drag_motion ext (m_widget e) (m_context e) (m_x e) (m_y e) (m_time e) s).2).
Proof.
  destruct (drag_motion ext (m_widget e) (m_context e) (m_x e) (m_y e) (m_time e)
              (world s)) as [r w] eqn:Hdm.
  rewrite (on_widget_drag_motion_eq _ _ _ _ _ _ _ _ Hdm).
  unfold observation_ok. cbn [fst snd before after resolved result resolved_world].
  destruct r as [d|err]; [|cbn; auto].
  destruct (bool_decide (target_of d = target_of (_drag_data (self s))));
    [cbn; auto|].
  destruct (run_leave (_drag_data (self s)) w) as [o w2].
  cbn. auto.
Qed.

(** C7: along every sequence of drag-motion events, each event leaves the
    session and the callbacks alone when [drag_motion] resolves to the
    tracked drop widget; when it resolves to another one, the old session's
    [leave], if it has one, is called exactly once and the session is
    replaced after that call has returned. *)
Theorem drag_session_updates (events : list motion) (s : Sys) :
  Forall observation_ok (observe ext events s).
Proof.
  revert s. induction events as [|e rest IH]; intros s; simpl; [constructor|].
  pose proof (motion_step_ok e s) as Hstep.
  destruct (drag_motion ext _ _ _ _ _ (world s)) as [d w].
  destruct (on_widget_drag_motion ext _ _ _ _ _ s) as [r s'].
  constructor; [exact Hstep|apply IH].
Qed.

(** [on_widget_drag_data_received], in one equation. *)
Lemma on_widget_drag_data_received_eq (widget : widget) (context : DragContext)
    (x y : Z) (selection_data : SelectionData) (info : Z) (t : timestamp)
    (s : @Sys World) :
  on_widget_drag_data_received widget context x y selection_data info t s =
    match _drag_data (self s) with
    | None => (Raise AttributeError, s)
    | Some d =>
        match received d with
        | None => (Raise AssertionError, s)
        | Some f =>
            (fst (f selection_data info (world s)),
             mkSys (set_drag_data None (self s)) (connections s) (next_handler_id s)
                   (drag_dests s) (snd (f selection_data info (world s)))
                   (invoked s ++ [called_received (wid (drop_widget d))]))
        end
    end.
Proof.
  unfold on_widget_drag_data_received, bind, get.
  destruct (_drag_data (self s)) as [d|]; [|reflexivity].
  destruct (received d) as [f|]; [|reflexivity].
  unfold try_finally, bind, note, modify, in_world. cbn [world].
  destruct (f selection_data info (world s)) as [[[]|err] w']; reflexivity.
Qed.

(** C8: [on_widget_drag_data_received] raises, with nothing changed, when
    there is no session or the session has no [received] callback;
    otherwise it calls [received] once, ends as that call ends, and leaves
    the session slot empty whether the call returned or raised. *)
Theorem drag_data_received_clears (widget : widget) (context : DragContext)
    (x y : Z) (selection_data : SelectionData) (info : Z) (t : timestamp)
    (s : @Sys World) :
  let r : outcome unit * Sys :=
    on_widget_drag_data_received widget context x y selection_data info t s in
  match _drag_data (self s) with
  | None => r = (Raise AttributeError, s)
  | Some d =>
      match received d with
      | None => r = (Raise AssertionError, s)
      | Some f =>
          fst r = fst (f selection_data info (world s)) /\
          world (snd r) = snd (f selection_data info (world s)) /\
          _drag_data (self (snd r)) = None /\
          invoked (snd r) = invoked s ++ [called_received (wid (drop_widget d))] /\
          frames (self (snd r)) = frames (self s) /\
          _signal_handlers (self (snd r)) = _signal_handlers (self s)
      end
  end.
Proof.
  intros r. subst r. rewrite on_widget_drag_data_received_eq.
  destruct (_drag_data (self s)) as [d|]; [|reflexivity].
  destruct (received d) as [f|]; [|reflexivity].
  cbn. auto 10.
Qed.

(** *** Registration of signal handlers *)

(** Induction over a widget subtree. *)
Lemma wtree_rect_children (P : wtree -> Prop) :
  (forall w k cs, Forall P cs -> P (Node w k cs)) -> forall t, P t.
Proof.
  intros Hnode. fix IH 1. intros [w k cs]. apply Hnode.
  induction cs as [|c cs IHcs]; constructor; [apply IH|exact IHcs].
Qed.

Lemma has_signal_container (k : kind) (name : signal) :
  isinstance_Container k = true -> has_signal k name = true.
Proof. intros Hk. destruct name; cbn; auto. Qed.

(** [connect_each] on a container: every name is a signal of it, and the
    handler ids are the next ones, in order. *)
Lemma connect_each_eq (w : widget_id) (k : kind) (names : list signal) :
  isinstance_Container k = true ->
  forall (signals : gset nat) (s : @Sys World),
  connect_each w k names signals s =
    (Ok (signals ∪ list_to_set (seq (next_handler_id s) (length names))),
     mkSys (self s)
           (connections s ++ imap (fun j name => mkConn w name (next_handler_id s + j)) names)
           (next_handler_id s + length names) (drag_dests s) (world s) (invoked s)).
Proof.
  intros Hk. induction names as [|name rest IH]; intros signals s.
  - cbn. rewrite app_nil_r, Nat.add_0_r, (right_id_L ∅ (∪)). destruct s; reflexivity.
  - cbn [connect_each]. unfold bind, connect.
    rewrite (has_signal_container k name Hk), IH.
    cbn [self connections next_handler_id drag_dests world invoked length seq
         list_to_set imap].
    rewrite <- (assoc_L (∪)), <- app_assoc, Nat.add_0_r.
    replace (S (next_handler_id s) + length rest)%nat
      with (next_handler_id s + S (length rest))%nat by lia.
    do 3 f_equal. cbn [app]. f_equal. apply imap_ext. intros j name' _. cbn.
    f_equal. lia.
Qed.

(** On a widget that is no container the first [connect], of [add],
    raises. *)
Lemma connect_each_leaf (w : widget_id) (k : kind) (signals : gset nat) (s : @Sys World) :
  isinstance_Container k = false ->
  connect_each w k signal_names signals s = (Raise TypeError, s).
Proof.
  intros Hk. cbn [connect_each signal_names]. unfold bind, connect, has_signal.
  rewrite Hk. reflexivity.
Qed.

(** [add_signal_handlers] on a widget that is no container and has no
    handlers: it is made a drag destination, then [connect] raises. *)
Lemma add_signal_handlers_leaf (w : widget_id) (k : kind) (cs : list wtree)
    (s : @Sys World) :
  isinstance_Container k = false -> has_handlers (self s) w = false ->
  add_signal_handlers (Node w k cs) s =
    (Raise TypeError,
     mkSys (self s) (connections s) (next_handler_id s) (drag_dests s ∪ {[w]})
           (world s) (invoked s)).
Proof.
  intros Hk Hhas. cbn [add_signal_handlers]. unfold bind at 1. unfold get at 1.
  rewrite Hhas. unfold bind at 1. unfold drag_dest_set at 1. unfold modify at 1.
  unfold bind at 1. rewrite (connect_each_leaf w k _ _ Hk). reflexivity.
Qed.

Lemma handler_ids_nonempty (n len : nat) :
  (∅ ∪ list_to_set (seq n (S len)) : gset nat) <> ∅.
Proof.
  intros Heq. apply (not_elem_of_empty (C := gset nat) n). rewrite <- Heq.
  apply elem_of_union. right. apply elem_of_list_to_set. left.
Qed.

Lemma registers_refl (s : @Sys World) : registers s s.
Proof. repeat split; auto. Qed.

Lemma registers_trans (s1 s2 s3 : @Sys World) :
  registers s1 s2 -> registers s2 s3 -> registers s1 s3.
Proof.
  intros (A1 & A2 & A3 & A4) (B1 & B2 & B3 & B4).
  split; [congruence|]. split; [congruence|]. split; auto.
Qed.

Lemma has_handlers_insert (l : @DockLayout World) (w w' : widget_id) (ids : gset nat) :
  ids <> ∅ ->
  has_handlers l w' = true ->
  has_handlers (set_signal_handlers (<[w := ids]> (_signal_handlers l)) l) w' = true.
Proof.
  intros Hne. unfold has_handlers. simpl.
  destruct (decide (w = w')) as [->|Hw].
  - rewrite lookup_insert_eq. intros _. apply negb_true_iff, bool_decide_eq_false. exact Hne.
  - rewrite lookup_insert_ne by exact Hw. auto.
Qed.

Lemma handlers_ok_insert (l : @DockLayout World) (w : widget_id) (ids : gset nat) :
  ids <> ∅ ->
  handlers_ok l ->
  handlers_ok (set_signal_handlers (<[w := ids]> (_signal_handlers l)) l).
Proof.
  intros Hne Hok w' ids'. simpl.
  destruct (decide (w = w')) as [->|Hw].
  - rewrite lookup_insert_eq. intros [= <-]. exact Hne.
  - rewrite lookup_insert_ne by exact Hw. apply Hok.
Qed.

Lemma handlers_ok_delete (l : @DockLayout World) (w : widget_id) :
  handlers_ok l ->
  handlers_ok (set_signal_handlers (delete w (_signal_handlers l)) l).
Proof.
  intros Hok w' ids'. simpl.
  destruct (decide (w = w')) as [->|Hw].
  - rewrite lookup_delete_eq. discriminate.
  - rewrite lookup_delete_ne by exact Hw. apply Hok.
Qed.

Lemma has_handlers_true (l : @DockLayout World) (w : widget_id) :
  handlers_ok l -> is_Some (_signal_handlers l !! w) -> has_handlers l w = true.
Proof.
  intros Hok [ids Hids]. unfold has_handlers. rewrite Hids.
  apply negb_true_iff, bool_decide_eq_false. exact (Hok w ids Hids).
Qed.

(** [add_signal_handlers] ends; it registers, and on a container it
    returns with the container registered. *)
Lemma add_signal_handlers_registers (t : wtree) :
  forall s : @Sys World,
  exists r s', add_signal_handlers t s = (r, s') /\ registers s s' /\
               (r = Ok tt -> has_handlers (self s') (root t) = true) /\
               (isinstance_Container (root_kind t) = true -> r = Ok tt).
Proof.
  induction t as [w k cs IH] using wtree_rect_children. intros s.
  destruct (has_handlers (self s) w) eqn:Hhas.
  { exists (Ok tt), s. cbn [add_signal_handlers root root_kind].
    unfold bind, get. rewrite Hhas.
    split; [reflexivity|]. split; [apply registers_refl|auto]. }
  destruct (isinstance_Container k) eqn:Hk.
  2:{ rewrite (add_signal_handlers_leaf w k cs s Hk Hhas).
      eexists _, _. split; [reflexivity|].
      split; [repeat split; auto|]. cbn [root_kind]. split; [discriminate|congruence]. }
  cbn [add_signal_handlers root root_kind]. unfold bind at 1. unfold get at 1.
  rewrite Hhas, Hk.
  unfold bind at 1. unfold drag_dest_set at 1. unfold modify at 1.
  unfold bind at 1. rewrite (connect_each_eq w k signal_names Hk).
  unfold bind at 1. unfold modify at 1.
  cbn [self connections next_handler_id drag_dests world invoked].
  match goal with |- context [set_self ?f ?x] => set (s3 := set_self f x) end.
  pose proof (handler_ids_nonempty (next_handler_id s) 7) as Hne.
  change (S 7) with (length signal_names) in Hne.
  assert (H13 : registers s s3 /\ has_handlers (self s3) w = true).
  { unfold s3, set_self. cbn [self].
    split.
    - split; [reflexivity|]. split; [reflexivity|].
      split; [intros w'; apply has_handlers_insert; exact Hne|].
      apply handlers_ok_insert; exact Hne.
    - unfold has_handlers, set_signal_handlers. cbn [_signal_handlers].
      rewrite lookup_insert_eq.
      apply negb_true_iff, bool_decide_eq_false. exact Hne. }
  destruct H13 as [H13 Hw3].
  clear Hne. revert H13 Hw3. generalize s3. clear s3 Hhas.
  induction IH as [|c cs Hc _ IHcs]; intros s3 H13 Hw3.
  - exists (Ok tt), s3. split; [reflexivity|]. split; [exact H13|auto].
  - unfold bind at 1. unfold swallow at 1.
    destruct (Hc s3) as (r4 & s4 & Heq4 & H34 & _). rewrite Heq4. cbn [snd].
    apply IHcs.
    + eapply registers_trans; [exact H13|exact H34].
    + destruct H34 as (_ & _ & Hkeep & _). apply Hkeep. exact Hw3.
Qed.

(** [remove_signal_handlers] returns and keeps entries non-empty. *)
Lemma remove_signal_handlers_ok (t : wtree) :
  forall s : @Sys World,
  exists s', remove_signal_handlers t s = (Ok tt, s') /\
             _drag_data (self s') = _drag_data (self s) /\
             frames (self s') = frames (self s) /\
             (handlers_ok (self s) -> handlers_ok (self s')).
Proof.
  induction t as [w k cs IH] using wtree_rect_children. intros s.
  cbn [remove_signal_handlers]. unfold bind at 1. unfold get at 1.
  destruct (_signal_handlers (self s) !! w) as [signals|] eqn:Hentry.
  2:{ exists s. auto. }
  unfold bind at 1. unfold disconnect_all at 1. unfold modify at 1.
  unfold bind at 1. unfold modify at 1.
  set (s2 := set_self _ _).
  assert (H2 : _drag_data (self s2) = _drag_data (self s) /\
               frames (self s2) = frames (self s) /\
               (handlers_ok (self s) -> handlers_ok (self s2))).
  { unfold s2, set_self. cbn [self]. split; [reflexivity|]. split; [reflexivity|].
    apply handlers_ok_delete. }
  destruct (isinstance_Container k); [|exists s2; split; [reflexivity|exact H2]].
  revert H2. generalize s2. clear s2 Hentry.
  induction IH as [|c cs Hc _ IHcs]; intros s2 H2.
  - exists s2. split; [reflexivity|exact H2].
  - unfold bind at 1. unfold swallow at 1.
    destruct (Hc s2) as (s3 & Heq3 & Hd3 & Hf3 & Hok3). rewrite Heq3. cbn [snd].
    apply IHcs. destruct H2 as (Hd2 & Hf2 & Hok2).
    split; [congruence|]. split; [congruence|auto].
Qed.

Lemma sys_step_handlers_ok (s s' : @Sys World) :
  sys_step ext s s' -> handlers_ok (self s) -> handlers_ok (self s').
Proof.
  intros Hstep Hok. destruct Hstep as [t s|t s|t s|t s|c t s|c t s|e s|e s|e sel info s].
  - unfold add. destruct (isinstance_DockFrame _); [|exact Hok].
    unfold bind, modify.
    set (s1 := set_self _ s).
    destruct (add_signal_handlers_registers t s1) as (r & s2 & Heq & (_ & _ & _ & Hk) & _).
    rewrite Heq. apply Hk. exact Hok.
  - unfold remove. unfold bind at 1.
    destruct (remove_signal_handlers_ok t s) as (s1 & Heq & _ & _ & Hk).
    rewrite Heq. unfold bind, get. cbn.
    destruct (bool_decide _); cbn; apply Hk; exact Hok.
  - destruct (add_signal_handlers_registers t s) as (r & s2 & Heq & (_ & _ & _ & Hk) & _).
    rewrite Heq. apply Hk. exact Hok.
  - destruct (remove_signal_handlers_ok t s) as (s1 & Heq & _ & _ & Hk).
    rewrite Heq. apply Hk. exact Hok.
  - unfold on_widget_add. destruct (isinstance_Container _); [|exact Hok].
    destruct (add_signal_handlers_registers t s) as (r & s2 & Heq & (_ & _ & _ & Hk) & _).
    rewrite Heq. apply Hk. exact Hok.
  - unfold on_widget_remove. destruct (isinstance_Container _); [|exact Hok].
    destruct (remove_signal_handlers_ok t s) as (s1 & Heq & _ & _ & Hk).
    rewrite Heq. apply Hk. exact Hok.
  - destruct (drag_motion ext (m_widget e) (m_context e) (m_x e) (m_y e) (m_time e)
                (world s)) as [r w] eqn:Hdm.
    rewrite (on_widget_drag_motion_eq _ _ _ _ _ _ _ _ Hdm). cbv zeta.
    destruct r as [d|err]; [|exact Hok].
    destruct (bool_decide _); [exact Hok|].
    destruct (run_leave _ w) as [o w2]. cbn. destruct (raised o); exact Hok.
  - unfold on_widget_drag_leave, bind, get, note, modify, in_world, ret.
    destruct (_drag_data (self s)) as [d|]; [|exact Hok].
    destruct (leave d) as [f|]; [|exact Hok].
    cbn. destruct (f (drop_widget d) (world s)) as [[[]|err] w2]; exact Hok.
  - rewrite on_widget_drag_data_received_eq.
    destruct (_drag_data (self s)) as [d|]; [|exact Hok].
    destruct (received d) as [f|]; exact Hok.
Qed.

Lemma sys_reachable_handlers_ok (s : @Sys World) :
  sys_reachable ext s -> handlers_ok (self s).
Proof.
  induction 1 as [s Hinit|s s' _ IH Hstep].
  - rewrite Hinit. intros w ids. unfold init. simpl. rewrite lookup_empty. discriminate.
  - exact (sys_step_handlers_ok s s' Hstep IH).
Qed.

(** C10: in a system a new DockLayout can get to,
    [remove_signal_handlers] on a widget without an entry returns with the
    whole system as it was (no handler disconnected, map unchanged);
    [add_signal_handlers] on a widget with an entry returns with the whole
    system as it was (nothing connected); and a second
    [add_signal_handlers] on a widget right after the first ends as the
    first did and changes nothing, where the first returns, or, on a
    widget that is no container, raises TypeError ([connect] knows no
    signal [add] there). *)
Theorem signal_handlers_guarded (t : wtree) (s : @Sys World) :
  sys_reachable ext s ->
  (_signal_handlers (self s) !! root t = None ->
     remove_signal_handlers t s = (Ok tt, s)) /\
  (is_Some (_signal_handlers (self s) !! root t) ->
     add_signal_handlers t s = (Ok tt, s)) /\
  (exists r s', add_signal_handlers t s = (r, s') /\
                add_signal_handlers t s' = (r, s') /\
                (r = Ok tt \/
                 (isinstance_Container (root_kind t) = false /\ r = Raise TypeError))).
Proof.
  intros Hreach. apply sys_reachable_handlers_ok in Hreach.
  assert (Hguard : forall s0 : @Sys World, has_handlers (self s0) (root t) = true ->
                     add_signal_handlers t s0 = (Ok tt, s0)).
  { intros s0 Hhas. destruct t as [w k cs]. cbn [add_signal_handlers root] in *.
    unfold bind, get. rewrite Hhas. reflexivity. }
  split; [|split].
  - intros Hnone. destruct t as [w k cs]. cbn [remove_signal_handlers root] in *.
    unfold bind, get. rewrite Hnone. reflexivity.
  - intros Hsome. apply Hguard. apply has_handlers_true; assumption.
  - destruct (has_handlers (self s) (root t)) eqn:Hhas.
    { exists (Ok tt), s. rewrite (Hguard s Hhas). auto. }
    destruct (isinstance_Container (root_kind t)) eqn:Hk.
    + destruct (add_signal_handlers_registers t s) as (r & s' & Heq & _ & Hreg & Hret).
      specialize (Hret Hk). subst r.
      exists (Ok tt), s'. split; [exact Heq|]. split; [|auto].
      apply Hguard, Hreg. reflexivity.
    + destruct t as [w k cs]. cbn [root root_kind] in *.
      rewrite (add_signal_handlers_leaf w k cs s Hk Hhas).
      eexists _, _. split; [reflexivity|]. split; [|auto].
      rewrite add_signal_handlers_leaf by assumption.
      cbn [self connections next_handler_id drag_dests world invoked].
      rewrite <- (assoc_L (∪)), (idemp_L (∪)). reflexivity.
Qed.

End props.

Lemma framed_system_reachable : sys_reachable quiet framed_system.
Proof.
  unfold framed_system.
  eapply sys_reachable_step; [|apply step_add].
  apply sys_reachable_init. reflexivity.
Defined.

Lemma signal_handlers_guarded_witness :
  sys_reachable quiet framed_system /\
  is_Some (_signal_handlers (self framed_system) !! root frame_tree) /\
  add_signal_handlers frame_tree framed_system = (Ok tt, framed_system).
Proof.
  assert (Hentry : is_Some (_signal_handlers (self framed_system) !! root frame_tree)).
  { vm_compute. eauto. }
  split; [exact framed_system_reachable|]. split; [exact Hentry|].
  exact (proj1 (proj2 (signal_handlers_guarded quiet frame_tree framed_system
                         framed_system_reachable)) Hentry).
Defined.

End docklayout_props.

(** * Further properties: geometry and pointer events of the DockGroup *)
Module dockgroup_more.

Import dockgroup util dockgroup_events dockgroup_props.

Lemma Qltb_lt (p q : QArith_base.Q) : Qltb p q = true <-> QArith_base.Qlt p q.
Proof.
  unfold Qltb. rewrite QArith_base.Qlt_alt.
  destruct (QArith_base.Qcompare p q); split; congruence.
Qed.

Lemma Qleb_le (p q : QArith_base.Q) : Qleb p q = true <-> QArith_base.Qle p q.
Proof.
  unfold Qleb. rewrite QArith_base.Qle_alt.
  destruct (QArith_base.Qcompare p q); split; congruence.
Qed.

(** X1: a point strictly inside a rectangle is also on or inside it, and a
    rectangle that contains a point has positive width and height. *)
Theorem rect_contains_overlaps (rect : Rectangle) (px py : QArith_base.Q) :
  _rect_contains rect px py = true ->
  _rect_overlaps rect px py = true /\ 0 < width rect /\ 0 < height rect.
Proof.
  unfold _rect_contains, _rect_overlaps. rewrite !andb_true_iff, !Qltb_lt, !Qleb_le.
  intros [[[Hx1 Hx2] Hy1] Hy2].
  pose proof (QArith_base.Qlt_trans _ _ _ Hx1 Hx2) as Hx.
  pose proof (QArith_base.Qlt_trans _ _ _ Hy1 Hy2) as Hy.
  rewrite <- QArith_base.Zlt_Qlt in Hx, Hy.
  split; [|lia].
  repeat split; apply QArith_base.Qlt_le_weak; assumption.
Qed.

Lemma rect_contains_overlaps_witness :
  _rect_contains (mkRect 0 0 10 10) (QArith_base.Qmake 5 1) (QArith_base.Qmake 5 2) = true /\
  _rect_overlaps (mkRect 0 0 10 10) (QArith_base.Qmake 5 1) (QArith_base.Qmake 5 2) = true.
Proof.
  split; [reflexivity|].
  exact (proj1 (rect_contains_overlaps (mkRect 0 0 10 10) (QArith_base.Qmake 5 1)
                  (QArith_base.Qmake 5 2) eq_refl)).
Defined.

(** X2: no point on an edge of a rectangle is inside it: not on the left
    or right edge, whatever its height, and not on the top or bottom edge,
    whatever its abscissa. *)
Theorem rect_edge_not_contained (rect : Rectangle) (p : QArith_base.Q) :
  _rect_contains rect (QArith_base.inject_Z (x rect)) p = false /\
  _rect_contains rect (QArith_base.inject_Z (x rect + width rect)) p = false /\
  _rect_contains rect p (QArith_base.inject_Z (y rect)) = false /\
  _rect_contains rect p (QArith_base.inject_Z (y rect + height rect)) = false.
Proof.
  assert (Hirr : forall q, Qltb q q = false).
  { intros q. destruct (Qltb q q) eqn:E; [|reflexivity].
    apply Qltb_lt in E. exfalso. exact (QArith_base.Qlt_irrefl q E). }
  unfold _rect_contains. rewrite !Hirr.
  rewrite ?andb_false_r, ?andb_false_l. auto.
Qed.

(** *** Invariants over all calls *)

Lemma remove_absent (l : list nat) (x : nat) : x ∉ l -> remove l x = l.
Proof.
  induction l as [|y l IH]; [reflexivity|]. intros Hnot. simpl.
  destruct (decide (y = x)) as [->|Hne].
  - exfalso. apply Hnot. apply elem_of_cons. auto.
  - rewrite IH; [reflexivity|]. intros Hin. apply Hnot. apply elem_of_cons. auto.
Qed.

Lemma remove_filter (l : list nat) (x : nat) :
  NoDup l -> remove l x = filter (fun y => y <> x) l.
Proof.
  induction 1 as [|y l Hnot Hdup IH]; [reflexivity|]. simpl.
  rewrite filter_cons. destruct (decide (y = x)) as [->|Hne].
  - destruct (decide (x <> x)) as [Hxx|_]; [exfalso; apply Hxx; reflexivity|].
    rewrite <- IH. symmetry. apply remove_absent. exact Hnot.
  - destruct (decide (y <> x)) as [_|Hyx]; [|exfalso; apply Hyx; exact Hne].
    rewrite IH. reflexivity.
Qed.

Lemma sublist_filter_mono (P : nat -> Prop) `{!forall y, Decision (P y)}
    (l k : list nat) :
  l `sublist_of` k -> filter P l `sublist_of` filter P k.
Proof.
  induction 1 as [|y l k _ IH|y l k _ IH]; [constructor| |]; rewrite ?filter_cons.
  - destruct (decide (P y)); [apply sublist_skip|]; exact IH.
  - destruct (decide (P y)); [apply sublist_cons|]; exact IH.
Qed.

Lemma selected_shape (g : DockGroup) (n : Z) :
  _visible_tabs (selected g n) = _visible_tabs g /\
  next_tab (selected g n) = next_tab g /\
  tab_store (selected g n) = tab_store g.
Proof. unfold selected. destruct (_tabs g); auto. Qed.

Lemma set_current_item_wf (g : DockGroup) (n : Z) :
  group_wf g -> group_wf (set_current_item n g).2.
Proof.
  rewrite set_current_item_eq. unfold group_wf. cbn [snd call _tabs _visible_tabs next_tab].
  destruct (selected_shape g n) as (Hv & Hn & _).
  rewrite selected_tabs, Hv, Hn. auto.
Qed.

(** [do_add] on a DockItem, in one equation. *)
Lemma do_add_item_eq (g : DockGroup) (w : widget_id) :
  exists n,
    do_add (DockItem w) g =
      set_current_item n
        (set_tabs (_tabs g ++ [next_tab g])
           (call [set_parent (TItem w); set_parent (TPeer Image (next_tab g));
                  set_parent (TPeer Label (next_tab g));
                  set_parent (TPeer Button (next_tab g)); menu_append (next_tab g)]
              (set_store (store_upd (next_tab g)
                            (fun _ => mkTab w STATE_NORMAL Rectangle0) (tab_store g))
                         (S (next_tab g)) g))) /\
    item_num (set_tabs (_tabs g ++ [next_tab g])
                (set_store (store_upd (next_tab g)
                              (fun _ => mkTab w STATE_NORMAL Rectangle0) (tab_store g))
                           (S (next_tab g)) g)) (DockItem w) = Some n.
Proof.
  unfold do_add, bind, get, modify. simpl.
  set (g3 := set_tabs _ (call _ _)).
  set (g3' := set_tabs _ (set_store _ _ _)).
  destruct (item_num_is_Some g3 w (next_tab g)) as [n Hn].
  - unfold g3. simpl. apply elem_of_app. right. apply list_elem_of_singleton. reflexivity.
  - unfold g3, tab_item, store_upd. simpl. destruct (decide _); [reflexivity|congruence].
  - exists n. rewrite Hn. split; [reflexivity|]. exact Hn.
Qed.

Lemma do_add_wf (o : pyobj) (g : DockGroup) :
  group_wf g -> group_wf (do_add o g).2.
Proof.
  intros (Hdup & Hfresh & Hsub).
  destruct o as [w|w|r|]; try (repeat split; assumption).
  destruct (do_add_item_eq g w) as (n & Heq & _). rewrite Heq.
  apply set_current_item_wf. unfold group_wf. simpl.
  split; [|split].
  - apply NoDup_app. split; [exact Hdup|]. split; [|apply NoDup_singleton].
    intros r Hin Hr. apply list_elem_of_singleton in Hr. subst r.
    specialize (Hfresh _ Hin). lia.
  - intros r Hin. apply elem_of_app in Hin. destruct Hin as [Hin|Hin].
    + specialize (Hfresh _ Hin). lia.
    + apply list_elem_of_singleton in Hin. lia.
  - apply sublist_inserts_r. exact Hsub.
Qed.

Lemma do_remove_wf (o : pyobj) (g : DockGroup) :
  group_wf g -> group_wf (do_remove o g).2.
Proof.
  intros Hwf. pose proof Hwf as (Hdup & Hfresh & Hsub).
  destruct o as [w|w|r|]; try exact Hwf.
  destruct (item_num g (DockItem w)) as [i|] eqn:Hnum.
  - destruct (item_num_Some _ _ _ Hnum) as (Hi & r & Hidx & Hlook & Hitem).
    rewrite (do_remove_item_eq g w i r Hnum Hidx Hitem) by lia.
    apply set_current_item_wf.
    destruct (index_Some _ _ _ Hidx) as [_ Hrem]. rewrite <- Hrem.
    assert (Hvis : _visible_tabs
                     (if contains (_visible_tabs g) r
                      then set_visible_tabs (remove (_visible_tabs g) r) g else g)
                   = remove (_visible_tabs g) r).
    { unfold contains. destruct (bool_decide (r ∈ _visible_tabs g)) eqn:Hin; [reflexivity|].
      apply bool_decide_eq_false in Hin. rewrite remove_absent by exact Hin. reflexivity. }
    assert (Hnext : next_tab
                      (if contains (_visible_tabs g) r
                       then set_visible_tabs (remove (_visible_tabs g) r) g else g)
                    = next_tab g) by (destruct (contains _ _); reflexivity).
    unfold group_wf. cbn [_tabs _visible_tabs next_tab set_tabs call]. rewrite Hvis, Hnext.
    rewrite (remove_filter (_tabs g) r Hdup).
    rewrite (remove_filter (_visible_tabs g) r (sublist_NoDup _ _ Hdup Hsub)).
    split; [apply NoDup_filter; exact Hdup|]. split.
    + intros r' Hin. apply list_elem_of_filter in Hin. apply Hfresh. tauto.
    + apply sublist_filter_mono. exact Hsub.
  - assert (Hsame : (do_remove (DockItem w) g).2 = g).
    { unfold do_remove. simpl. unfold bind at 1. unfold get at 1.
      destruct (_tabs g); [reflexivity|]. rewrite Hnum. reflexivity. }
    rewrite Hsame. exact Hwf.
Qed.

Lemma upd_tab_shape (g : DockGroup) (r : tabref) (f : _DockGroupTab -> _DockGroupTab) :
  _tabs (upd_tab r f g) = _tabs g /\
  _visible_tabs (upd_tab r f g) = _visible_tabs g /\
  next_tab (upd_tab r f g) = next_tab g.
Proof. auto. Qed.

Lemma request_tabs_shape (tk : Toolkit) (cur : option Z) (ts : list tabref) :
  forall index dw dh g,
    _tabs (request_tabs tk cur index ts dw dh g).2 = _tabs g /\
    _visible_tabs (request_tabs tk cur index ts dw dh g).2 = _visible_tabs g /\
    next_tab (request_tabs tk cur index ts dw dh g).2 = next_tab g.
Proof.
  induction ts as [|tab rest IH]; intros index dw dh g; simpl; [auto|].
  match goal with |- context [request_tabs tk cur ?i rest ?a ?b ?g'] =>
    destruct (IH i a b g') as (H1 & H2 & H3) end.
  rewrite H1, H2, H3. auto.
Qed.

Lemma do_size_request_wf (tk : Toolkit) (g : DockGroup) :
  group_wf g -> group_wf (do_size_request tk g).2.
Proof.
  unfold do_size_request, bind, get, modify, ret.
  pose proof (request_tabs_shape tk (_current_index g) (_tabs g) 0 0 0 g) as H.
  destruct (request_tabs tk (_current_index g) 0 (_tabs g) 0 0 g) as [[dw dh] g1].
  simpl in H. destruct H as (H1 & H2 & H3).
  destruct (match _current_item g with Some w => _ | None => _ end).
  unfold group_wf. simpl. rewrite H1, H2, H3. auto.
Qed.

Lemma place_tabs_next (vis : list tabref) :
  forall cx cy g, next_tab (place_tabs vis cx cy g) = next_tab g.
Proof.
  induction vis as [|tab rest IH]; intros cx cy g; simpl; [reflexivity|].
  rewrite IH. reflexivity.
Qed.

Lemma do_size_allocate_wf (tk : Toolkit) (a : Rectangle) (g : DockGroup) :
  selection_ok g -> group_wf g -> group_wf (do_size_allocate tk a g).2.
Proof.
  intros Hsel (Hdup & Hfresh & Hsub).
  unfold selection_ok in Hsel.
  destruct (_current_index g) as [c|] eqn:Hcur.
  - destruct Hsel as [Hr (cur & Hlook & _)].
    destruct (visible_segment tk a g c cur Hcur ltac:(lia) Hlook)
      as (_ & Htabs & before & left & right & after & Hsplit & Hvis).
    destruct (do_size_allocate_eq tk a g c cur Hcur ltac:(lia) Hlook) as (m & _ & Heq).
    cbv zeta in Heq.
    assert (Hnext : next_tab (do_size_allocate tk a g).2 = next_tab g).
    { rewrite Heq. cbn [snd]. rewrite place_tabs_next.
      destruct (bool_decide _); [|reflexivity]. destruct (_ <=? _); reflexivity. }
    unfold group_wf. rewrite Htabs, Hvis, Hnext.
    split; [exact Hdup|]. split; [exact Hfresh|].
    rewrite Hsplit. apply sublist_inserts_l, sublist_inserts_r. reflexivity.
  - destruct Hsel as [Hnil _].
    unfold do_size_allocate, bind, modify, get. cbn. rewrite Hnil. cbn.
    destruct (place_tabs_lists (_visible_tabs g) 0 0 (set_allocation a g)) as (H1 & H2 & _).
    unfold group_wf. rewrite H1, H2, place_tabs_next. cbn.
    rewrite Hnil in *. auto.
Qed.

Lemma notify_tabs_shape (vis : list tabref) (ex ey : QArith_base.Q) :
  forall g,
    _tabs (notify_tabs vis ex ey g) = _tabs g /\
    _visible_tabs (notify_tabs vis ex ey g) = _visible_tabs g /\
    next_tab (notify_tabs vis ex ey g) = next_tab g /\
    _current_index (notify_tabs vis ex ey g) = _current_index g /\
    _current_item (notify_tabs vis ex ey g) = _current_item g /\
    (forall r, tab_item (notify_tabs vis ex ey g) r = tab_item g r) /\
    (forall r, area (tab_store (notify_tabs vis ex ey g) r) = area (tab_store g r)).
Proof.
  induction vis as [|tab rest IH]; intros g; simpl; [repeat split; reflexivity|].
  match goal with |- context [notify_tabs rest ex ey ?g'] =>
    destruct (IH g') as (H1 & H2 & H3 & H4 & H5 & H6 & H7); set (g1 := g') in * end.
  rewrite H1, H2, H3, H4, H5.
  assert (Hg1 : _tabs g1 = _tabs g /\ _visible_tabs g1 = _visible_tabs g /\
                next_tab g1 = next_tab g /\ _current_index g1 = _current_index g /\
                _current_item g1 = _current_item g /\
                (forall r, tab_item g1 r = tab_item g r) /\
                (forall r, area (tab_store g1 r) = area (tab_store g r))).
  { unfold g1.
    destruct (_rect_contains _ _ _), (state (tab_store g tab));
      repeat split; try reflexivity;
      intros r; unfold tab_item, upd_tab, store_upd; simpl;
      destruct (decide (r = tab)); reflexivity. }
  destruct Hg1 as (G1 & G2 & G3 & G4 & G5 & G6 & G7).
  do 5 (split; [congruence|]). split.
  - intros r. rewrite H6. apply G6.
  - intros r. rewrite H7. apply G7.
Qed.

Lemma ui_step_invariant (g g' : DockGroup) :
  ui_step g g' -> group_wf g /\ selection_ok g -> group_wf g' /\ selection_ok g'.
Proof.
  intros Hstep [Hwf Hsel].
  destruct Hstep as [g g' Hstep|ex ey g|ex ey button g|w g|tab g].
  - split; [|exact (step_ok g g' Hstep Hsel)].
    destruct Hstep as [e o g|n g|n g|o g|tk g|tk a g].
    + unfold append_item, container_add.
      destruct (isinstance_Widget o); [|exact Hwf].
      unfold bind, get. destruct (e || holds g o); [exact Hwf|].
      apply do_add_wf. exact Hwf.
    + rewrite (proj1 (remove_item_raises n g)). exact Hwf.
    + apply set_current_item_wf. exact Hwf.
    + unfold container_remove.
      destruct (isinstance_Widget o); [|exact Hwf].
      unfold bind, get. destruct (holds g o); [|exact Hwf].
      apply do_remove_wf. exact Hwf.
    + apply do_size_request_wf. exact Hwf.
    + apply do_size_allocate_wf; assumption.
  - unfold do_motion_notify_event, modify. cbn [snd].
    destruct (notify_tabs_shape (_visible_tabs g) ex ey g)
      as (H1 & H2 & H3 & H4 & H5 & H6 & _).
    split.
    + unfold group_wf. rewrite H1, H2, H3. exact Hwf.
    + apply (selection_ok_same g); [|exact Hsel]. repeat split; assumption.
  - unfold do_button_release_event, bind, get, ret, lift, tabs_index.
    destruct (tab_at g ex ey) as [tab|]; [|cbn; auto].
    destruct (button =? 1); [|cbn; auto].
    destruct (index (_tabs g) tab) as [i|]; [|cbn; auto].
    pose proof (set_current_item_eq (Z.of_nat i) g) as Heq.
    pose proof (set_current_item_wf g (Z.of_nat i) Hwf) as Hwf'.
    pose proof (selection_ok_resized g (Z.of_nat i)) as Hsel'.
    destruct (set_current_item (Z.of_nat i) g) as [[[]|e] g1]; cbn in *; auto.
  - unfold _on_tab_button_clicked, container_remove. cbn [isinstance_Widget].
    unfold bind, get. destruct (holds g (DockItem w)); [|auto].
    split; [apply do_remove_wf; exact Hwf|].
    exact (settles_ok _ _ (do_remove_settles (DockItem w) g) Hsel).
  - unfold _on_list_menu_item_activated, bind, get, lift, tabs_index.
    destruct (index (_tabs g) tab) as [i|]; [|cbn; auto].
    split; [apply set_current_item_wf; exact Hwf|apply selection_ok_resized].
Qed.

Lemma ui_reachable_wf (g : DockGroup) :
  ui_reachable g -> group_wf g /\ selection_ok g.
Proof.
  induction 1 as [|g g' _ IH Hstep].
  - split.
    + unfold group_wf. simpl. split; [constructor|]. split; [|constructor].
      intros r Hin. inversion Hin.
    + unfold selection_ok. simpl. auto.
  - exact (ui_step_invariant g g' Hstep IH).
Qed.

(** X3: in every state a group gets to by calls of its item operations, by
    size passes, pointer motion, button releases, close-button clicks and
    menu activations, the tab objects are distinct, every visible tab is a
    tab and the visible tabs are in the tabs' order, and the selection is
    valid: no current index without tabs, else an index into the tabs whose
    tab holds the current item. *)
Theorem ui_invariant (g : DockGroup) :
  ui_reachable g ->
  NoDup (_tabs g) /\
  _visible_tabs g `sublist_of` _tabs g /\
  (_current_index g = None <-> _tabs g = []) /\
  (forall c, _current_index g = Some c ->
     0 <= c < get_n_items g /\
     exists r, _tabs g !! Z.to_nat c = Some r /\
               _current_item g = Some (tab_item g r)).
Proof.
  intros Hreach.
  destruct (ui_reachable_wf g Hreach) as [(Hdup & _ & Hsub) Hsel].
  split; [exact Hdup|]. split; [exact Hsub|].
  unfold selection_ok in Hsel.
  destruct (_current_index g) as [c|] eqn:Hcur.
  - destruct Hsel as [Hr Hitem]. split.
    + split; [discriminate|]. intros Hnil. unfold get_n_items in Hr.
      rewrite Hnil in Hr. simpl in Hr. lia.
    + intros c' [= <-]. auto.
  - destruct Hsel as [Hnil _]. split; [tauto|]. discriminate.
Qed.

Lemma reachable_ui (g : DockGroup) : reachable g -> ui_reachable g.
Proof.
  induction 1 as [|g g' _ IH Hstep]; [constructor|].
  eapply ui_reachable_step; [exact IH|]. apply ui_call. exact Hstep.
Qed.

Lemma three_items_requested_reachable : ui_reachable three_items_requested.
Proof.
  apply reachable_ui. unfold three_items_requested, three_items_middle.
  eapply reachable_step; [|apply step_size_request].
  eapply reachable_step; [|apply step_set_current_item].
  exact three_items_reachable.
Defined.

Lemma three_items_requested_widths :
  _tabs three_items_requested <> [] /\
  forall r, r ∈ _tabs three_items_requested -> tab_width three_items_requested r = 86.
Proof.
  split; [vm_compute; discriminate|].
  intros r Hr. change (_tabs three_items_requested) with [0; 1; 2]%nat in Hr.
  repeat (apply elem_of_cons in Hr; destruct Hr as [->|Hr]; [reflexivity|]).
  inversion Hr.
Defined.

Lemma three_items_laid_out_reachable : ui_reachable three_items_laid_out.
Proof.
  unfold three_items_laid_out.
  eapply ui_reachable_step; [exact three_items_requested_reachable|].
  apply ui_call, step_size_allocate.
Defined.

Lemma ui_invariant_witness :
  ui_reachable three_items_laid_out /\
  _visible_tabs three_items_laid_out `sublist_of` _tabs three_items_laid_out.
Proof.
  split; [exact three_items_laid_out_reachable|].
  exact (proj1 (proj2 (ui_invariant three_items_laid_out three_items_laid_out_reachable))).
Defined.

(** *** Pointer motion *)

(** A tab in the state the pointer asks for is left alone. *)
Lemma notify_tabs_settled (vis : list tabref) (ex ey : QArith_base.Q) (g : DockGroup) :
  (forall r, r ∈ vis -> state (tab_store g r) = hover_state g ex ey r) ->
  notify_tabs vis ex ey g = g.
Proof.
  induction vis as [|tab rest IH]; intros Hall; simpl; [reflexivity|].
  pose proof (Hall tab ltac:(apply elem_of_cons; auto)) as Htab.
  unfold hover_state in Htab.
  destruct (_rect_contains (area (tab_store g tab)) ex ey); rewrite Htab;
    apply IH; intros r Hin; apply Hall; apply elem_of_cons; auto.
Qed.

Lemma notify_tabs_states (vis : list tabref) (ex ey : QArith_base.Q) :
  forall g r,
    state (tab_store (notify_tabs vis ex ey g) r) =
      if bool_decide (r ∈ vis) then hover_state g ex ey r else state (tab_store g r).
Proof.
  induction vis as [|tab rest IH]; intros g r; cbn [notify_tabs].
  - rewrite bool_decide_eq_false_2; [reflexivity|]. intros H; inversion H.
  - match goal with |- context [notify_tabs rest ex ey ?g'] => set (g1 := g') end.
    rewrite IH.
    assert (Harea : forall r', area (tab_store g1 r') = area (tab_store g r')).
    { intros r'. unfold g1.
      destruct (_rect_contains _ _ _), (state (tab_store g tab)); try reflexivity;
        unfold upd_tab, store_upd; simpl; destruct (decide (r' = tab)); reflexivity. }
    assert (Hstate : forall r', state (tab_store g1 r') =
                       if decide (r' = tab) then hover_state g ex ey tab
                       else state (tab_store g r')).
    { intros r'. unfold g1, hover_state.
      destruct (_rect_contains (area (tab_store g tab)) ex ey),
               (state (tab_store g tab)) eqn:Hst;
        unfold upd_tab, store_upd; simpl;
        destruct (decide (r' = tab)) as [->|]; try reflexivity; exact Hst. }
    assert (Hhover : hover_state g1 ex ey r = hover_state g ex ey r).
    { unfold hover_state. rewrite Harea. reflexivity. }
    rewrite Hhover, Hstate.
    destruct (bool_decide (r ∈ rest)) eqn:Hrest.
    + apply bool_decide_eq_true in Hrest.
      rewrite bool_decide_eq_true_2; [reflexivity|]. apply elem_of_cons. auto.
    + apply bool_decide_eq_false in Hrest.
      destruct (decide (r = tab)) as [->|Hne].
      * rewrite bool_decide_eq_true_2; [reflexivity|]. apply elem_of_cons. auto.
      * rewrite bool_decide_eq_false_2; [reflexivity|].
        intros Hin. apply elem_of_cons in Hin. destruct Hin; auto.
Qed.

(** X4: after a pointer motion event every visible tab whose area strictly
    contains the pointer is prelighted and every other visible tab is
    normal; hidden tabs keep their state; tabs, visible tabs, selection and
    tab areas are as before; and the same event once more changes nothing
    at all, so no further resize is requested while the pointer rests. *)
Theorem motion_prelights (ex ey : QArith_base.Q) (g : DockGroup) :
  let g' := (do_motion_notify_event ex ey g).2 in
  (do_motion_notify_event ex ey g).1 = Ok tt /\
  (forall r, state (tab_store g' r) =
               if bool_decide (r ∈ _visible_tabs g)
               then (if _rect_contains (area (tab_store g r)) ex ey
                     then STATE_PRELIGHT else STATE_NORMAL)
               else state (tab_store g r)) /\
  (forall r, area (tab_store g' r) = area (tab_store g r)) /\
  _tabs g' = _tabs g /\ _visible_tabs g' = _visible_tabs g /\
  _current_index g' = _current_index g /\ _current_item g' = _current_item g /\
  do_motion_notify_event ex ey g' = (Ok tt, g').
Proof.
  intros g'. subst g'. unfold do_motion_notify_event, modify. cbn [fst snd].
  destruct (notify_tabs_shape (_visible_tabs g) ex ey g)
    as (H1 & H2 & _ & H4 & H5 & _ & H7).
  split; [reflexivity|]. split; [intros r; apply notify_tabs_states|].
  split; [exact H7|]. do 4 (split; [assumption|]).
  rewrite H2. f_equal. apply notify_tabs_settled.
  intros r Hin. rewrite notify_tabs_states.
  rewrite bool_decide_eq_true_2 by exact Hin.
  unfold hover_state. rewrite H7. reflexivity.
Qed.

(** *** Button release *)

(** X5: a button release in a reachable group returns True; over no
    visible tab, or with a button other than 1, it leaves the group as it
    was; with button 1 over a visible tab it makes the first visible tab
    under the pointer the current tab and its item the current item. *)
Theorem release_selects (ex ey : QArith_base.Q) (button : Z) (g : DockGroup) :
  ui_reachable g ->
  let r := do_button_release_event ex ey button g in
  r.1 = Ok true /\
  match tab_at g ex ey with
  | None =>
      r.2 = g /\
      forall tab, tab ∈ _visible_tabs g ->
                  _rect_contains (area (tab_store g tab)) ex ey = false
  | Some tab =>
      tab ∈ _visible_tabs g /\
      _rect_contains (area (tab_store g tab)) ex ey = true /\
      if button =? 1
      then exists i, _tabs g !! i = Some tab /\
                     _current_index r.2 = Some (Z.of_nat i) /\
                     _current_item r.2 = Some (tab_item g tab) /\
                     _tabs r.2 = _tabs g
      else r.2 = g
  end.
Proof.
  intros Hreach r. subst r.
  destruct (ui_reachable_wf g Hreach) as [(Hdup & _ & Hsub) _].
  unfold do_button_release_event, bind, get, ret, lift, tabs_index, tab_at.
  destruct (List.find _ (_visible_tabs g)) as [tab|] eqn:Hfind.
  - apply List.find_some in Hfind. destruct Hfind as [Hin Hcont].
    apply list_elem_of_In in Hin.
    destruct (button =? 1); [|cbn; auto].
    assert (Hintabs : tab ∈ _tabs g) by (eapply elem_of_sublist; eassumption).
    destruct (index_elem _ _ Hintabs) as [i Hi]. rewrite Hi.
    destruct (index_Some _ _ _ Hi) as [Hlook _].
    rewrite set_current_item_eq. cbn [fst snd].
    split; [reflexivity|]. split; [exact Hin|]. split; [exact Hcont|].
    exists i. split; [exact Hlook|].
    assert (Hne : _tabs g <> []) by (intros Hnil; rewrite Hnil in Hlook; discriminate).
    rewrite selected_nonempty by exact Hne.
    cbn [_current_index _current_item _tabs call set_current].
    assert (Hclamp : clamp_index (get_n_items g) (Z.of_nat i) = Z.of_nat i).
    { apply lookup_lt_Some in Hlook. unfold clamp_index, get_n_items.
      destruct (Z.ltb_spec (Z.of_nat i) 0); [lia|].
      destruct (Z.leb_spec (Z.of_nat (length (_tabs g))) (Z.of_nat i)); lia. }
    rewrite Hclamp, Nat2Z.id, Hlook. auto.
  - cbn. split; [reflexivity|]. split; [reflexivity|].
    intros tab Hin. apply list_elem_of_In in Hin.
    exact (List.find_none _ _ Hfind tab Hin).
Qed.

Lemma release_selects_witness :
  ui_reachable three_items_laid_out /\
  _current_index
    (do_button_release_event (QArith_base.Qmake 200 1) (QArith_base.Qmake 10 1) 1
       three_items_laid_out).2 = Some 2.
Proof.
  split; [exact three_items_laid_out_reachable|].
  pose proof (release_selects (QArith_base.Qmake 200 1) (QArith_base.Qmake 10 1) 1
                three_items_laid_out three_items_laid_out_reachable) as H.
  cbv zeta in H. destruct H as [_ H].
  change (tab_at three_items_laid_out (QArith_base.Qmake 200 1) (QArith_base.Qmake 10 1))
    with (Some 2%nat) in H.
  destruct H as (_ & _ & H). change (1 =? 1) with true in H.
  destruct H as (i & Hlook & Hidx & _).
  assert (i = 2%nat) as ->.
  { destruct (ui_reachable_wf _ three_items_laid_out_reachable) as [(Hdup & _) _].
    eapply NoDup_lookup; [exact Hdup|exact Hlook|reflexivity]. }
  exact Hidx.
Defined.

(** *** The item operations *)

(** [item_num] finds the first tab holding the item. *)
Lemma find_index (P : nat -> bool) (l : list nat) (r : nat) :
  List.find P l = Some r ->
  exists p, index l r = Some p /\ l !! p = Some r /\ P r = true /\
            forall q y, (q < p)%nat -> l !! q = Some y -> P y = false.
Proof.
  induction l as [|y l IH]; simpl; [discriminate|].
  destruct (P y) eqn:Hy.
  - intros [= <-]. exists 0%nat. destruct (decide (y = y)); [|congruence].
    repeat split; auto. intros q z Hq. lia.
  - intros Hfind. destruct (IH Hfind) as (p & Hidx & Hlook & HP & Hbefore).
    exists (S p). destruct (decide (y = r)) as [->|Hne]; [congruence|].
    rewrite Hidx. repeat split; auto.
    intros [|q] z Hq Hz; simpl in Hz.
    + congruence.
    + apply (Hbefore q z); [lia|exact Hz].
Qed.

Lemma get_nth_item_lookup (g : DockGroup) (n : Z) :
  get_nth_item g n =
    if (0 <=? n) && (n <? get_n_items g)
    then tab_item g <$> (_tabs g !! Z.to_nat n) else None.
Proof.
  unfold get_nth_item.
  destruct (Z.leb_spec 0 n); simpl;
    [|destruct (n <=? get_n_items g - 1); reflexivity].
  destruct (Z.leb_spec n (get_n_items g - 1)), (Z.ltb_spec n (get_n_items g));
    try lia; [|reflexivity].
  destruct (getitem_in_range (_tabs g) n) as (r & Hlook & Hget);
    [unfold get_n_items in *; lia|].
  rewrite Hget, Hlook. reflexivity.
Qed.

(** The index [item_num] gives holds the item, and no smaller one does. *)
Lemma item_num_first (g : DockGroup) (w : widget_id) (i : Z) :
  item_num g (DockItem w) = Some i ->
  0 <= i < get_n_items g /\
  get_nth_item g i = Some w /\
  (forall j, 0 <= j < i -> get_nth_item g j <> Some w).
Proof.
  intros Hnum. destruct (item_num_Some _ _ _ Hnum) as (Hi & r & Hidx & Hlook & Hitem).
  split; [exact Hi|]. split.
  - rewrite get_nth_item_lookup.
    destruct (Z.leb_spec 0 i), (Z.ltb_spec i (get_n_items g)); try lia.
    simpl. rewrite Hlook. simpl. rewrite Hitem. reflexivity.
  - intros j Hj. rewrite get_nth_item_lookup.
    destruct (Z.leb_spec 0 j), (Z.ltb_spec j (get_n_items g)); try lia. simpl.
    unfold item_num in Hnum.
    destruct (List.find _ _) as [r'|] eqn:Hfind; [|discriminate].
    destruct (find_index _ _ _ Hfind) as (p & Hidx' & _ & _ & Hbefore).
    rewrite Hidx' in Hnum. simpl in Hnum. injection Hnum as <-.
    destruct (_tabs g !! Z.to_nat j) as [y|] eqn:Hy; [|discriminate].
    simpl. intros [= Hw].
    specialize (Hbefore (Z.to_nat j) y ltac:(lia) Hy).
    simpl in Hbefore. apply bool_decide_eq_false in Hbefore. auto.
Qed.

(** X6: [item_num] and [get_nth_item] agree: the index [item_num] gives for
    a DockItem is in range, [get_nth_item] gives that item back there, and
    no smaller index holds it; an index outside the group gives [None], and
    so does [item_num] for anything that is not a DockItem. *)
Theorem item_num_get_nth_item (g : DockGroup) (w : widget_id) (i : Z) :
  item_num g (DockItem w) = Some i ->
  0 <= i < get_n_items g /\
  get_nth_item g i = Some w /\
  (forall j, 0 <= j < i -> get_nth_item g j <> Some w) /\
  (forall j, j < 0 \/ get_n_items g <= j -> get_nth_item g j = None) /\
  (forall o, isinstance_DockItem o = false -> item_num g o = None).
Proof.
  intros Hnum. destruct (item_num_first g w i Hnum) as (Hi & Hnth & Hfirst).
  split; [exact Hi|]. split; [exact Hnth|]. split; [exact Hfirst|]. split.
  - intros j Hj. rewrite get_nth_item_lookup.
    destruct (Z.leb_spec 0 j), (Z.ltb_spec j (get_n_items g)); try lia; reflexivity.
  - intros o Ho. destruct o; try discriminate; unfold item_num; simpl;
      (destruct (List.find _ _) eqn:Hfind; [|reflexivity]);
      apply List.find_some in Hfind; destruct Hfind; discriminate.
Qed.

Lemma item_num_get_nth_item_witness :
  item_num three_items (DockItem 11%nat) = Some 1 /\
  get_nth_item three_items 1 = Some 11%nat.
Proof.
  split; [reflexivity|].
  exact (proj1 (proj2 (item_num_get_nth_item three_items 11%nat 1 eq_refl))).
Defined.

Lemma item_num_None (g : DockGroup) (w : widget_id) :
  item_num g (DockItem w) = None <-> forall r, r ∈ _tabs g -> tab_item g r <> w.
Proof.
  split.
  - intros Hnone r Hin Hitem.
    destruct (item_num_is_Some g w r Hin Hitem) as [n Hn]. congruence.
  - intros Hall. destruct (item_num g (DockItem w)) as [i|] eqn:Hnum; [|reflexivity].
    destruct (item_num_Some _ _ _ Hnum) as (_ & r & _ & Hlook & Hitem).
    exfalso. apply (Hall r); [|exact Hitem].
    apply list_elem_of_lookup. eauto.
Qed.

(** What [do_add] does with a DockItem. *)
Lemma do_add_facts (w : widget_id) (g : DockGroup) :
  let g' := (do_add (DockItem w) g).2 in
  (do_add (DockItem w) g).1 = Ok tt /\
  _tabs g' = _tabs g ++ [next_tab g] /\
  get_n_items g' = get_n_items g + 1 /\
  get_nth_item g' (get_n_items g) = Some w /\
  _current_item g' = Some w /\
  exists n, get_current_item g' = Some n /\ item_num g' (DockItem w) = Some n /\
            get_nth_item g' n = Some w.
Proof.
  intros g'. subst g'.
  destruct (do_add_item_eq g w) as (n & Heq & Hn). rewrite Heq.
  rewrite set_current_item_eq. cbn [fst snd].
  set (g3 := set_tabs _ (call _ _)) in *.
  set (g3' := set_tabs _ (set_store _ _ _)) in *.
  assert (Hnum3 : item_num g3 (DockItem w) = Some n) by exact Hn.
  destruct (item_num_Some _ _ _ Hnum3) as (Hrange & r & _ & Hlook & Hitem).
  assert (Htabs3 : _tabs g3 = _tabs g ++ [next_tab g]) by reflexivity.
  assert (Hne : _tabs g3 <> []).
  { rewrite Htabs3. destruct (_tabs g); discriminate. }
  assert (Hcount : get_n_items g3 = get_n_items g + 1).
  { unfold get_n_items. rewrite Htabs3, length_app. simpl. lia. }
  assert (Hclamp : clamp_index (get_n_items g3) n = n).
  { unfold clamp_index. destruct (Z.ltb_spec n 0); [lia|].
    destruct (Z.leb_spec (get_n_items g3) n); lia. }
  set (gs := call [queue_resize] (selected g3 n)).
  assert (Hshape : _tabs gs = _tabs g3 /\ tab_item gs = tab_item g3 /\
                   _current_index gs = Some n /\ _current_item gs = Some w).
  { unfold gs. rewrite selected_nonempty by exact Hne. rewrite Hclamp, Hlook.
    simpl. rewrite Hitem. auto. }
  destruct Hshape as (Ht & Hti & Hci & Hcw).
  assert (Hnth : forall k, get_nth_item gs k = get_nth_item g3 k).
  { intros k. rewrite !get_nth_item_lookup. unfold get_n_items. rewrite Ht, Hti.
    reflexivity. }
  split; [reflexivity|]. split; [rewrite Ht; exact Htabs3|].
  split; [unfold get_n_items in *; rewrite Ht; exact Hcount|].
  split.
  { rewrite Hnth, get_nth_item_lookup, Hcount.
    destruct (Z.leb_spec 0 (get_n_items g)), (Z.ltb_spec (get_n_items g) (get_n_items g + 1));
      try (unfold get_n_items in *; lia).
    cbn [andb]. rewrite Htabs3. unfold get_n_items. rewrite Nat2Z.id.
    rewrite lookup_app_r by lia. rewrite Nat.sub_diag. cbn [lookup list_lookup fmap option_fmap option_map].
    unfold tab_item, g3, store_upd. simpl.
    destruct (decide (next_tab g = next_tab g)); [reflexivity|congruence]. }
  split; [exact Hcw|].
  exists n. split; [unfold get_current_item; rewrite Hcw; exact Hci|].
  split.
  { unfold item_num in *. rewrite Ht. unfold item_matches in *.
    assert (Hst : tab_store gs = tab_store g3).
    { unfold gs. destruct (selected_shape g3 n) as (_ & _ & Hs). exact Hs. }
    rewrite Hst. exact Hnum3. }
  rewrite Hnth, get_nth_item_lookup.
  destruct (Z.leb_spec 0 n), (Z.ltb_spec n (get_n_items g3)); try lia.
  cbn [andb]. rewrite Hlook. cbn [fmap option_fmap option_map]. rewrite Hitem. reflexivity.
Qed.

(** [append_item] with a DockItem that has no parent is [do_add]. *)
Lemma append_item_free (w : widget_id) (g : DockGroup) :
  holds g (DockItem w) = false ->
  append_item false (DockItem w) g = (Ok tt, (do_add (DockItem w) g).2).
Proof.
  intros Hfree. unfold append_item, container_add. cbn [isinstance_Widget].
  unfold bind, get. rewrite Hfree. reflexivity.
Qed.

(** X7: [append_item] with something that is no widget raises TypeError
    and leaves the group as it was.  With a widget it returns, and it
    leaves the group as it was when the widget is no DockItem (the
    exception of [do_add] does not reach the caller) or has a parent
    already, in this group or elsewhere: no item gets a second tab.  With a
    DockItem that has no parent it adds one tab for the item at the end of
    the tabs and keeps the tabs before it, and makes the item the current
    item, at an index where [get_nth_item] gives it back. *)
Theorem append_item_appends (elsewhere : bool) (o : pyobj) (g : DockGroup) :
  let g' := (append_item elsewhere o g).2 in
  match o with
  | DockItem w =>
      (append_item elsewhere o g).1 = Ok tt /\
      if elsewhere || holds g o then g' = g
      else
        _tabs g' = _tabs g ++ [next_tab g] /\
        get_n_items g' = get_n_items g + 1 /\
        get_nth_item g' (get_n_items g) = Some w /\
        _current_item g' = Some w /\
        exists n, get_current_item g' = Some n /\ item_num g' o = Some n /\
                  get_nth_item g' n = Some w
  | OtherWidget _ => append_item elsewhere o g = (Ok tt, g)
  | _ => append_item elsewhere o g = (Raise TypeError, g)
  end.
Proof.
  intros g'. subst g'. destruct o as [w|w|r|]; try reflexivity.
  - unfold append_item, container_add. cbn [isinstance_Widget].
    unfold bind, get. destruct (elsewhere || holds g (DockItem w)); [auto|].
    split; [reflexivity|]. exact (proj2 (do_add_facts w g)).
  - unfold append_item, container_add. cbn [isinstance_Widget].
    unfold bind, get. destruct (elsewhere || holds g (OtherWidget w)); reflexivity.
Qed.

(** X8: [append_item] with a DockItem that has no parent, on a reachable
    group, puts it at the index that was the count and makes that the
    current index, and every index below it holds the item it held. *)
Theorem append_item_new (w : widget_id) (g : DockGroup) :
  ui_reachable g ->
  holds g (DockItem w) = false ->
  let g' := (append_item false (DockItem w) g).2 in
  get_current_item g' = Some (get_n_items g) /\
  item_num g' (DockItem w) = Some (get_n_items g) /\
  forall j, 0 <= j < get_n_items g -> get_nth_item g' j = get_nth_item g j.
Proof.
  intros Hreach Hfree g'.
  assert (Hnone : item_num g (DockItem w) = None).
  { unfold holds in Hfree. destruct (item_num g (DockItem w)); [discriminate|reflexivity]. }
  destruct (ui_reachable_wf g Hreach) as [(_ & Hfresh & _) _].
  pose proof (do_add_facts w g) as Happ. cbv zeta in Happ.
  assert (Hg' : g' = (do_add (DockItem w) g).2).
  { unfold g'. rewrite (append_item_free w g Hfree). reflexivity. }
  rewrite <- Hg' in Happ.
  destruct Happ as (_ & Htabs & Hcount & Hnth & Hcw & n & Hcur & Hnum & _).
  assert (Hstore : forall r, r <> next_tab g -> tab_item g' r = tab_item g r).
  { intros r Hr. rewrite Hg'.
    destruct (do_add_item_eq g w) as (n' & Heq & _). rewrite Heq.
    rewrite set_current_item_eq. cbn [snd]. unfold tab_item. cbn [call tab_store].
    destruct (selected_shape
                (set_tabs (_tabs g ++ [next_tab g])
                   (call [set_parent (TItem w); set_parent (TPeer Image (next_tab g));
                          set_parent (TPeer Label (next_tab g));
                          set_parent (TPeer Button (next_tab g)); menu_append (next_tab g)]
                      (set_store (store_upd (next_tab g)
                                    (fun _ => mkTab w STATE_NORMAL Rectangle0) (tab_store g))
                                 (S (next_tab g)) g))) n') as (_ & _ & Hs).
    rewrite Hs. simpl. unfold store_upd. destruct (decide (r = next_tab g)); [congruence|].
    reflexivity. }
  assert (Hold : forall j, 0 <= j < get_n_items g ->
                           get_nth_item g' j = get_nth_item g j).
  { intros j Hj. rewrite !get_nth_item_lookup, Hcount.
    destruct (Z.leb_spec 0 j), (Z.ltb_spec j (get_n_items g)),
             (Z.ltb_spec j (get_n_items g + 1)); try lia.
    simpl. rewrite Htabs. unfold get_n_items in Hj.
    rewrite lookup_app_l by lia.
    destruct (_tabs g !! Z.to_nat j) as [r|] eqn:Hr; [|reflexivity]. simpl.
    rewrite Hstore; [reflexivity|].
    assert (Hin : r ∈ _tabs g) by (apply list_elem_of_lookup; eauto).
    specialize (Hfresh r Hin). lia. }
  assert (Hn : n = get_n_items g).
  { destruct (item_num_first g' w n Hnum) as (Hr & _ & Hfirst).
    destruct (Z.lt_trichotomy n (get_n_items g)) as [Hlt|[Heq|Hgt]].
    - exfalso. rewrite item_num_None in Hnone.
      destruct (item_num_Some _ _ _ Hnum) as (_ & r & _ & Hlook & Hitem).
      rewrite Htabs in Hlook. unfold get_n_items in Hlt.
      rewrite lookup_app_l in Hlook by lia.
      assert (Hin : r ∈ _tabs g) by (apply list_elem_of_lookup; eauto).
      apply (Hnone r Hin). rewrite <- Hstore; [exact Hitem|].
      specialize (Hfresh r Hin). lia.
    - exact Heq.
    - exfalso. apply (Hfirst (get_n_items g)); [unfold get_n_items; lia|exact Hnth]. }
  subst n. auto.
Qed.

Lemma append_item_new_witness :
  ui_reachable three_items_laid_out /\
  holds three_items_laid_out (DockItem 13%nat) = false /\
  get_current_item (append_item false (DockItem 13%nat) three_items_laid_out).2 = Some 3.
Proof.
  split; [exact three_items_laid_out_reachable|]. split; [reflexivity|].
  exact (proj1 (append_item_new 13%nat three_items_laid_out
                  three_items_laid_out_reachable eq_refl)).
Defined.

(** X9: [do_remove] with a DockItem the group does not hold changes
    nothing: it returns silently when the group has no tabs and raises
    TypeError when it has. *)
Theorem do_remove_absent (w : widget_id) (g : DockGroup) :
  item_num g (DockItem w) = None ->
  do_remove (DockItem w) g =
    ((match _tabs g with [] => Ok tt | _ :: _ => Raise TypeError end), g).
Proof.
  intros Hnone. unfold do_remove. simpl. unfold bind at 1. unfold get at 1.
  destruct (_tabs g); [reflexivity|]. rewrite Hnone. reflexivity.
Qed.

Lemma do_remove_absent_witness :
  item_num three_items (DockItem 99%nat) = None /\
  do_remove (DockItem 99%nat) three_items = (Raise TypeError, three_items).
Proof.
  split; [reflexivity|].
  exact (do_remove_absent 99%nat three_items eq_refl).
Defined.

(** X10: [remove_item] never removes anything: for an index outside
    [-count, count) it raises IndexError, for every other index TypeError,
    and the group is as it was. *)
Theorem remove_item_never_removes (n : Z) (g : DockGroup) :
  remove_item n g =
    (Raise (if (- get_n_items g <=? n) && (n <? get_n_items g)
            then TypeError else IndexError), g).
Proof.
  unfold remove_item, bind, get, lift, getitem, get_n_items.
  set (len := Z.of_nat (length (_tabs g))).
  destruct (Z.ltb_spec n 0) as [Hneg|Hpos].
  - destruct (Z.leb_spec 0 (n + len)), (Z.leb_spec (- len) n); try lia; simpl;
      [|reflexivity].
    destruct (Z.ltb_spec (n + len) len), (Z.ltb_spec n len); try lia.
    destruct (lookup_lt_is_Some_2 (_tabs g) (Z.to_nat (n + len))) as [r Hr];
      [unfold len in *; lia|].
    rewrite Hr. reflexivity.
  - destruct (Z.leb_spec 0 n), (Z.leb_spec (- len) n); try lia. simpl.
    destruct (Z.ltb_spec n len); [|reflexivity].
    destruct (lookup_lt_is_Some_2 (_tabs g) (Z.to_nat n)) as [r Hr];
      [unfold len in *; lia|].
    rewrite Hr. reflexivity.
Qed.

(** *** The admission loops in full *)

Lemma total_width_app (g : DockGroup) (l k : list tabref) :
  total_width g (l ++ k) = total_width g l + total_width g k.
Proof. induction l as [|r l IH]; simpl; [reflexivity|]. rewrite IH. lia. Qed.

Lemma total_width_rev (g : DockGroup) (l : list tabref) :
  total_width g (rev l) = total_width g l.
Proof.
  induction l as [|r l IH]; simpl; [reflexivity|].
  rewrite total_width_app, IH. simpl. lia.
Qed.

Lemma total_width_nonneg (g : DockGroup) (l : list tabref) :
  (forall r, r ∈ l -> 0 <= tab_width g r) -> 0 <= total_width g l.
Proof.
  induction l as [|r l IH]; intros Hall; simpl; [lia|].
  assert (0 <= tab_width g r) by (apply Hall; apply elem_of_cons; auto).
  assert (0 <= total_width g l) by (apply IH; intros r' Hr'; apply Hall; apply elem_of_cons; auto).
  lia.
Qed.

Lemma total_width_take_le (g : DockGroup) (l : list tabref) (k : nat) :
  (forall r, r ∈ l -> 0 <= tab_width g r) ->
  0 <= total_width g (take k l) <= total_width g l.
Proof.
  intros Hall. rewrite <- (take_drop k l) at 3. rewrite total_width_app.
  assert (0 <= total_width g (take k l)).
  { apply total_width_nonneg. intros r Hr. apply Hall.
    eapply elem_of_sublist; [exact Hr|]. apply sublist_take. }
  assert (0 <= total_width g (drop k l)).
  { apply total_width_nonneg. intros r Hr. apply Hall.
    eapply elem_of_sublist; [exact Hr|]. apply sublist_drop. }
  lia.
Qed.

Lemma total_width_take_S (g : DockGroup) (l : list tabref) (k : nat) (t : tabref) :
  l !! k = Some t ->
  total_width g (take (S k) l) = total_width g (take k l) + tab_width g t.
Proof.
  intros Hl. rewrite (take_S_r l k t Hl), total_width_app. simpl. lia.
Qed.

Ltac eq2 :=
  apply (f_equal2 pair);
  [simpl; lia|simpl; rewrite <- ?app_assoc, ?app_nil_r; reflexivity].
Ltac eq3 :=
  apply (f_equal2 pair);
  [apply (f_equal2 pair); simpl; lia
  |simpl; rewrite <- ?app_assoc, ?app_nil_r; reflexivity].

(** What each loop has done when it stops. *)
Lemma admit_left_full (g : DockGroup) (m : Z) (ts : list tabref) :
  forall count avail vis,
  exists k,
    (k <= length ts)%nat /\
    admit_left g m ts count avail vis
      = (count + Z.of_nat k, avail - total_width g (take k ts), rev (take k ts) ++ vis) /\
    ((0 < k)%nat -> 0 <= avail - total_width g (take k ts) /\ count + Z.of_nat k <= m) /\
    (forall t, ts !! k = Some t ->
       avail - total_width g (take k ts) - tab_width g t < 0 \/ m <= count + Z.of_nat k).
Proof.
  induction ts as [|tab rest IH]; intros count avail vis; cbn [admit_left].
  - exists 0%nat. split; [simpl; lia|]. split; [eq3|].
    split; [lia|]. intros t Ht. discriminate.
  - destruct (Z.leb_spec 0 (avail - tab_width g tab)) as [Hfit|Hno].
    2:{ exists 0%nat. split; [simpl; lia|]. split; [eq3|].
        split; [lia|]. intros t [= <-]. simpl. left. lia. }
    destruct (Z.ltb_spec count m) as [Hlt|Hge].
    2:{ exists 0%nat. split; [simpl; lia|]. split; [eq3|].
        split; [lia|]. intros t [= <-]. right. lia. }
    destruct (IH (count + 1) (avail - tab_width g tab) (tab :: vis))
      as (k & Hk & Heq & Hpos & Hstop).
    exists (S k). split; [simpl; lia|]. split.
    { rewrite Heq. eq3. }
    split.
    + intros _. simpl. destruct k as [|k'].
      * simpl. lia.
      * destruct (Hpos ltac:(lia)) as [H1 H2]. simpl in *. lia.
    + intros t Ht. simpl in Ht. destruct (Hstop t Ht) as [H|H]; [left|right];
        simpl; lia.
Qed.

Lemma admit_right_full (g : DockGroup) (ts : list tabref) :
  forall avail vis,
  exists k,
    (k <= length ts)%nat /\
    admit_right g ts avail vis
      = (avail - total_width g (take k ts), vis ++ take k ts) /\
    ((0 < k)%nat -> 0 <= avail - total_width g (take k ts)) /\
    (forall t, ts !! k = Some t ->
       avail - total_width g (take k ts) - tab_width g t < 0).
Proof.
  induction ts as [|tab rest IH]; intros avail vis; cbn [admit_right].
  - exists 0%nat. split; [simpl; lia|]. split; [eq2|].
    split; [lia|]. intros t Ht. discriminate.
  - destruct (Z.leb_spec 0 (avail - tab_width g tab)) as [Hfit|Hno].
    2:{ exists 0%nat. split; [simpl; lia|].
        split; [eq2|].
        split; [lia|]. intros t [= <-]. simpl. lia. }
    destruct (IH (avail - tab_width g tab) (vis ++ [tab])) as (k & Hk & Heq & Hpos & Hstop).
    exists (S k). split; [simpl; lia|]. split.
    { rewrite Heq. eq2. }
    split.
    + intros _. simpl. destruct k as [|k'].
      * simpl. lia.
      * specialize (Hpos ltac:(lia)). simpl in *. lia.
    + intros t Ht. simpl in Ht. specialize (Hstop t Ht). simpl. lia.
Qed.

Lemma admit_extra_full (g : DockGroup) (ts : list tabref) :
  forall avail vis,
  exists k,
    (k <= length ts)%nat /\
    admit_extra g ts avail vis
      = (avail - total_width g (take k ts), rev (take k ts) ++ vis) /\
    ((0 < k)%nat -> 0 <= avail - total_width g (take k ts)) /\
    (forall t, ts !! k = Some t ->
       avail - total_width g (take k ts) - tab_width g t < 0).
Proof.
  induction ts as [|tab rest IH]; intros avail vis; cbn [admit_extra].
  - exists 0%nat. split; [simpl; lia|]. split; [eq2|].
    split; [lia|]. intros t Ht. discriminate.
  - destruct (Z.leb_spec 0 (avail - tab_width g tab)) as [Hfit|Hno].
    2:{ exists 0%nat. split; [simpl; lia|]. split; [eq2|].
        split; [lia|]. intros t [= <-]. simpl. lia. }
    destruct (IH (avail - tab_width g tab) (tab :: vis)) as (k & Hk & Heq & Hpos & Hstop).
    exists (S k). split; [simpl; lia|]. split.
    { rewrite Heq. eq2. }
    split.
    + intros _. simpl. destruct k as [|k'].
      * simpl. lia.
      * specialize (Hpos ltac:(lia)). simpl in *. lia.
    + intros t Ht. simpl in Ht. specialize (Hstop t Ht). simpl. lia.
Qed.

(** Which prefix a loop admits is settled by where it must stop. *)
Lemma admit_left_det (g : DockGroup) (m : Z) (ts : list tabref) :
  forall k count avail vis,
    (k <= length ts)%nat ->
    (forall r, r ∈ take k ts -> 0 <= tab_width g r) ->
    ((0 < k)%nat -> 0 <= avail - total_width g (take k ts) /\ count + Z.of_nat k <= m) ->
    (forall t, ts !! k = Some t ->
       avail - total_width g (take k ts) - tab_width g t < 0 \/ m <= count + Z.of_nat k) ->
    admit_left g m ts count avail vis
      = (count + Z.of_nat k, avail - total_width g (take k ts), rev (take k ts) ++ vis).
Proof.
  induction ts as [|tab rest IH]; intros k count avail vis Hk Hnn Hpos Hstop.
  - destruct k; [|simpl in Hk; lia]. eq3.
  - destruct k as [|k].
    + cbn [admit_left]. specialize (Hstop tab eq_refl). simpl in Hstop.
      destruct (Z.leb_spec 0 (avail - tab_width g tab));
        [|eq3].
      destruct (Z.ltb_spec count m); [lia|]. eq3.
    + cbn [admit_left]. destruct (Hpos ltac:(lia)) as [Hfin Hm].
      assert (Hrest : 0 <= total_width g (take k rest)).
      { apply total_width_nonneg. intros r Hr. apply Hnn. simpl. apply elem_of_cons. auto. }
      simpl in Hfin.
      destruct (Z.leb_spec 0 (avail - tab_width g tab)); [|lia].
      destruct (Z.ltb_spec count m); [|lia].
      rewrite (IH k (count + 1) (avail - tab_width g tab) (tab :: vis)).
      * eq3.
      * simpl in Hk. lia.
      * intros r Hr. apply Hnn. simpl. apply elem_of_cons. auto.
      * intros Hk0. split; lia.
      * intros t Ht. specialize (Hstop t Ht). simpl in Hstop. lia.
Qed.

Lemma admit_right_det (g : DockGroup) (ts : list tabref) :
  forall k avail vis,
    (k <= length ts)%nat ->
    (forall r, r ∈ take k ts -> 0 <= tab_width g r) ->
    ((0 < k)%nat -> 0 <= avail - total_width g (take k ts)) ->
    (forall t, ts !! k = Some t ->
       avail - total_width g (take k ts) - tab_width g t < 0) ->
    admit_right g ts avail vis
      = (avail - total_width g (take k ts), vis ++ take k ts).
Proof.
  induction ts as [|tab rest IH]; intros k avail vis Hk Hnn Hpos Hstop.
  - destruct k; [|simpl in Hk; lia]. eq2.
  - destruct k as [|k].
    + cbn [admit_right]. specialize (Hstop tab eq_refl). simpl in Hstop.
      destruct (Z.leb_spec 0 (avail - tab_width g tab)); [lia|].
      eq2.
    + cbn [admit_right]. specialize (Hpos ltac:(lia)).
      assert (Hrest : 0 <= total_width g (take k rest)).
      { apply total_width_nonneg. intros r Hr. apply Hnn. simpl. apply elem_of_cons. auto. }
      simpl in Hpos.
      destruct (Z.leb_spec 0 (avail - tab_width g tab)); [|lia].
      rewrite (IH k (avail - tab_width g tab) (vis ++ [tab])).
      * eq2.
      * simpl in Hk. lia.
      * intros r Hr. apply Hnn. simpl. apply elem_of_cons. auto.
      * intros Hk0. lia.
      * intros t Ht. specialize (Hstop t Ht). simpl in Hstop. lia.
Qed.

Lemma admit_extra_det (g : DockGroup) (ts : list tabref) :
  forall k avail vis,
    (k <= length ts)%nat ->
    (forall r, r ∈ take k ts -> 0 <= tab_width g r) ->
    ((0 < k)%nat -> 0 <= avail - total_width g (take k ts)) ->
    (forall t, ts !! k = Some t ->
       avail - total_width g (take k ts) - tab_width g t < 0) ->
    admit_extra g ts avail vis
      = (avail - total_width g (take k ts), rev (take k ts) ++ vis).
Proof.
  induction ts as [|tab rest IH]; intros k avail vis Hk Hnn Hpos Hstop.
  - destruct k; [|simpl in Hk; lia]. eq2.
  - destruct k as [|k].
    + cbn [admit_extra]. specialize (Hstop tab eq_refl). simpl in Hstop.
      destruct (Z.leb_spec 0 (avail - tab_width g tab)); [lia|].
      eq2.
    + cbn [admit_extra]. specialize (Hpos ltac:(lia)).
      assert (Hrest : 0 <= total_width g (take k rest)).
      { apply total_width_nonneg. intros r Hr. apply Hnn. simpl. apply elem_of_cons. auto. }
      simpl in Hpos.
      destruct (Z.leb_spec 0 (avail - tab_width g tab)); [|lia].
      rewrite (IH k (avail - tab_width g tab) (tab :: vis)).
      * eq2.
      * simpl in Hk. lia.
      * intros r Hr. apply Hnn. simpl. apply elem_of_cons. auto.
      * intros Hk0. lia.
      * intros t Ht. specialize (Hstop t Ht). simpl in Hstop. lia.
Qed.

(** The result of the admission process: [kl] tabs from the first loop,
    [kr] from the second, [ke] from the third, and why each loop stopped. *)
Lemma admitted_full (g : DockGroup) (strip m : Z) (cur : tabref) (c : Z) :
  0 <= c ->
  _tabs g !! Z.to_nat c = Some cur ->
  exists kl kr ke,
    (kl + ke <= length (left_of g c))%nat /\
    (kr <= length (right_of g c))%nat /\
    admitted g strip m cur c
      = rev (take (kl + ke) (left_of g c)) ++ cur :: take kr (right_of g c) /\
    ((0 < kl)%nat -> Z.of_nat kl <= m) /\
    ((0 < kl + kr + ke)%nat ->
       0 <= strip - tab_width g cur - total_width g (take (kl + ke) (left_of g c))
            - total_width g (take kr (right_of g c))) /\
    (forall t, left_of g c !! kl = Some t ->
       strip - tab_width g cur - total_width g (take kl (left_of g c)) - tab_width g t < 0
       \/ m <= Z.of_nat kl) /\
    (forall t, right_of g c !! kr = Some t ->
       strip - tab_width g cur - total_width g (take kl (left_of g c))
         - total_width g (take kr (right_of g c)) - tab_width g t < 0) /\
    (forall t, left_of g c !! (kl + ke)%nat = Some t ->
       strip - tab_width g cur - total_width g (take (kl + ke) (left_of g c))
         - total_width g (take kr (right_of g c)) - tab_width g t < 0).
Proof.
  intros Hc Hlook.
  pose proof (lookup_lt_Some _ _ _ Hlook) as Hlt.
  unfold admitted.
  rewrite (slice_to_in_range (_tabs g) c) by lia.
  rewrite (slice_from_in_range (_tabs g) (c + 1)) by lia.
  replace (Z.to_nat (c + 1)) with (S (Z.to_nat c)) by lia.
  fold (left_of g c). fold (right_of g c).
  set (L := left_of g c). set (R := right_of g c).
  assert (HlenL : length L = Z.to_nat c).
  { unfold L, left_of. rewrite length_rev, length_take. lia. }
  destruct (admit_left_full g m L 0 (strip - tab_width g cur) [])
    as (kl & Hkl & Heq1 & Hpos1 & Hstop1).
  rewrite Heq1, app_nil_r.
  destruct (admit_right_full g R (strip - tab_width g cur - total_width g (take kl L))
              (rev (take kl L) ++ [cur])) as (kr & Hkr & Heq2 & Hpos2 & Hstop2).
  rewrite Heq2.
  rewrite (slice_to_in_range (_tabs g) (c - (0 + Z.of_nat kl))) by lia.
  assert (Hdrop : rev (take (Z.to_nat (c - (0 + Z.of_nat kl))) (_tabs g)) = drop kl L).
  { unfold L, left_of. rewrite List.skipn_rev. f_equal.
    rewrite take_take, length_take. f_equal. lia. }
  rewrite Hdrop.
  destruct (admit_extra_full g (drop kl L)
              (strip - tab_width g cur - total_width g (take kl L) - total_width g (take kr R))
              ((rev (take kl L) ++ [cur]) ++ take kr R)) as (ke & Hke & Heq3 & Hpos3 & Hstop3).
  rewrite Heq3. rewrite length_drop in Hke.
  assert (Htake : take (kl + ke) L = take kl L ++ take ke (drop kl L)).
  { symmetry. apply take_take_drop. }
  exists kl, kr, ke.
  split; [lia|]. split; [exact Hkr|]. split.
  { rewrite Htake, List.rev_app_distr, <- !app_assoc. reflexivity. }
  split; [intros Hk; destruct (Hpos1 Hk); lia|]. split.
  { intros Hany. rewrite Htake, total_width_app.
    destruct ke as [|ke'].
    - simpl. destruct kr as [|kr'].
      + simpl. destruct (Hpos1 ltac:(lia)). lia.
      + specialize (Hpos2 ltac:(lia)). lia.
    - specialize (Hpos3 ltac:(lia)). lia. }
  split; [intros t Ht; destruct (Hstop1 t Ht); [left|right]; lia|].
  split; [exact Hstop2|].
  intros t Ht. rewrite Htake, total_width_app.
  specialize (Hstop3 t). rewrite lookup_drop in Hstop3. specialize (Hstop3 Ht). lia.
Qed.

(** The admission process is settled by where its loops must stop. *)
Lemma admitted_det (g : DockGroup) (strip m : Z) (cur : tabref) (c : Z)
    (kl kr ke : nat) :
  0 <= c ->
  _tabs g !! Z.to_nat c = Some cur ->
  (kl + ke <= length (left_of g c))%nat ->
  (kr <= length (right_of g c))%nat ->
  (forall r, r ∈ left_of g c ++ right_of g c -> 0 <= tab_width g r) ->
  ((0 < kl)%nat -> Z.of_nat kl <= m) ->
  ((0 < kl + kr + ke)%nat ->
     0 <= strip - tab_width g cur - total_width g (take (kl + ke) (left_of g c))
          - total_width g (take kr (right_of g c))) ->
  (forall t, left_of g c !! kl = Some t ->
     strip - tab_width g cur - total_width g (take kl (left_of g c)) - tab_width g t < 0
     \/ m <= Z.of_nat kl) ->
  (forall t, right_of g c !! kr = Some t ->
     strip - tab_width g cur - total_width g (take kl (left_of g c))
       - total_width g (take kr (right_of g c)) - tab_width g t < 0) ->
  (forall t, left_of g c !! (kl + ke)%nat = Some t ->
     strip - tab_width g cur - total_width g (take (kl + ke) (left_of g c))
       - total_width g (take kr (right_of g c)) - tab_width g t < 0) ->
  admitted g strip m cur c
    = rev (take (kl + ke) (left_of g c)) ++ cur :: take kr (right_of g c).
Proof.
  intros Hc Hlook Hkl Hkr Hnn Hm Hfin HstopL HstopR HstopE.
  pose proof (lookup_lt_Some _ _ _ Hlook) as Hlt.
  unfold admitted.
  rewrite (slice_to_in_range (_tabs g) c) by lia.
  rewrite (slice_from_in_range (_tabs g) (c + 1)) by lia.
  replace (Z.to_nat (c + 1)) with (S (Z.to_nat c)) by lia.
  fold (left_of g c). fold (right_of g c).
  set (L := left_of g c) in *. set (R := right_of g c) in *.
  assert (HlenL : length L = Z.to_nat c).
  { unfold L, left_of. rewrite length_rev, length_take. lia. }
  assert (Htake : take (kl + ke) L = take kl L ++ take ke (drop kl L)).
  { symmetry. apply take_take_drop. }
  assert (HnnL : forall k r, r ∈ take k L -> 0 <= tab_width g r).
  { intros k r Hr. apply Hnn. apply elem_of_app. left.
    eapply elem_of_sublist; [exact Hr|apply sublist_take]. }
  assert (HnnR : forall k r, r ∈ take k R -> 0 <= tab_width g r).
  { intros k r Hr. apply Hnn. apply elem_of_app. right.
    eapply elem_of_sublist; [exact Hr|apply sublist_take]. }
  assert (HnnE : forall k r, r ∈ take k (drop kl L) -> 0 <= tab_width g r).
  { intros k r Hr. apply Hnn. apply elem_of_app. left.
    eapply elem_of_sublist; [exact Hr|].
    etransitivity; [apply sublist_take|apply sublist_drop]. }
  pose proof (total_width_nonneg g (take kr R) (HnnR kr)) as HtwR.
  pose proof (total_width_nonneg g (take ke (drop kl L)) (HnnE ke)) as HtwE.
  pose proof (total_width_nonneg g (take kl L) (HnnL kl)) as HtwL.
  rewrite Htake, total_width_app in Hfin, HstopE.
  rewrite (admit_left_det g m L kl 0 (strip - tab_width g cur) []);
    [|lia|exact (HnnL kl)| |].
  2:{ intros Hk. specialize (Hfin ltac:(lia)). specialize (Hm Hk). lia. }
  2:{ intros t Ht. destruct (HstopL t Ht); [left|right]; lia. }
  rewrite app_nil_r.
  rewrite (admit_right_det g R kr _ _ Hkr (HnnR kr));
    [|intros Hk; specialize (Hfin ltac:(lia)); lia|exact HstopR].
  rewrite (slice_to_in_range (_tabs g) (c - (0 + Z.of_nat kl))) by lia.
  assert (Hdrop : rev (take (Z.to_nat (c - (0 + Z.of_nat kl))) (_tabs g)) = drop kl L).
  { unfold L, left_of. rewrite List.skipn_rev. f_equal.
    rewrite take_take, length_take. f_equal. lia. }
  rewrite Hdrop.
  rewrite (admit_extra_det g (drop kl L) ke);
    [|rewrite length_drop; lia|exact (HnnE ke)| |].
  2:{ intros Hk. specialize (Hfin ltac:(lia)). lia. }
  2:{ intros t Ht. rewrite lookup_drop in Ht. specialize (HstopE t Ht). lia. }
  rewrite Htake, List.rev_app_distr, <- !app_assoc. reflexivity.
Qed.

(** The admission process reads the tabs and their widths only. *)
Lemma admitted_ext (g g' : DockGroup) (strip m : Z) (cur : tabref) (c : Z) :
  _tabs g = _tabs g' ->
  (forall r, tab_width g r = tab_width g' r) ->
  admitted g strip m cur c = admitted g' strip m cur c.
Proof.
  intros Htabs Hw.
  assert (HL : forall ts count avail vis,
            admit_left g m ts count avail vis = admit_left g' m ts count avail vis).
  { induction ts as [|t ts IH]; intros; simpl; [reflexivity|].
    rewrite Hw, IH. reflexivity. }
  assert (HR : forall ts avail vis,
            admit_right g ts avail vis = admit_right g' ts avail vis).
  { induction ts as [|t ts IH]; intros; simpl; [reflexivity|].
    rewrite Hw, IH. reflexivity. }
  assert (HE : forall ts avail vis,
            admit_extra g ts avail vis = admit_extra g' ts avail vis).
  { induction ts as [|t ts IH]; intros; simpl; [reflexivity|].
    rewrite Hw, IH. reflexivity. }
  unfold admitted. rewrite Htabs, Hw, HL.
  destruct (admit_left g' m _ _ _ _) as [[count avail] vis].
  rewrite HR. destruct (admit_right g' _ _ _) as [avail2 vis2].
  rewrite HE. reflexivity.
Qed.

(** The tabs are the left part, the current tab and the right part. *)
Lemma tabs_left_right (g : DockGroup) (c : Z) (cur : tabref) :
  _tabs g !! Z.to_nat c = Some cur ->
  _tabs g = rev (left_of g c) ++ cur :: right_of g c.
Proof.
  intros Hlook. unfold left_of, right_of. rewrite List.rev_involutive.
  symmetry. apply take_drop_middle. exact Hlook.
Qed.

(** The visible list a layout pass leaves, and the tab widths. *)
Lemma do_size_allocate_visible (tk : Toolkit) (a : Rectangle) (g : DockGroup)
    (c : Z) (cur : tabref) :
  _current_index g = Some c ->
  0 <= c ->
  _tabs g !! Z.to_nat c = Some cur ->
  let g' := (do_size_allocate tk a g).2 in
  _visible_tabs g' = admitted g (strip_width tk a) (position_before g cur) cur c /\
  (forall r, tab_width g' r =
     if bool_decide (length (_visible_tabs g') = 1%nat) && bool_decide (r = cur)
        && (strip_width tk a <=? normal_width tk cur)
     then strip_width tk a else tab_width g r).
Proof.
  intros Hcur Hc Hlook g'.
  destruct (do_size_allocate_eq tk a g c cur Hcur Hc Hlook) as (m & Hadmit & Heq).
  cbv zeta in Hadmit, Heq.
  destruct (getitem_in_range (_tabs g) c) as (cur' & Hlook' & Hget);
    [apply lookup_lt_Some in Hlook; lia|].
  assert (cur' = cur) as -> by congruence.
  assert (Hadmit' : admit_tabs tk a (set_allocation a g) =
            (Ok tt, set_visible_tabs
                      (admitted (set_allocation a g) (strip_width tk a)
                                (position_before g cur) cur c) (set_allocation a g))).
  { unfold admit_tabs. unfold bind at 1. unfold get at 1. unfold bind at 1.
    assert (Hm : tabs_before_current (set_allocation a g) (set_allocation a g)
                 = (Ok (position_before g cur), set_allocation a g)).
    { unfold tabs_before_current, position_before, bind, lift, ret.
      change (_tabs (set_allocation a g)) with (_tabs g).
      change (_current_index (set_allocation a g)) with (_current_index g).
      change (_visible_tabs (set_allocation a g)) with (_visible_tabs g).
      destruct (_visible_tabs g); [reflexivity|].
      rewrite Hcur, Hget. destruct (index _ _); reflexivity. }
    rewrite Hm. unfold bind, modify, lift.
    change (_tabs (set_allocation a g)) with (_tabs g).
    change (_current_index (set_allocation a g)) with (_current_index g).
    rewrite Hcur, Hget. reflexivity. }
  rewrite Hadmit' in Hadmit. injection Hadmit as Hvis.
  assert (Hvis' : admitted (set_allocation a g) (strip_width tk a) m cur c
                  = admitted g (strip_width tk a) (position_before g cur) cur c).
  { rewrite <- Hvis. apply admitted_ext; reflexivity. }
  subst g'. rewrite Heq. cbn [snd].
  set (g1 := set_visible_tabs _ _) in *.
  set (g2 := if bool_decide _ then _ else _).
  destruct (place_tabs_lists (_visible_tabs g2) 0 0 g2) as (_ & Hv & Hw).
  assert (Hv2 : _visible_tabs g2 = _visible_tabs g1).
  { unfold g2. destruct (bool_decide _); [|reflexivity]. destruct (_ <=? _); reflexivity. }
  split; [rewrite Hv, Hv2; exact Hvis'|].
  intros r. rewrite Hw, Hv, Hv2. unfold g2.
  destruct (bool_decide (length (_visible_tabs g1) = 1%nat)); [|reflexivity].
  destruct (strip_width tk a <=? normal_width tk cur);
    [|rewrite andb_false_r; reflexivity].
  unfold tab_width, upd_tab, store_upd. simpl.
  destruct (decide (r = cur)) as [->|Hne].
  - rewrite bool_decide_eq_true_2 by reflexivity. reflexivity.
  - rewrite bool_decide_eq_false_2 by exact Hne. reflexivity.
Qed.

(** *** What a layout pass shows *)

Lemma ui_current (g : DockGroup) :
  ui_reachable g -> _tabs g <> [] ->
  exists c cur, _current_index g = Some c /\ 0 <= c /\
                _tabs g !! Z.to_nat c = Some cur.
Proof.
  intros Hreach Hne. destruct (ui_reachable_wf g Hreach) as [_ Hsel].
  unfold selection_ok in Hsel.
  destruct (_current_index g) as [c|]; [|tauto].
  destruct Hsel as [Hr (cur & Hlook & _)].
  exists c, cur. split; [reflexivity|]. split; [lia|exact Hlook].
Qed.

Lemma total_width_ext (g g' : DockGroup) (l : list tabref) :
  (forall r, r ∈ l -> tab_width g' r = tab_width g r) ->
  total_width g' l = total_width g l.
Proof.
  induction l as [|r l IH]; intros Hall; simpl; [reflexivity|].
  rewrite Hall by (apply elem_of_cons; auto).
  rewrite IH; [reflexivity|]. intros r' Hr'. apply Hall. apply elem_of_cons. auto.
Qed.

(** X11: when a layout pass on a reachable group with tabs leaves more than
    one tab visible, it has changed no tab width and the visible tabs
    together are at most as wide as the tab strip. *)
Theorem visible_tabs_fit (tk : Toolkit) (a : Rectangle) (g : DockGroup) :
  ui_reachable g ->
  _tabs g <> [] ->
  let g' := (do_size_allocate tk a g).2 in
  (1 < length (_visible_tabs g'))%nat ->
  (forall r, tab_width g' r = tab_width g r) /\
  total_width g' (_visible_tabs g') <= strip_width tk a.
Proof.
  intros Hreach Hne g' Hmany.
  destruct (ui_current g Hreach Hne) as (c & cur & Hcur & Hc & Hlook).
  destruct (do_size_allocate_visible tk a g c cur Hcur Hc Hlook) as [Hvis Hw].
  fold g' in Hvis, Hw.
  assert (Hsame : forall r, tab_width g' r = tab_width g r).
  { intros r. rewrite Hw. rewrite (bool_decide_eq_false_2 (length _ = 1%nat)) by lia.
    reflexivity. }
  split; [exact Hsame|].
  rewrite (total_width_ext g g') by (intros r _; apply Hsame).
  destruct (admitted_full g (strip_width tk a) (position_before g cur) cur c Hc Hlook)
    as (kl & kr & ke & Hkl & Hkr & Hadm & _ & Hfin & _).
  rewrite Hvis, Hadm in *.
  rewrite length_app, length_rev, length_take in Hmany. simpl in Hmany.
  rewrite length_take in Hmany.
  specialize (Hfin ltac:(lia)).
  rewrite total_width_app, total_width_rev. simpl. lia.
Qed.

Lemma visible_tabs_fit_witness :
  ui_reachable three_items_requested /\
  total_width
    (do_size_allocate tk16 (mkRect 0 0 250 200) three_items_requested).2
    (_visible_tabs (do_size_allocate tk16 (mkRect 0 0 250 200) three_items_requested).2)
    <= 195.
Proof.
  split; [exact three_items_requested_reachable|].
  refine (proj2 (visible_tabs_fit tk16 (mkRect 0 0 250 200) three_items_requested
                   three_items_requested_reachable
                   (proj1 three_items_requested_widths) _)).
  vm_compute. lia.
Defined.

(** X12: when no tab of a reachable group has a negative width and all tabs
    together are at most as wide as the tab strip, a layout pass shows
    every tab. *)
Theorem all_tabs_visible (tk : Toolkit) (a : Rectangle) (g : DockGroup) :
  ui_reachable g ->
  _tabs g <> [] ->
  (forall r, r ∈ _tabs g -> 0 <= tab_width g r) ->
  total_width g (_tabs g) <= strip_width tk a ->
  _visible_tabs (do_size_allocate tk a g).2 = _tabs g.
Proof.
  intros Hreach Hne Hnn Hfit.
  destruct (ui_current g Hreach Hne) as (c & cur & Hcur & Hc & Hlook).
  destruct (do_size_allocate_visible tk a g c cur Hcur Hc Hlook) as [Hvis _].
  rewrite Hvis.
  destruct (admitted_full g (strip_width tk a) (position_before g cur) cur c Hc Hlook)
    as (kl & kr & ke & Hkl & Hkr & Hadm & _ & _ & _ & HstopR & HstopE).
  pose proof (tabs_left_right g c cur Hlook) as Hsplit.
  set (L := left_of g c) in *. set (R := right_of g c) in *.
  assert (HnnL : forall r, r ∈ L -> 0 <= tab_width g r).
  { intros r Hr. apply Hnn. rewrite Hsplit. apply elem_of_app. left.
    apply list_elem_of_In, List.in_rev. rewrite List.rev_involutive.
    apply list_elem_of_In. exact Hr. }
  assert (HnnR : forall r, r ∈ R -> 0 <= tab_width g r).
  { intros r Hr. apply Hnn. rewrite Hsplit. apply elem_of_app. right.
    apply elem_of_cons. auto. }
  assert (Htotal : total_width g (_tabs g)
                   = total_width g L + tab_width g cur + total_width g R).
  { rewrite Hsplit at 1. rewrite total_width_app, total_width_rev. simpl. lia. }
  assert (HkR : kr = length R).
  { destruct (R !! kr) as [t|] eqn:Ht.
    - exfalso. specialize (HstopR t eq_refl).
      pose proof (total_width_take_le g L kl HnnL).
      pose proof (total_width_take_le g R (S kr) HnnR).
      rewrite (total_width_take_S g R kr t Ht) in *. lia.
    - apply lookup_ge_None in Ht. lia. }
  assert (HkL : (kl + ke)%nat = length L).
  { destruct (L !! (kl + ke)%nat) as [t|] eqn:Ht.
    - exfalso. specialize (HstopE t eq_refl).
      pose proof (total_width_take_le g L (S (kl + ke)) HnnL).
      pose proof (total_width_take_le g R kr HnnR).
      rewrite (total_width_take_S g L (kl + ke) t Ht) in *. lia.
    - apply lookup_ge_None in Ht. lia. }
  rewrite Hadm, HkR, HkL, !firstn_all. symmetry. exact Hsplit.
Qed.

Lemma all_tabs_visible_witness :
  ui_reachable three_items_requested /\
  _visible_tabs (do_size_allocate tk16 (mkRect 0 0 400 200) three_items_requested).2
    = [0; 1; 2]%nat.
Proof.
  split; [exact three_items_requested_reachable|].
  refine (all_tabs_visible tk16 (mkRect 0 0 400 200) three_items_requested
            three_items_requested_reachable (proj1 three_items_requested_widths) _ _).
  - intros r Hr. rewrite (proj2 three_items_requested_widths r Hr). lia.
  - vm_compute. discriminate.
Defined.

Lemma index_app_fresh (l1 l2 : list nat) (x : nat) :
  x ∉ l1 -> index (l1 ++ x :: l2) x = Some (length l1).
Proof.
  induction l1 as [|y l1 IH]; intros Hnot; simpl.
  - destruct (decide (x = x)); [reflexivity|congruence].
  - destruct (decide (y = x)) as [->|Hne].
    + exfalso. apply Hnot. apply elem_of_cons. auto.
    + rewrite IH; [reflexivity|]. intros Hin. apply Hnot. apply elem_of_cons. auto.
Qed.

(** X13: a second layout pass with the same allocation shows the same tabs:
    on a reachable group whose tabs all have a positive width, the visible
    list after two passes is the visible list after one. *)
Theorem layout_pass_stable (tk : Toolkit) (a : Rectangle) (g : DockGroup) :
  ui_reachable g ->
  _tabs g <> [] ->
  (forall r, r ∈ _tabs g -> 0 < tab_width g r) ->
  let g1 := (do_size_allocate tk a g).2 in
  _visible_tabs (do_size_allocate tk a g1).2 = _visible_tabs g1.
Proof.
  intros Hreach Hne Hpos g1.
  destruct (ui_current g Hreach Hne) as (c & cur & Hcur & Hc & Hlook).
  destruct (ui_reachable_wf g Hreach) as [(Hdup & _ & _) _].
  destruct (do_size_allocate_visible tk a g c cur Hcur Hc Hlook) as [Hvis1 Hw1].
  fold g1 in Hvis1, Hw1.
  destruct (do_size_allocate_same tk a g) as (Htabs1 & Hidx1 & _).
  fold g1 in Htabs1, Hidx1.
  assert (Hcur1 : _current_index g1 = Some c) by congruence.
  assert (Hlook1 : _tabs g1 !! Z.to_nat c = Some cur) by (rewrite Htabs1; exact Hlook).
  destruct (do_size_allocate_visible tk a g1 c cur Hcur1 Hc Hlook1) as [Hvis2 _].
  rewrite Hvis2.
  destruct (admitted_full g (strip_width tk a) (position_before g cur) cur c Hc Hlook)
    as (kl & kr & ke & Hkl & Hkr & Hadm & _ & Hfin & _ & HstopR & HstopE).
  pose proof (tabs_left_right g c cur Hlook) as Hsplit.
  assert (HL1 : left_of g1 c = left_of g c) by (unfold left_of; rewrite Htabs1; reflexivity).
  assert (HR1 : right_of g1 c = right_of g c) by (unfold right_of; rewrite Htabs1; reflexivity).
  set (L := left_of g c) in *. set (R := right_of g c) in *.
  rewrite Hsplit in Hdup. apply NoDup_app in Hdup. destruct Hdup as (HdL & HLcur & HdR).
  apply NoDup_cons in HdR. destruct HdR as [HcurR _].
  assert (HcurL : cur ∉ L).
  { intros Hin. apply (HLcur cur).
    - apply list_elem_of_In, List.in_rev. rewrite List.rev_involutive.
      apply list_elem_of_In. exact Hin.
    - apply elem_of_cons. auto. }
  assert (HinL : forall r, r ∈ L -> r ∈ _tabs g /\ r <> cur).
  { intros r Hr. split; [|intros ->; exact (HcurL Hr)].
    rewrite Hsplit. apply elem_of_app. left.
    apply list_elem_of_In, List.in_rev. rewrite List.rev_involutive.
    apply list_elem_of_In. exact Hr. }
  assert (HinR : forall r, r ∈ R -> r ∈ _tabs g /\ r <> cur).
  { intros r Hr. split; [|intros ->; exact (HcurR Hr)].
    rewrite Hsplit. apply elem_of_app. right. apply elem_of_cons. auto. }
  assert (Hwother : forall r, r <> cur -> tab_width g1 r = tab_width g r).
  { intros r Hr. rewrite Hw1. rewrite (bool_decide_eq_false_2 (r = cur)) by exact Hr.
    rewrite andb_false_r. reflexivity. }
  assert (HwLR : forall r, r ∈ L ++ R -> tab_width g1 r = tab_width g r /\ 0 < tab_width g r).
  { intros r Hr. apply elem_of_app in Hr. destruct Hr as [Hr|Hr].
    - destruct (HinL r Hr). split; [apply Hwother|apply Hpos]; assumption.
    - destruct (HinR r Hr). split; [apply Hwother|apply Hpos]; assumption. }
  assert (HtwL : forall k, total_width g1 (take k L) = total_width g (take k L)).
  { intros k. apply total_width_ext. intros r Hr. apply HwLR. apply elem_of_app. left.
    eapply elem_of_sublist; [exact Hr|apply sublist_take]. }
  assert (HtwR : forall k, total_width g1 (take k R) = total_width g (take k R)).
  { intros k. apply total_width_ext. intros r Hr. apply HwLR. apply elem_of_app. right.
    eapply elem_of_sublist; [exact Hr|apply sublist_take]. }
  assert (HnnL : forall r, r ∈ L -> 0 <= tab_width g r).
  { intros r Hr. destruct (HinL r Hr) as [Hin _]. specialize (Hpos r Hin). lia. }
  assert (HnnR : forall r, r ∈ R -> 0 <= tab_width g r).
  { intros r Hr. destruct (HinR r Hr) as [Hin _]. specialize (Hpos r Hin). lia. }
  assert (Hlen : length (_visible_tabs g1) = (kl + ke + 1 + kr)%nat).
  { rewrite Hvis1, Hadm, length_app, length_rev, length_take. simpl.
    rewrite length_take. lia. }
  assert (Hm2 : position_before g1 cur = Z.of_nat (kl + ke)).
  { unfold position_before. rewrite Hvis1, Hadm.
    rewrite index_app_fresh.
    - rewrite length_rev, length_take.
      destruct (rev (take (kl + ke) L) ++ cur :: take kr R) eqn:E;
        [destruct (rev (take (kl + ke) L)); discriminate|].
      f_equal. lia.
    - intros Hin. apply HcurL. apply list_elem_of_In, List.in_rev in Hin.
      apply list_elem_of_In in Hin.
      eapply elem_of_sublist; [exact Hin|apply sublist_take]. }
  assert (Hwcur : tab_width g1 cur =
            if bool_decide ((kl + ke + kr)%nat = 0%nat)
               && (strip_width tk a <=? normal_width tk cur)
            then strip_width tk a else tab_width g cur).
  { rewrite Hw1, Hlen. rewrite (bool_decide_eq_true_2 (cur = cur)) by reflexivity.
    rewrite andb_true_r.
    destruct (decide ((kl + ke + kr)%nat = 0%nat)) as [Hz|Hnz].
    - rewrite !bool_decide_eq_true_2 by lia. reflexivity.
    - rewrite !bool_decide_eq_false_2 by lia. reflexivity. }
  rewrite Hvis1, Hadm.
  rewrite (admitted_det g1 (strip_width tk a) (position_before g1 cur) cur c
             (kl + ke) kr 0 Hc Hlook1); rewrite ?HL1, ?HR1.
  - rewrite Nat.add_0_r. reflexivity.
  - lia.
  - exact Hkr.
  - intros r Hr. destruct (HwLR r Hr) as [-> Hp]. lia.
  - intros _. rewrite Hm2. lia.
  - intros Hany. rewrite Hwcur, HtwL, HtwR.
    rewrite (bool_decide_eq_false_2 ((kl + ke + kr)%nat = 0%nat)) by lia.
    cbn [andb]. replace (kl + ke + 0)%nat with (kl + ke)%nat by lia.
    apply Hfin. lia.
  - intros t Ht. right. rewrite Hm2. lia.
  - intros t Ht.
    assert (Hwt : tab_width g1 t = tab_width g t /\ 0 < tab_width g t).
    { apply HwLR. apply elem_of_app. right. apply list_elem_of_lookup. eauto. }
    destruct Hwt as [-> Hpt]. rewrite Hwcur, HtwL, HtwR.
    specialize (HstopR t Ht).
    pose proof (total_width_take_le g (drop kl L) ke) as Hextra.
    assert (Htake : take (kl + ke) L = take kl L ++ take ke (drop kl L))
      by (symmetry; apply take_take_drop).
    rewrite Htake, total_width_app.
    assert (0 <= total_width g (take ke (drop kl L))).
    { apply Hextra. intros r Hr. apply HnnL.
      eapply elem_of_sublist; [exact Hr|apply sublist_drop]. }
    destruct (bool_decide ((kl + ke + kr)%nat = 0%nat)) eqn:Hlone; cbn [andb]; [|lia].
    apply bool_decide_eq_true in Hlone.
    destruct (strip_width tk a <=? normal_width tk cur); [|lia].
    assert (kl = 0%nat) by lia. assert (ke = 0%nat) by lia. assert (kr = 0%nat) by lia.
    subst. simpl. lia.
  - intros t Ht. replace (kl + ke + 0)%nat with (kl + ke)%nat in * by lia.
    assert (Hwt : tab_width g1 t = tab_width g t /\ 0 < tab_width g t).
    { apply HwLR. apply elem_of_app. left. apply list_elem_of_lookup. eauto. }
    destruct Hwt as [-> Hpt]. rewrite Hwcur, HtwL, HtwR.
    specialize (HstopE t Ht).
    destruct (bool_decide ((kl + ke + kr)%nat = 0%nat)) eqn:Hlone; cbn [andb]; [|lia].
    apply bool_decide_eq_true in Hlone.
    destruct (strip_width tk a <=? normal_width tk cur); [|lia].
    assert (kl = 0%nat) by lia. assert (ke = 0%nat) by lia. assert (kr = 0%nat) by lia.
    subst. simpl. lia.
Qed.

Lemma layout_pass_stable_witness :
  ui_reachable three_items_requested /\
  _visible_tabs
    (do_size_allocate tk16 (mkRect 0 0 250 200)
       (do_size_allocate tk16 (mkRect 0 0 250 200) three_items_requested).2).2
  = _visible_tabs (do_size_allocate tk16 (mkRect 0 0 250 200) three_items_requested).2.
Proof.
  split; [exact three_items_requested_reachable|].
  refine (layout_pass_stable tk16 (mkRect 0 0 250 200) three_items_requested
            three_items_requested_reachable (proj1 three_items_requested_widths) _).
  intros r Hr. rewrite (proj2 three_items_requested_widths r Hr). lia.
Defined.

(** *** Where a layout pass puts the tabs *)

Lemma place_tabs_untouched (vis : list tabref) (r : tabref) :
  r ∉ vis -> forall cx cy g, tab_store (place_tabs vis cx cy g) r = tab_store g r.
Proof.
  induction vis as [|t rest IH]; intros Hnot cx cy g; simpl; [reflexivity|].
  rewrite IH by (intros Hin; apply Hnot; apply elem_of_cons; auto).
  unfold upd_tab, store_upd. simpl.
  destruct (decide (r = t)) as [->|]; [|reflexivity].
  exfalso. apply Hnot. apply elem_of_cons. auto.
Qed.

Lemma place_tabs_positions (vis : list tabref) :
  NoDup vis ->
  forall cx cy g i r,
    vis !! i = Some r ->
    x (area (tab_store (place_tabs vis cx cy g) r)) = cx + total_width g (take i vis) /\
    y (area (tab_store (place_tabs vis cx cy g) r)) = cy.
Proof.
  induction 1 as [|t rest Hnot Hdup IH]; intros cx cy g i r Hlook; [discriminate|].
  cbn [place_tabs].
  set (g1 := upd_tab t (with_area (with_xy cx cy)) g).
  assert (Hw : forall r', tab_width g1 r' = tab_width g r').
  { intros r'. unfold g1, tab_width, upd_tab, store_upd. simpl.
    destruct (decide (r' = t)); reflexivity. }
  destruct i as [|i]; simpl in Hlook.
  - injection Hlook as <-. rewrite place_tabs_untouched by exact Hnot.
    unfold g1, upd_tab, store_upd. simpl.
    destruct (decide (t = t)); [|congruence]. simpl. split; [lia|reflexivity].
  - destruct (IH (cx + tab_width g1 t) cy g1 i r Hlook) as [Hx Hy].
    rewrite Hx, Hy. split; [|reflexivity].
    rewrite (total_width_ext g g1) by (intros; apply Hw).
    simpl. rewrite Hw. lia.
Qed.

(** Position of the visible tab at index [i] after a layout pass. *)
Lemma visible_tabs_tile_facts (tk : Toolkit) (a : Rectangle) (g : DockGroup) :
  ui_reachable g ->
  forall i r,
    _visible_tabs (do_size_allocate tk a g).2 !! i = Some r ->
    x (area (tab_store (do_size_allocate tk a g).2 r))
      = total_width (do_size_allocate tk a g).2
          (take i (_visible_tabs (do_size_allocate tk a g).2)) /\
    y (area (tab_store (do_size_allocate tk a g).2 r)) = 0.
Proof.
  intros Hreach i r Hlook. set (g' := (do_size_allocate tk a g).2) in *.
  assert (Hreach' : ui_reachable g').
  { eapply ui_reachable_step; [exact Hreach|]. apply ui_call, step_size_allocate. }
  destruct (ui_reachable_wf g' Hreach') as [(Hdup' & _ & Hsub') _].
  pose proof (sublist_NoDup _ _ Hdup' Hsub') as Hnd.
  assert (Hform : exists g2, g' = place_tabs (_visible_tabs g2) 0 0 g2).
  { destruct (ui_reachable_wf g Hreach) as [(_ & _ & Hsub) Hsel].
    destruct (_tabs g) as [|r0 rest] eqn:Htabs.
    - exists (set_allocation a g). unfold g', do_size_allocate, bind, modify, get.
      cbn. rewrite Htabs. reflexivity.
    - destruct (ui_current g Hreach ltac:(rewrite Htabs; discriminate))
        as (c & cur & Hcur & Hc & Hl).
      destruct (do_size_allocate_eq tk a g c cur Hcur Hc Hl) as (m & _ & Heq).
      cbv zeta in Heq. eexists. unfold g'. rewrite Heq. reflexivity. }
  destruct Hform as [g2 Hg2].
  destruct (place_tabs_lists (_visible_tabs g2) 0 0 g2) as (_ & Hv & Hw).
  rewrite <- Hg2 in Hv, Hw.
  rewrite Hv in Hlook, Hnd |- *.
  destruct (place_tabs_positions (_visible_tabs g2) Hnd 0 0 g2 i r Hlook) as [Hx Hy].
  rewrite <- Hg2 in Hx, Hy. rewrite Hx, Hy. split; [|reflexivity].
  rewrite (total_width_ext g2 g') by (intros; apply Hw). lia.
Qed.

(** X14: after a layout pass on a reachable group the visible tabs are laid
    side by side from the left edge: each visible tab has y = 0 and starts
    where the widths of the visible tabs before it end. *)
Theorem visible_tabs_tile (tk : Toolkit) (a : Rectangle) (g : DockGroup) :
  ui_reachable g ->
  let g' := (do_size_allocate tk a g).2 in
  forall i r,
    _visible_tabs g' !! i = Some r ->
    x (area (tab_store g' r)) = total_width g' (take i (_visible_tabs g')) /\
    y (area (tab_store g' r)) = 0.
Proof.
  intros Hreach g' i r Hlook. subst g'.
  exact (visible_tabs_tile_facts tk a g Hreach i r Hlook).
Qed.

Lemma visible_tabs_tile_witness :
  ui_reachable three_items_requested /\
  x (area (tab_store (do_size_allocate tk16 (mkRect 0 0 400 200) three_items_requested).2
             2%nat)) = 172.
Proof.
  split; [exact three_items_requested_reachable|].
  destruct (visible_tabs_tile tk16 (mkRect 0 0 400 200) three_items_requested
              three_items_requested_reachable 2%nat 2%nat eq_refl) as [Hx _].
  rewrite Hx. reflexivity.
Defined.

(** X15: after a layout pass on a reachable group without negative tab
    widths, the hit areas of the visible tabs do not overlap: two visible
    tabs whose areas both strictly contain a point are the same tab. *)
Theorem hit_test_unique (tk : Toolkit) (a : Rectangle) (g : DockGroup)
    (px py : QArith_base.Q) :
  ui_reachable g ->
  (forall r, r ∈ _tabs g -> 0 <= tab_width g r) ->
  let g' := (do_size_allocate tk a g).2 in
  forall r1 r2,
    r1 ∈ _visible_tabs g' -> r2 ∈ _visible_tabs g' ->
    _rect_contains (area (tab_store g' r1)) px py = true ->
    _rect_contains (area (tab_store g' r2)) px py = true ->
    r1 = r2.
Proof.
  intros Hreach Hnn g'.
  assert (Hreach' : ui_reachable g').
  { eapply ui_reachable_step; [exact Hreach|]. apply ui_call, step_size_allocate. }
  destruct (ui_reachable_wf g' Hreach') as [(Hdup' & _ & Hsub') _].
  pose proof (sublist_NoDup _ _ Hdup' Hsub') as Hnd.
  assert (Hordered : forall i j r1 r2,
            (i < j)%nat ->
            _visible_tabs g' !! i = Some r1 -> _visible_tabs g' !! j = Some r2 ->
            _rect_contains (area (tab_store g' r1)) px py = true ->
            _rect_contains (area (tab_store g' r2)) px py = true -> False).
  { intros i j r1 r2 Hij Hi Hj Hc1 Hc2.
    assert (Hmany : (1 < length (_visible_tabs g'))%nat).
    { apply lookup_lt_Some in Hj. lia. }
    assert (Hne : _tabs g <> []).
    { intros Hnil. destruct (do_size_allocate_same tk a g) as (Ht & _).
      fold g' in Ht. rewrite Hnil in Ht. rewrite Ht in Hsub'.
      apply sublist_nil_r in Hsub'. rewrite Hsub' in Hmany. simpl in Hmany. lia. }
    destruct (ui_current g Hreach Hne) as (c & cur & Hcur & Hc & Hl).
    destruct (do_size_allocate_visible tk a g c cur Hcur Hc Hl) as [_ Hw].
    fold g' in Hw.
    assert (Hsame : forall r, tab_width g' r = tab_width g r).
    { intros r. rewrite Hw. rewrite (bool_decide_eq_false_2 (length _ = 1%nat)) by lia.
      reflexivity. }
    destruct (do_size_allocate_same tk a g) as (Ht & _). fold g' in Ht.
    assert (Hnn' : forall r, r ∈ _visible_tabs g' -> 0 <= tab_width g' r).
    { intros r Hr. rewrite Hsame. apply Hnn. rewrite <- Ht.
      eapply elem_of_sublist; eassumption. }
    destruct (visible_tabs_tile_facts tk a g Hreach i r1 Hi) as [Hx1 _].
    destruct (visible_tabs_tile_facts tk a g Hreach j r2 Hj) as [Hx2 _].
    fold g' in Hx1, Hx2.
    unfold _rect_contains in Hc1, Hc2.
    rewrite !andb_true_iff, !Qltb_lt in Hc1, Hc2.
    destruct Hc1 as [[[_ Hright] _] _]. destruct Hc2 as [[[Hleft _] _] _].
    pose proof (QArith_base.Qlt_trans _ _ _ Hleft Hright) as Hlt.
    rewrite <- QArith_base.Zlt_Qlt in Hlt. rewrite Hx1, Hx2 in Hlt.
    fold (tab_width g' r1) in Hlt.
    rewrite <- (total_width_take_S g' _ i r1 Hi) in Hlt.
    assert (Hsplit : take j (_visible_tabs g')
                     = take (S i) (_visible_tabs g')
                       ++ take (j - S i) (drop (S i) (_visible_tabs g'))).
    { rewrite take_take_drop. f_equal. lia. }
    rewrite Hsplit, total_width_app in Hlt.
    assert (0 <= total_width g' (take (j - S i) (drop (S i) (_visible_tabs g')))).
    { apply total_width_nonneg. intros r Hr. apply Hnn'.
      eapply elem_of_sublist; [exact Hr|].
      etransitivity; [apply sublist_take|apply sublist_drop]. }
    lia. }
  intros r1 r2 Hin1 Hin2 Hc1 Hc2.
  apply list_elem_of_lookup in Hin1. destruct Hin1 as [i Hi].
  apply list_elem_of_lookup in Hin2. destruct Hin2 as [j Hj].
  destruct (Nat.lt_trichotomy i j) as [Hlt|[Heq|Hgt]].
  - exfalso. exact (Hordered i j r1 r2 Hlt Hi Hj Hc1 Hc2).
  - subst j. congruence.
  - exfalso. exact (Hordered j i r2 r1 Hgt Hj Hi Hc2 Hc1).
Qed.

Lemma hit_test_unique_witness :
  ui_reachable three_items_requested /\
  forall r,
    r ∈ _visible_tabs three_items_laid_out ->
    _rect_contains (area (tab_store three_items_laid_out r))
      (QArith_base.Qmake 200 1) (QArith_base.Qmake 10 1) = true ->
    r = 2%nat.
Proof.
  split; [exact three_items_requested_reachable|].
  intros r Hin Hc. symmetry.
  refine (hit_test_unique tk16 (mkRect 0 0 400 200) three_items_requested
            (QArith_base.Qmake 200 1) (QArith_base.Qmake 10 1)
            three_items_requested_reachable _ 2%nat r _ Hin eq_refl Hc).
  - intros r' Hr'. rewrite (proj2 three_items_requested_widths r' Hr'). lia.
  - change (_visible_tabs (do_size_allocate tk16 (mkRect 0 0 400 200)
                             three_items_requested).2) with [0; 1; 2]%nat.
    apply elem_of_cons. right. apply elem_of_cons. right. apply elem_of_cons. auto.
Defined.

End dockgroup_more.

(** * Further properties: drag resolution and registration in the DockLayout *)
Module docklayout_more_props.

Import dockgroup docklayout docklayout_more docklayout_props.

(** Induction along the chain of ancestors of a widget. *)
Lemma widget_parent_ind (P : widget -> Prop) :
  (forall w, (forall p, get_parent w = Some p -> P p) -> P w) -> forall w, P w.
Proof.
  intros Hstep. fix IH 1. intros [i k a o ptr [p|]]; apply Hstep; cbn.
  - intros q [= <-]. apply IH.
  - intros q; discriminate.
Qed.

Section resolution.

Context {World : Type} (ext : @Externals World).

(** [magic_borders], in one equation: an answer exactly on a DockPaned with
    the pointer near a border; the answer names the paned and has no
    [received] callback. *)
Lemma magic_borders_eq (p : widget) (context : DragContext) (px py : Z)
    (t : timestamp) (w : World) :
  magic_borders p context px py t w =
    (Ok (match wkind p with
         | KDockPaned =>
             if near_border p px py
             then Some (mkDragData p (Some dock_paned_magic_borders_leave) None)
             else None
         | _ => None
         end), w).
Proof.
  unfold magic_borders, dock_paned_magic_borders, dock_frame_magic_borders, near_border.
  destruct (wkind p); try reflexivity.
  destruct (_ <? _); [reflexivity|]. destruct (_ <? _); reflexivity.
Qed.

Lemma with_magic_borders_resolved (func : handler) (h : widget)
    (context : DragContext) (x y : Z) (t : timestamp) (w : World) :
  (forall r w', func h context x y t w = (Ok r, w') ->
                exists d, r = Some d /\ drop_widget d = h /\ is_Some (received d)) ->
  match (with_magic_borders func h context x y t w).1 with
  | Raise _ => True
  | Ok None => False
  | Ok (Some d) => resolved_for h d
  end.
Proof.
  intros Hbody. unfold with_magic_borders, _propagate_to_parent, bind.
  assert (Hrun : match (func h context x y t w).1 with
                 | Raise _ => True
                 | Ok None => False
                 | Ok (Some d) => resolved_for h d
                 end).
  { destruct (func h context x y t w) as [[r|e] w'] eqn:Hf; cbn; [|exact I].
    destruct (Hbody r w' eq_refl) as (d & -> & Hd). left. exact Hd. }
  destruct (get_parent h) as [p|] eqn:Hp; [|exact Hrun].
  destruct (get_pointer p) as [px py]. rewrite magic_borders_eq.
  destruct (wkind p) eqn:Hk; try exact Hrun.
  destruct (near_border p px py); [|exact Hrun].
  cbn. right. cbn. auto.
Qed.

(** [drag_motion] on a DockGroup or DockPaned ends with a session for it
    or with an exception of its body. *)
Lemma drag_motion_handler (h : widget) (context : DragContext) (x y : Z)
    (t : timestamp) (w : World) :
  wkind h = KDockGroup \/ wkind h = KDockPaned ->
  match (drag_motion ext h context x y t w).1 with
  | Raise _ => True
  | Ok None => False
  | Ok (Some d) => resolved_for h d
  end.
Proof.
  intros Hk.
  assert (Heq : drag_motion ext h context x y t w =
                with_magic_borders
                  (match wkind h with
                   | KDockGroup => dock_group_drag_motion ext
                   | _ => dock_paned_drag_motion ext
                   end) h context x y t w).
  { destruct h as [i k a o ptr par]. cbn in Hk.
    destruct Hk as [-> | ->]; reflexivity. }
  rewrite Heq. apply with_magic_borders_resolved.
  intros r w' Hrun.
  destruct Hk as [Hk | Hk]; rewrite Hk in Hrun.
  - unfold dock_group_drag_motion, bind in Hrun.
    destruct (group_set_drop_tab_index ext h x y w) as [[[]|e1] w1]; [|discriminate].
    destruct (dock_group_highlight ext h w1) as [[[]|e2] w2]; [|discriminate].
    injection Hrun as <- _. eexists. split; [reflexivity|]. split; [reflexivity|]. cbn. eauto.
  - unfold dock_paned_drag_motion, bind in Hrun.
    destruct (paned_set_drop_handle_index ext h x y w) as [[[]|e1] w1]; [|discriminate].
    destruct (dock_paned_highlight ext h w1) as [[[]|e2] w2]; [|discriminate].
    injection Hrun as <- _. eexists. split; [reflexivity|]. split; [reflexivity|]. cbn. eauto.
Qed.

(** [drag_motion], by the nearest DockGroup or DockPaned from the widget
    upwards. *)
Lemma drag_motion_resolution (widget : widget) (context : DragContext) (x y : Z)
    (t : timestamp) (w : World) :
  match drop_ancestor widget with
  | None => drag_motion ext widget context x y t w = (Ok None, w)
  | Some h =>
      match (drag_motion ext widget context x y t w).1 with
      | Raise _ => True
      | Ok None => False
      | Ok (Some d) => resolved_for h d
      end
  end.
Proof.
  revert x y. induction widget as [widget IH] using widget_parent_ind. intros x y.
  destruct (wkind widget) eqn:Hk.
  1,2: replace (drop_ancestor widget) with (Some widget)
         by (destruct widget as [i k a o ptr par]; cbn in Hk; rewrite Hk; reflexivity);
       apply drag_motion_handler; auto.
  all: replace (drop_ancestor widget)
         with (match get_parent widget with
               | Some p => drop_ancestor p
               | None => None
               end)
         by (destruct widget as [i k a o ptr par]; cbn in Hk; rewrite Hk; reflexivity);
       replace (drag_motion ext widget context x y t w)
         with (_propagate_to_parent (drag_motion ext) widget context x y t w)
         by (destruct widget as [i k a o ptr par]; cbn in Hk; rewrite Hk; reflexivity);
       unfold _propagate_to_parent;
       destruct (get_parent widget) as [p|] eqn:Hp; [|reflexivity];
       destruct (get_pointer p) as [px py]; exact (IH p eq_refl px py).
Qed.

(** X16: [drag_motion] on a widget with no DockGroup or DockPaned among
    itself and its ancestors resolves to [None] and leaves the world alone;
    on any other widget it never resolves to [None]: it raises (an
    exception of a handler body), or gives a session whose target is the
    nearest DockGroup or DockPaned from the widget upwards, with a
    [received] callback, or the DockPaned parent of that one, without a
    [received] callback. *)
Theorem drag_motion_resolves (widget : widget) (context : DragContext) (x y : Z)
    (t : timestamp) (w : World) :
  match drop_ancestor widget with
  | None => drag_motion ext widget context x y t w = (Ok None, w)
  | Some h =>
      match (drag_motion ext widget context x y t w).1 with
      | Raise _ => True
      | Ok None => False
      | Ok (Some d) => resolved_for h d
      end
  end.
Proof. apply drag_motion_resolution. Qed.

(** X17: a drag that enters a DockGroup or DockPaned while the pointer is
    within [MAGIC_BORDER_SIZE] of a border of its DockPaned parent, with no
    session open: the handler body does not run, the session becomes the
    parent's border session, and a drop then makes
    [on_widget_drag_data_received] raise [AssertionError] with the session
    still in place. *)
Theorem border_session_cannot_receive (widget p : widget) (context : DragContext)
    (x y : Z) (t : timestamp) (s : @Sys World) :
  wkind widget = KDockGroup \/ wkind widget = KDockPaned ->
  get_parent widget = Some p ->
  wkind p = KDockPaned ->
  near_border p (get_pointer p).1 (get_pointer p).2 = true ->
  _drag_data (self s) = None ->
  let border := mkDragData p (Some dock_paned_magic_borders_leave) None in
  let s1 := set_self (set_drag_data (Some border)) s in
  on_widget_drag_motion ext widget context x y t s = (Ok tt, s1) /\
  forall other context' x' y' selection_data info t',
    on_widget_drag_data_received other context' x' y' selection_data info t' s1 =
      (Raise AssertionError, s1).
Proof.
  intros Hk Hp Hpk Hnear Hnone border s1.
  assert (Hdm : drag_motion ext widget context x y t (world s) =
                (Ok (Some border), world s)).
  { assert (Hw : forall func, with_magic_borders func widget context x y t (world s) =
                              (Ok (Some border), world s)).
    { intros func. unfold with_magic_borders, _propagate_to_parent, bind.
      rewrite Hp. destruct (get_pointer p) as [px py]. cbn [fst snd] in Hnear.
      rewrite magic_borders_eq, Hpk, Hnear. reflexivity. }
    destruct widget as [i k a o ptr par]. cbn in Hk.
    destruct Hk as [-> | ->]; apply Hw. }
  split.
  - rewrite (on_widget_drag_motion_eq ext _ _ _ _ _ _ _ _ Hdm). cbv zeta.
    rewrite Hnone. cbn. rewrite app_nil_r. reflexivity.
  - intros other context' x' y' selection_data info t'.
    rewrite on_widget_drag_data_received_eq. reflexivity.
Qed.

End resolution.

Section failed.

Context {World : Type}
        (group_reinsert_dragged : widget -> DragContext -> Z -> M World unit).

Lemma drag_failed_eq (widget : widget) (context : DragContext) (result : Z) (w : World) :
  drag_failed group_reinsert_dragged widget context result w =
    match group_ancestor widget with
    | Some g => (run! group_reinsert_dragged g context result in ret (Some true)) w
    | None => (Ok None, w)
    end.
Proof.
  induction widget as [widget IH] using widget_parent_ind.
  destruct widget as [i k a o ptr par].
  destruct k; cbn [drag_failed group_ancestor wkind get_parent]; try reflexivity;
    destruct par as [p|]; try reflexivity; exact (IH p eq_refl).
Qed.

(** X18: [on_widget_drag_failed] reports the failed drag as handled
    ([True]) exactly when the widget or one of its ancestors is a DockGroup
    and the re-insertion loop of the nearest one, the only body that runs,
    returns; with no DockGroup on the chain it answers [None] with the
    world as it was.  It never answers [False]. *)
Theorem drag_failed_handled (widget : widget) (context : DragContext) (result : Z)
    (w : World) :
  let r := on_widget_drag_failed group_reinsert_dragged widget context result w in
  match group_ancestor widget with
  | Some g =>
      r.2 = (group_reinsert_dragged g context result w).2 /\
      r.1 = match (group_reinsert_dragged g context result w).1 with
            | Ok _ => Ok (Some true)
            | Raise e => Raise e
            end
  | None => r = (Ok None, w)
  end.
Proof.
  unfold on_widget_drag_failed. cbv zeta. rewrite drag_failed_eq.
  destruct (group_ancestor widget) as [g|]; [|reflexivity].
  unfold bind. destruct (group_reinsert_dragged g context result w) as [[[]|e] w'];
    split; reflexivity.
Qed.

End failed.

Section registry.

Context {World : Type}.

Implicit Types (s : @Sys World) (ws : list widget_id) (w : widget_id).

Lemma registered_handlers_app ws1 ws2 (n : nat) (m : gmap widget_id (gset nat)) :
  registered_handlers (ws1 ++ ws2) n m =
    registered_handlers ws2 (n + length signal_names * length ws1)
                        (registered_handlers ws1 n m).
Proof.
  change (length signal_names) with 8%nat.
  revert n m. induction ws1 as [|w ws1 IH]; intros n m.
  - cbn. rewrite Nat.add_0_r. reflexivity.
  - cbn [app registered_handlers length]. change (length signal_names) with 8%nat.
    rewrite IH. f_equal. lia.
Qed.

Lemma registered_connections_app ws1 ws2 (n : nat) :
  registered_connections (ws1 ++ ws2) n =
    registered_connections ws1 n ++
    registered_connections ws2 (n + length signal_names * length ws1).
Proof.
  change (length signal_names) with 8%nat.
  revert n. induction ws1 as [|w ws1 IH]; intros n.
  - cbn. rewrite Nat.add_0_r. reflexivity.
  - cbn [app registered_connections length]. change (length signal_names) with 8%nat.
    rewrite IH, <- app_assoc. do 3 f_equal. lia.
Qed.

Lemma registered_app ws1 ws2 (ds1 ds2 : list widget_id) s :
  registered (ws1 ++ ws2) (ds1 ++ ds2) s = registered ws2 ds2 (registered ws1 ds1 s).
Proof.
  unfold registered. cbn [self connections next_handler_id drag_dests world invoked].
  unfold set_signal_handlers. cbn [frames _signal_handlers _drag_data].
  rewrite registered_handlers_app, registered_connections_app, app_assoc, length_app.
  unfold registered_dests. rewrite foldl_app.
  change (length signal_names) with 8%nat. f_equal. lia.
Qed.

Lemma registered_nil s : registered [] [] s = s.
Proof.
  destruct s as [[f m d] c n dd w i]. unfold registered, set_signal_handlers. cbn.
  rewrite app_nil_r, Nat.add_0_r. reflexivity.
Qed.

Lemma registered_handlers_notin ws (n : nat) (m : gmap widget_id (gset nat)) w :
  w ∉ ws -> registered_handlers ws n m !! w = m !! w.
Proof.
  revert n m. induction ws as [|w0 ws IH]; intros n m Hnot; [reflexivity|].
  apply not_elem_of_cons in Hnot as [Hne Hnot].
  cbn [registered_handlers]. rewrite IH by exact Hnot.
  apply lookup_insert_ne. congruence.
Qed.

Lemma registered_handlers_lookup ws (n : nat) (m : gmap widget_id (gset nat))
    (k : nat) w :
  NoDup ws -> ws !! k = Some w ->
  registered_handlers ws n m !! w =
    Some (handler_ids (n + length signal_names * k)).
Proof.
  change (length signal_names) with 8%nat.
  revert n m k. induction ws as [|w0 ws IH]; intros n m k Hnd Hk; [discriminate|].
  apply NoDup_cons in Hnd as [Hnot Hnd]. cbn [registered_handlers].
  change (length signal_names) with 8%nat.
  destruct k as [|k]; cbn in Hk.
  - injection Hk as ->. rewrite registered_handlers_notin by exact Hnot.
    rewrite lookup_insert_eq. do 2 f_equal. lia.
  - rewrite (IH _ _ k Hnd Hk). do 2 f_equal. lia.
Qed.

Lemma registered_dests_eq ws (d : gset widget_id) :
  registered_dests ws d = d ∪ list_to_set ws.
Proof.
  unfold registered_dests. revert d. induction ws as [|w ws IH]; intros d; cbn.
  - symmetry. apply (right_id_L ∅ (∪)).
  - rewrite IH, <- (assoc_L (∪)). reflexivity.
Qed.

Lemma containers_subtree (t : wtree) w : w ∈ containers t -> w ∈ subtree t.
Proof.
  revert w. induction t as [w0 k cs IH] using wtree_rect_children. intros w.
  cbn [containers subtree]. destruct (isinstance_Container k); [|intros H; inversion H].
  intros Hin. apply elem_of_cons in Hin as [->|Hin]; [left|right].
  apply list_elem_of_In, in_flat_map in Hin as (c & Hc & Hin).
  apply list_elem_of_In, in_flat_map. exists c. split; [exact Hc|].
  apply list_elem_of_In in Hc, Hin. apply list_elem_of_In.
  rewrite Forall_forall in IH. exact (IH c Hc w Hin).
Qed.

Lemma containers_children (cs : list wtree) w :
  w ∈ flat_map containers cs -> w ∈ flat_map subtree cs.
Proof.
  intros Hin. apply list_elem_of_In, in_flat_map in Hin as (c & Hc & Hin).
  apply list_elem_of_In, in_flat_map. exists c. split; [exact Hc|].
  apply list_elem_of_In. apply containers_subtree. apply list_elem_of_In. exact Hin.
Qed.

(** [add_signal_handlers] on a subtree of distinct widgets without
    entries: every widget walked is made a drag destination, the
    containers are registered in the order they are walked, and the call
    returns on a container and raises on a widget that is none. *)
Lemma add_signal_handlers_eq (t : wtree) :
  forall s, unregistered_in (subtree t) s -> NoDup (subtree t) ->
            add_signal_handlers t s =
              (add_outcome t, registered (containers t) (subtree t) s).
Proof.
  induction t as [w k cs IH] using wtree_rect_children. intros s Hfresh Hnd.
  assert (Hhas : has_handlers (self s) w = false).
  { unfold has_handlers. rewrite (Hfresh w) by (cbn; left). reflexivity. }
  unfold add_outcome. cbn [root_kind containers subtree] in *.
  destruct (isinstance_Container k) eqn:Hk.
  2:{ rewrite (add_signal_handlers_leaf w k cs s Hk Hhas).
      destruct s as [[f m d] c n dd wd i].
      unfold registered, set_signal_handlers, registered_dests. cbn.
      rewrite app_nil_r, Nat.add_0_r. reflexivity. }
  cbn [add_signal_handlers]. unfold bind at 1. unfold get at 1. rewrite Hhas, Hk.
  unfold bind at 1. unfold drag_dest_set at 1. unfold modify at 1.
  unfold bind at 1. rewrite (connect_each_eq w k signal_names Hk).
  unfold bind at 1. unfold modify at 1.
  cbn [self connections next_handler_id drag_dests world invoked].
  match goal with |- context [set_self ?f ?x] => set (s3 := set_self f x) end.
  assert (H3 : s3 = registered [w] [w] s).
  { unfold s3, set_self, registered, set_signal_handlers, registered_dests,
      connections_for, handler_ids.
    cbn [self connections next_handler_id drag_dests world invoked frames
         _signal_handlers _drag_data registered_handlers registered_connections
         foldl length].
    rewrite (left_id_L ∅ (∪)), app_nil_r. reflexivity. }
  rewrite H3. clear s3 H3.
  apply NoDup_cons in Hnd as [Hw Hnd].
  change (w :: flat_map containers cs) with ([w] ++ flat_map containers cs).
  change (w :: flat_map subtree cs) with ([w] ++ flat_map subtree cs).
  rewrite registered_app.
  assert (Hfresh1 : unregistered_in (flat_map subtree cs) (registered [w] [w] s)).
  { intros w' Hw'. cbn. rewrite lookup_insert_ne by (intros ->; contradiction).
    apply Hfresh. right. exact Hw'. }
  clear Hfresh Hw Hhas. revert Hfresh1 Hnd. generalize (registered [w] [w] s). clear s.
  induction IH as [|c cs Hc _ IHcs]; intros s Hfresh Hnd;
    [cbn [flat_map]; rewrite registered_nil; reflexivity|].
  cbn [flat_map] in *. apply NoDup_app in Hnd as (Hndc & Hdisj & Hndcs).
  unfold bind at 1. unfold swallow at 1.
  rewrite Hc;
    [|intros w' Hw'; apply Hfresh; apply elem_of_app; left; exact Hw'|exact Hndc].
  cbn [snd]. rewrite registered_app. apply IHcs; [|exact Hndcs].
  intros w' Hw'. cbn. rewrite registered_handlers_notin.
  - apply Hfresh. apply elem_of_app. right. exact Hw'.
  - intros Hin. exact (Hdisj w' (containers_subtree c w' Hin) Hw').
Qed.

Lemma handler_ids_size (n : nat) : size (handler_ids n) = length signal_names.
Proof.
  unfold handler_ids. rewrite size_list_to_set by apply NoDup_seq.
  apply length_seq.
Qed.

Lemma registered_connections_other ws (n : nat) w :
  w ∉ ws -> filter (fun c => conn_widget c = w) (registered_connections ws n) = [].
Proof.
  revert n. induction ws as [|w0 ws IH]; intros n Hnot; [reflexivity|].
  apply not_elem_of_cons in Hnot as [Hne Hnot].
  cbn [registered_connections]. rewrite filter_app, IH by exact Hnot.
  rewrite app_nil_r. unfold connections_for, signal_names. cbn [imap].
  repeat (rewrite filter_cons_False by (cbn; congruence)). reflexivity.
Qed.

Lemma registered_connections_signals ws (n : nat) w :
  NoDup ws -> w ∈ ws ->
  conn_signal <$> filter (fun c => conn_widget c = w) (registered_connections ws n)
    = signal_names.
Proof.
  revert n. induction ws as [|w0 ws IH]; intros n Hnd Hin; [inversion Hin|].
  apply NoDup_cons in Hnd as [Hnot Hnd].
  cbn [registered_connections]. rewrite filter_app, fmap_app.
  destruct (decide (w = w0)) as [->|Hne].
  - rewrite registered_connections_other by exact Hnot.
    rewrite fmap_nil, app_nil_r. unfold connections_for, signal_names. cbn [imap].
    repeat (rewrite filter_cons_True by reflexivity). reflexivity.
  - apply elem_of_cons in Hin as [Heq|Hin]; [contradiction|].
    rewrite IH by assumption. unfold connections_for, signal_names. cbn [imap].
    repeat (rewrite filter_cons_False by (cbn; congruence)). reflexivity.
Qed.

Lemma containers_sublist (t : wtree) : containers t `sublist_of` subtree t.
Proof.
  induction t as [w k cs IH] using wtree_rect_children.
  cbn [containers subtree]. destruct (isinstance_Container k); [|apply sublist_nil_l].
  apply sublist_skip. induction IH as [|c cs Hc _ IHcs]; [reflexivity|].
  cbn [flat_map]. apply sublist_app; assumption.
Qed.

Lemma containers_NoDup (t : wtree) : NoDup (subtree t) -> NoDup (containers t).
Proof. intros Hnd. eapply sublist_NoDup; [exact Hnd|apply containers_sublist]. Qed.

(** X19: [add_signal_handlers] on a subtree of distinct widgets none of
    which has an entry returns when the widget is a container and raises
    TypeError when it is none ([connect] knows no signal [add] there; below
    the root the exception does not leave [foreach]).  Afterwards every
    container the walk gets to has an entry of eight handler ids and each
    of the eight signals connected exactly once; every other widget, the
    widgets of the subtree that are no containers included, has the entry
    it had; the new connections are those of the containers in walk order
    with consecutive handler ids; every widget walked is a drag
    destination; frames, session and world are untouched. *)
Theorem add_signal_handlers_subtree (t : wtree) s :
  unregistered_in (subtree t) s -> NoDup (subtree t) ->
  exists s',
    add_signal_handlers t s =
      (if isinstance_Container (root_kind t) then Ok tt else Raise TypeError, s') /\
    (forall w, w ∈ containers t ->
       (exists signals, _signal_handlers (self s') !! w = Some signals /\
                        size signals = 8%nat) /\
       conn_signal <$> filter (fun c => conn_widget c = w)
                              (drop (length (connections s)) (connections s'))
         = signal_names) /\
    (forall w, w ∉ containers t ->
       _signal_handlers (self s') !! w = _signal_handlers (self s) !! w) /\
    connections s' =
      connections s ++ registered_connections (containers t) (next_handler_id s) /\
    drag_dests s' = drag_dests s ∪ list_to_set (subtree t) /\
    frames (self s') = frames (self s) /\
    _drag_data (self s') = _drag_data (self s) /\
    world s' = world s.
Proof.
  intros Hfresh Hnd. exists (registered (containers t) (subtree t) s).
  split; [exact (add_signal_handlers_eq t s Hfresh Hnd)|].
  pose proof (containers_NoDup t Hnd) as Hndc.
  unfold registered. cbn [self connections drag_dests world frames _signal_handlers
                          _drag_data set_signal_handlers].
  split; [|split; [|split; [|split; [|auto]]]].
  - intros w Hw. split.
    + apply list_elem_of_lookup in Hw as [k Hk].
      rewrite (registered_handlers_lookup _ _ _ k w Hndc Hk).
      eexists. split; [reflexivity|]. apply handler_ids_size.
    + rewrite drop_app_length. apply registered_connections_signals; assumption.
  - intros w Hw. apply registered_handlers_notin. exact Hw.
  - reflexivity.
  - apply registered_dests_eq.
Qed.

(** *** Removal *)

Lemma unregistered_one_handlers s w :
  _signal_handlers (self (unregistered_one s w)) = delete w (_signal_handlers (self s)).
Proof.
  unfold unregistered_one.
  destruct (_signal_handlers (self s) !! w) eqn:Hentry; [reflexivity|].
  symmetry. apply delete_id. exact Hentry.
Qed.

Lemma unregistered_handlers ws : forall s w,
  _signal_handlers (self (unregistered ws s)) !! w =
    if decide (w ∈ ws) then None else _signal_handlers (self s) !! w.
Proof.
  unfold unregistered. induction ws as [|w0 ws IH]; intros s w; [reflexivity|].
  cbn [foldl]. rewrite IH, unregistered_one_handlers.
  destruct (decide (w ∈ ws)) as [Hin|Hnot].
  - rewrite decide_True by (right; exact Hin). reflexivity.
  - destruct (decide (w = w0)) as [->|Hne].
    + rewrite decide_True by left. apply lookup_delete_eq.
    + rewrite decide_False by (intros Hc; apply elem_of_cons in Hc as [|]; contradiction).
      apply lookup_delete_ne. congruence.
Qed.

(** Removal touches the handler map and the connection table only. *)
Lemma unregistered_rest ws : forall s,
  frames (self (unregistered ws s)) = frames (self s) /\
  _drag_data (self (unregistered ws s)) = _drag_data (self s) /\
  next_handler_id (unregistered ws s) = next_handler_id s /\
  drag_dests (unregistered ws s) = drag_dests s /\
  world (unregistered ws s) = world s /\
  invoked (unregistered ws s) = invoked s.
Proof.
  unfold unregistered. induction ws as [|w0 ws IH]; intros s; [cbn; auto 10|].
  cbn [foldl]. destruct (IH (unregistered_one s w0)) as (-> & -> & -> & -> & -> & ->).
  unfold unregistered_one. destruct (_signal_handlers (self s) !! w0); cbn; auto 10.
Qed.

Lemma unregistered_app ws1 ws2 s :
  unregistered (ws1 ++ ws2) s = unregistered ws2 (unregistered ws1 s).
Proof. apply foldl_app. Qed.

(** [remove_signal_handlers] on a subtree of distinct widgets of which
    the containers have an entry and the other widgets have none takes the
    entries out in the order it is walked. *)
Lemma remove_signal_handlers_eq (t : wtree) :
  forall s, (forall w, w ∈ subtree t ->
               (is_Some (_signal_handlers (self s) !! w) <-> w ∈ containers t)) ->
            NoDup (subtree t) ->
            remove_signal_handlers t s = (Ok tt, unregistered (containers t) s).
Proof.
  induction t as [w k cs IH] using wtree_rect_children. intros s Hreg Hnd.
  cbn [remove_signal_handlers subtree containers] in *.
  unfold bind at 1. unfold get at 1.
  destruct (isinstance_Container k) eqn:Hk.
  2:{ destruct (_signal_handlers (self s) !! w) as [signals|] eqn:Hentry; [|reflexivity].
      exfalso. destruct (Hreg w) as [Hin _]; [left|].
      specialize (Hin ltac:(rewrite Hentry; eauto)). inversion Hin. }
  destruct (proj2 (Hreg w ltac:(left)) ltac:(left)) as [signals Hentry]. rewrite Hentry.
  unfold bind at 1. unfold disconnect_all at 1. unfold modify at 1.
  unfold bind at 1. unfold modify at 1.
  match goal with |- context [set_self ?f ?x] => set (s2 := set_self f x) end.
  assert (H2 : s2 = unregistered_one s w).
  { unfold s2, unregistered_one. rewrite Hentry. reflexivity. }
  rewrite H2. clear s2 H2.
  apply NoDup_cons in Hnd as [Hw Hnd].
  change (w :: flat_map containers cs) with ([w] ++ flat_map containers cs).
  rewrite unregistered_app. change (unregistered [w] s) with (unregistered_one s w).
  assert (Hreg1 : forall w', w' ∈ flat_map subtree cs ->
                    (is_Some (_signal_handlers (self (unregistered_one s w)) !! w') <->
                     w' ∈ flat_map containers cs)).
  { intros w' Hw'. rewrite unregistered_one_handlers.
    rewrite lookup_delete_ne by (intros ->; contradiction).
    rewrite (Hreg w') by (right; exact Hw'). rewrite elem_of_cons.
    split; [intros [->|H]; [contradiction|exact H]|auto]. }
  clear Hreg Hw Hentry. revert Hreg1 Hnd. generalize (unregistered_one s w). clear s.
  induction IH as [|c cs Hc _ IHcs]; intros s Hreg Hnd; [reflexivity|].
  cbn [flat_map] in *. apply NoDup_app in Hnd as (Hndc & Hdisj & Hndcs).
  unfold bind at 1. unfold swallow at 1.
  rewrite Hc; [|clear IHcs|exact Hndc].
  2:{ intros w' Hw'. rewrite (Hreg w') by (apply elem_of_app; left; exact Hw').
      rewrite elem_of_app. split; [|auto].
      intros [H|H]; [exact H|]. exfalso.
      exact (Hdisj w' Hw' (containers_children cs w' H)). }
  cbn [snd]. rewrite unregistered_app. apply IHcs; [|exact Hndcs].
  intros w' Hw'. rewrite unregistered_handlers.
  assert (Hnot : w' ∉ containers c).
  { intros Hin. exact (Hdisj w' (containers_subtree c w' Hin) Hw'). }
  rewrite decide_False by exact Hnot.
  rewrite (Hreg w') by (apply elem_of_app; right; exact Hw').
  rewrite elem_of_app. split; [intros [H|H]; [contradiction|exact H]|auto].
Qed.

Lemma filter_all {A} (P : A -> Prop) `{!forall x, Decision (P x)} (l : list A) :
  (forall x, x ∈ l -> P x) -> filter P l = l.
Proof.
  induction l as [|x l IH]; intros Hall; [reflexivity|].
  rewrite filter_cons_True by (apply Hall; left).
  f_equal. apply IH. intros y Hy. apply Hall. right. exact Hy.
Qed.

(** Taking out the entries of [ws]: the connections no entry of [ws] names
    stay, those the entries name go. *)
Lemma unregistered_connections ws : forall s (l1 l2 : list connection),
  NoDup ws ->
  (forall w, w ∈ ws -> is_Some (_signal_handlers (self s) !! w)) ->
  (forall c w signals, c ∈ l1 -> w ∈ ws -> _signal_handlers (self s) !! w = Some signals ->
                       conn_widget c = w -> conn_id c ∉ signals) ->
  (forall c, c ∈ l2 ->
     conn_widget c ∈ ws /\
     exists signals, _signal_handlers (self s) !! conn_widget c = Some signals /\
                     conn_id c ∈ signals) ->
  connections s = l1 ++ l2 ->
  connections (unregistered ws s) = l1.
Proof.
  unfold unregistered. induction ws as [|w ws IH]; intros s l1 l2 Hnd Hreg Hsafe Hdoom Hconn.
  - cbn. destruct l2 as [|c l2]; [rewrite app_nil_r in Hconn; exact Hconn|].
    destruct (Hdoom c) as [Hin _]; [left|]. inversion Hin.
  - cbn [foldl]. apply NoDup_cons in Hnd as [Hw Hnd].
    destruct (Hreg w) as [signals Hentry]; [left|].
    set (P := fun c : connection => ¬ (conn_widget c = w ∧ conn_id c ∈ signals)).
    apply (IH _ l1 (filter P l2) Hnd).
    + intros w' Hw'. rewrite unregistered_one_handlers.
      rewrite lookup_delete_ne by (intros ->; contradiction).
      apply Hreg. right. exact Hw'.
    + intros c w' signals' Hc Hw'. rewrite unregistered_one_handlers.
      rewrite lookup_delete_ne by (intros ->; contradiction).
      apply Hsafe; [exact Hc|right; exact Hw'].
    + intros c Hc. apply list_elem_of_filter in Hc as [HP Hc].
      destruct (Hdoom c Hc) as (Hin & signals' & Hentry' & Hid).
      assert (Hne : conn_widget c <> w).
      { intros Heq. apply HP. split; [exact Heq|].
        rewrite Heq, Hentry in Hentry'. injection Hentry' as ->. exact Hid. }
      split.
      * apply elem_of_cons in Hin as [|]; [contradiction|assumption].
      * exists signals'. rewrite unregistered_one_handlers.
        rewrite lookup_delete_ne by congruence. auto.
    + unfold unregistered_one. rewrite Hentry. cbn [connections].
      rewrite Hconn, filter_app. fold P. f_equal.
      apply filter_all. intros c Hc [Heq Hid].
      exact (Hsafe c w signals Hc ltac:(left) Hentry Heq Hid).
Qed.

Lemma registered_connections_elem ws : forall (n : nat) (c : connection),
  c ∈ registered_connections ws n ->
  exists k, ws !! k = Some (conn_widget c) /\
            conn_id c ∈ handler_ids (n + length signal_names * k).
Proof.
  induction ws as [|w ws IH]; intros n c Hc; [inversion Hc|].
  cbn [registered_connections] in Hc. apply elem_of_app in Hc as [Hc|Hc].
  - unfold connections_for in Hc.
    apply elem_of_lookup_imap in Hc as (j & name & -> & Hj).
    apply lookup_lt_Some in Hj. exists 0%nat. split; [reflexivity|].
    unfold handler_ids. apply elem_of_list_to_set, elem_of_seq. cbn [conn_id]. lia.
  - destruct (IH _ _ Hc) as (k & Hk & Hid). exists (S k). split; [exact Hk|].
    revert Hid. change (length signal_names) with 8%nat.
    replace (n + 8 + 8 * k)%nat with (n + 8 * S k)%nat by lia. auto.
Qed.

(** Registration of [ws] followed by removal of [ws]. *)
Lemma unregistered_registered ws (ds : list widget_id) s :
  unregistered_in ws s -> NoDup ws -> connections_fresh s ->
  self (unregistered ws (registered ws ds s)) = self s /\
  connections (unregistered ws (registered ws ds s)) = connections s.
Proof.
  intros Hfresh Hnd Hids.
  assert (Hentry : forall k w, ws !! k = Some w ->
            _signal_handlers (self (registered ws ds s)) !! w =
              Some (handler_ids (next_handler_id s + length signal_names * k))).
  { intros k w Hk. apply registered_handlers_lookup; assumption. }
  split.
  - destruct (unregistered_rest ws (registered ws ds s)) as (Hf & Hd & _).
    destruct (self (unregistered ws (registered ws ds s))) as [f m d] eqn:Hself.
    cbn in Hf, Hd. destruct (self s) as [f0 m0 d0] eqn:Hself0. cbn in Hf, Hd.
    subst f d. f_equal. apply map_eq. intros w.
    pose proof (unregistered_handlers ws (registered ws ds s) w) as Hw.
    rewrite Hself in Hw. cbn [_signal_handlers] in Hw. rewrite Hw.
    pose proof (Hfresh w) as Hfw. rewrite Hself0 in Hfw. cbn [_signal_handlers] in Hfw.
    destruct (decide (w ∈ ws)) as [Hin|Hnot]; [symmetry; auto|].
    cbn. rewrite Hself0. cbn. apply registered_handlers_notin. exact Hnot.
  - apply (unregistered_connections ws (registered ws ds s) (connections s)
             (registered_connections ws (next_handler_id s)) Hnd).
    + intros w Hw. apply list_elem_of_lookup in Hw as [k Hk].
      rewrite (Hentry k w Hk). eauto.
    + intros c w signals Hc Hw Hsome _ Hid.
      apply list_elem_of_lookup in Hw as [k Hk]. rewrite (Hentry k w Hk) in Hsome.
      injection Hsome as <-. unfold handler_ids in Hid.
      apply elem_of_list_to_set, elem_of_seq in Hid. specialize (Hids c Hc). lia.
    + intros c Hc. destruct (registered_connections_elem _ _ _ Hc) as (k & Hk & Hid).
      split; [eapply list_elem_of_lookup_2; exact Hk|].
      eexists. split; [exact (Hentry k _ Hk)|exact Hid].
    + reflexivity.
Qed.

(** After [add_signal_handlers] on a subtree of distinct widgets without
    entries, its containers have an entry and its other widgets have
    none. *)
Lemma registered_entries (t : wtree) s w :
  unregistered_in (subtree t) s -> NoDup (subtree t) -> w ∈ subtree t ->
  is_Some (_signal_handlers (self (registered (containers t) (subtree t) s)) !! w) <->
  w ∈ containers t.
Proof.
  intros Hfresh Hnd Hw. cbn. split.
  - intros Hsome. destruct (decide (w ∈ containers t)) as [Hin|Hnot]; [exact Hin|].
    rewrite registered_handlers_notin in Hsome by exact Hnot.
    rewrite (Hfresh w Hw) in Hsome. destruct Hsome as [x Hx]. discriminate.
  - intros Hin. apply list_elem_of_lookup in Hin as [k Hk].
    rewrite (registered_handlers_lookup _ _ _ k w (containers_NoDup t Hnd) Hk). eauto.
Qed.

(** The round trip through [add_signal_handlers] and
    [remove_signal_handlers]. *)
Lemma add_remove_eq (t : wtree) s :
  unregistered_in (subtree t) s -> NoDup (subtree t) -> connections_fresh s ->
  let s1 := registered (containers t) (subtree t) s in
  let s2 := unregistered (containers t) s1 in
  add_signal_handlers t s = (add_outcome t, s1) /\
  remove_signal_handlers t s1 = (Ok tt, s2) /\
  self s2 = self s /\
  connections s2 = connections s /\
  world s2 = world s /\
  invoked s2 = invoked s /\
  drag_dests s2 = drag_dests s ∪ list_to_set (subtree t) /\
  next_handler_id s2 =
    (next_handler_id s + length signal_names * length (containers t))%nat.
Proof.
  intros Hfresh Hnd Hids s1 s2.
  split; [exact (add_signal_handlers_eq t s Hfresh Hnd)|].
  split.
  { apply remove_signal_handlers_eq; [|exact Hnd].
    intros w Hw. apply registered_entries; assumption. }
  assert (Hfreshc : unregistered_in (containers t) s).
  { intros w Hw. apply Hfresh, containers_subtree, Hw. }
  destruct (unregistered_registered _ (subtree t) s Hfreshc (containers_NoDup t Hnd) Hids)
    as [Hself Hconn].
  destruct (unregistered_rest (containers t) s1) as (_ & _ & Hn & Hd & Hw & Hi).
  split; [exact Hself|]. split; [exact Hconn|].
  split; [exact Hw|]. split; [exact Hi|].
  split; [unfold s2; rewrite Hd; apply registered_dests_eq|exact Hn].
Qed.

(** X20: [add_signal_handlers] on a subtree of distinct widgets without
    entries, in a system whose connection ids are below the next handler
    id, followed by [remove_signal_handlers] on the same subtree: the first
    call returns on a container and raises TypeError on a widget that is
    none, the second returns, and the coordinator and the connection table
    are as they were before; what stays is that the widgets walked are drag
    destinations and that the handler ids of the containers are used
    up. *)
Theorem add_remove_signal_handlers (t : wtree) s :
  unregistered_in (subtree t) s -> NoDup (subtree t) -> connections_fresh s ->
  exists s1 s2,
    add_signal_handlers t s =
      (if isinstance_Container (root_kind t) then Ok tt else Raise TypeError, s1) /\
    remove_signal_handlers t s1 = (Ok tt, s2) /\
    self s2 = self s /\
    connections s2 = connections s /\
    world s2 = world s /\
    invoked s2 = invoked s /\
    drag_dests s2 = drag_dests s ∪ list_to_set (subtree t) /\
    next_handler_id s2 =
      (next_handler_id s + length signal_names * length (containers t))%nat.
Proof.
  intros Hfresh Hnd Hids. eexists _, _. exact (add_remove_eq t s Hfresh Hnd Hids).
Qed.

(** *** Frames *)

Lemma remove_not_a_frame (frame : wtree) s :
  root frame ∉ frames (self s) ->
  remove frame s = (Raise KeyError, (remove_signal_handlers frame s).2).
Proof.
  intros Hnot. unfold remove. unfold bind at 1.
  destruct (remove_signal_handlers_ok frame s) as (s' & Heq & _ & Hframes & _).
  rewrite Heq. unfold bind, get. cbn [snd].
  rewrite bool_decide_eq_false_2 by (rewrite Hframes; exact Hnot). reflexivity.
Qed.

(** X21: [DockLayout.remove] of a widget that is not among the frames
    raises [KeyError], but only after [remove_signal_handlers] has run on
    it: the handlers of its subtree are gone although the call failed; the
    frames are as before. *)
Theorem remove_unknown_frame (frame : wtree) s :
  root frame ∉ frames (self s) ->
  remove frame s = (Raise KeyError, (remove_signal_handlers frame s).2) /\
  _signal_handlers (self (remove frame s).2) !! root frame = None /\
  frames (self (remove frame s).2) = frames (self s).
Proof.
  intros Hnot. rewrite (remove_not_a_frame frame s Hnot). cbn [snd].
  split; [reflexivity|].
  destruct (remove_signal_handlers_ok frame s) as (s' & Heq & _ & Hframes & _).
  split; [|rewrite Heq; exact Hframes].
  clear s' Heq Hframes. destruct frame as [w k cs].
  cbn [remove_signal_handlers root]. unfold bind at 1. unfold get at 1.
  destruct (_signal_handlers (self s) !! w) as [signals|] eqn:Hentry; [|exact Hentry].
  unfold bind at 1. unfold disconnect_all at 1. unfold modify at 1.
  unfold bind at 1. unfold modify at 1.
  match goal with |- context [set_self ?f ?x] => set (s2 := set_self f x) end.
  assert (H2 : _signal_handlers (self s2) !! w = None) by apply lookup_delete_eq.
  destruct (isinstance_Container k); [|exact H2].
  revert H2. generalize s2. clear s2 Hentry Hnot s.
  induction cs as [|c cs IH]; intros s Hs; [exact Hs|].
  unfold bind at 1. unfold swallow at 1.
  destruct (remove_signal_handlers_ok c s) as (s' & Heq & _).
  rewrite Heq. cbn [snd]. apply IH.
  assert (Hkeep : forall t s0, _signal_handlers (self s0) !! w = None ->
            _signal_handlers (self (remove_signal_handlers t s0).2) !! w = None).
  { clear. induction t as [w' k' cs' IHt] using wtree_rect_children. intros s0 Hs0.
    cbn [remove_signal_handlers]. unfold bind at 1. unfold get at 1.
    destruct (_signal_handlers (self s0) !! w') as [signals'|] eqn:Hentry'; [|exact Hs0].
    unfold bind at 1. unfold disconnect_all at 1. unfold modify at 1.
    unfold bind at 1. unfold modify at 1.
    match goal with |- context [set_self ?f ?x] => set (s2 := set_self f x) end.
    assert (H2 : _signal_handlers (self s2) !! w = None).
    { cbn. destruct (decide (w' = w)) as [->|Hne];
        [apply lookup_delete_eq|rewrite lookup_delete_ne by exact Hne; exact Hs0]. }
    destruct (isinstance_Container k'); [|exact H2].
    revert H2. generalize s2. clear s2 Hentry' Hs0 s0.
    induction IHt as [|c' cs' Hc' _ IHcs']; intros s0 Hs0; [exact Hs0|].
    unfold bind at 1. unfold swallow at 1.
    destruct (remove_signal_handlers_ok c' s0) as (s1 & Heq1 & _).
    pose proof (Hc' s0 Hs0) as Hstep. rewrite Heq1 in Hstep |- *. cbn [snd] in *.
    apply IHcs'. exact Hstep. }
  pose proof (Hkeep c s Hs) as Hc. rewrite Heq in Hc. exact Hc.
Qed.

(** X22: [DockLayout.add] of a DockFrame that is not yet a frame, over a
    subtree of distinct widgets without entries, followed by
    [DockLayout.remove] of it: both return, the frame is among the frames
    in between, and afterwards the coordinator and the connection table are
    as before the [add]; a second [remove] raises [KeyError] and changes
    nothing. *)
Theorem add_remove_frame (frame : wtree) s :
  isinstance_DockFrame (root_kind frame) = true ->
  root frame ∉ frames (self s) ->
  unregistered_in (subtree frame) s -> NoDup (subtree frame) -> connections_fresh s ->
  exists s1 s2,
    add frame s = (Ok tt, s1) /\
    frames (self s1) = frames (self s) ∪ {[root frame]} /\
    remove frame s1 = (Ok tt, s2) /\
    self s2 = self s /\
    connections s2 = connections s /\
    remove frame s2 = (Raise KeyError, s2).
Proof.
  intros Hk Hnot Hfresh Hnd Hids.
  assert (Hc : isinstance_Container (root_kind frame) = true).
  { destruct (root_kind frame); try discriminate; reflexivity. }
  set (s0 := set_self (fun l => set_frames (frames l ∪ {[root frame]}) l) s).
  assert (Hfresh0 : unregistered_in (subtree frame) s0) by exact Hfresh.
  assert (Hids0 : connections_fresh s0) by exact Hids.
  destruct (add_remove_eq frame s0 Hfresh0 Hnd Hids0)
    as (Hadd0 & Hremove0 & Hself & Hconn & _).
  cbv zeta in Hremove0, Hself, Hconn.
  set (s1 := registered (containers frame) (subtree frame) s0) in *.
  set (u := unregistered (containers frame) s1) in *.
  set (s2 := set_self (fun l => set_frames (frames l ∖ {[root frame]}) l) u).
  assert (Hself2 : self s2 = self s).
  { unfold s2, set_self. cbn [self]. rewrite Hself. unfold s0, set_self, set_frames.
    cbn [self frames _signal_handlers _drag_data].
    destruct (self s) as [f m d]. cbn [frames _signal_handlers _drag_data] in *.
    f_equal. rewrite difference_union_distr_l_L, difference_diag_L.
    rewrite (right_id_L ∅ (∪)). apply difference_disjoint_L.
    apply disjoint_singleton_r. exact Hnot. }
  exists s1, s2.
  assert (Hadd : add frame s = (Ok tt, s1)).
  { unfold add. rewrite Hk. unfold bind, modify. fold s0.
    rewrite Hadd0. unfold add_outcome. rewrite Hc. reflexivity. }
  assert (Hremove : remove frame s1 = (Ok tt, s2)).
  { unfold remove. unfold bind at 1. rewrite Hremove0.
    unfold bind, get. rewrite Hself.
    rewrite bool_decide_eq_true_2; [reflexivity|].
    cbn. apply elem_of_union. right. apply elem_of_singleton. reflexivity. }
  split; [exact Hadd|]. split; [reflexivity|]. split; [exact Hremove|].
  split; [exact Hself2|]. split; [exact Hconn|].
  rewrite remove_not_a_frame by (rewrite Hself2; exact Hnot).
  f_equal. destruct frame as [w k cs]. cbn [remove_signal_handlers].
  unfold bind, get. rewrite Hself2.
  rewrite (Hfresh w) by (cbn; left). reflexivity.
Qed.

(** *** What registration calls leave alone *)

Lemma adds_within_refl ws s : adds_within ws s s.
Proof.
  split; [exists []; split; [symmetry; apply app_nil_r|intros c Hc; inversion Hc]|].
  split; auto.
Qed.

Lemma adds_within_trans ws s1 s2 s3 :
  adds_within ws s1 s2 -> adds_within ws s2 s3 -> adds_within ws s1 s3.
Proof.
  intros ((n1 & E1 & A1) & B1 & C1) ((n2 & E2 & A2) & B2 & C2).
  split; [|split; [intros w Hw; rewrite B2, B1 by exact Hw; reflexivity|auto]].
  exists (n1 ++ n2). split; [rewrite E2, E1, app_assoc; reflexivity|].
  intros c Hc. apply elem_of_app in Hc as [Hc|Hc]; auto.
Qed.

Lemma adds_within_mono ws ws' s s' :
  (forall w, w ∈ ws -> w ∈ ws') -> adds_within ws s s' -> adds_within ws' s s'.
Proof.
  intros Hsub ((n1 & E1 & A1) & B1 & C1).
  split; [exists n1; split; [exact E1|intros c Hc; apply Hsub, A1, Hc]|].
  split; [intros w Hw; apply B1; intros Hin; apply Hw, Hsub, Hin|exact C1].
Qed.

Lemma add_signal_handlers_within (t : wtree) :
  forall s, exists r s', add_signal_handlers t s = (r, s') /\
                         adds_within (subtree t) s s' /\
                         (r = Ok tt \/ r = Raise TypeError) /\
                         (isinstance_Container (root_kind t) = true -> r = Ok tt).
Proof.
  induction t as [w k cs IH] using wtree_rect_children. intros s.
  destruct (has_handlers (self s) w) eqn:Hhas.
  { exists (Ok tt), s. cbn [add_signal_handlers]. unfold bind, get. rewrite Hhas.
    split; [reflexivity|]. split; [apply adds_within_refl|auto]. }
  destruct (isinstance_Container k) eqn:Hk.
  2:{ rewrite (add_signal_handlers_leaf w k cs s Hk Hhas).
      eexists _, _. split; [reflexivity|]. cbn [root_kind].
      split; [|split; [auto|congruence]].
      split; [exists []; split; [symmetry; apply app_nil_r|intros c Hc; inversion Hc]|].
      split; [reflexivity|]. intros Hlive. exact Hlive. }
  cbn [add_signal_handlers subtree root_kind]. unfold bind at 1. unfold get at 1.
  rewrite Hhas, Hk.
  unfold bind at 1. unfold drag_dest_set at 1. unfold modify at 1.
  unfold bind at 1. rewrite (connect_each_eq w k signal_names Hk).
  unfold bind at 1. unfold modify at 1.
  cbn [self connections next_handler_id drag_dests world invoked].
  match goal with |- context [set_self ?f ?x] => set (s3 := set_self f x) end.
  assert (H3 : adds_within [w] s s3).
  { split; [|split].
    - eexists. split; [reflexivity|]. intros c Hc.
      apply elem_of_lookup_imap in Hc as (j & name & -> & _). left.
    - intros w' Hw'. cbn. apply lookup_insert_ne. intros ->. apply Hw'. left.
    - intros Hlive w' signals id. unfold s3, set_self, set_signal_handlers.
      cbn [self _signal_handlers connections].
      destruct (decide (w = w')) as [<-|Hne].
      + rewrite lookup_insert_eq. intros Hsome Hid.
        apply (inj Some) in Hsome. rewrite <- Hsome in Hid. clear Hsome.
        rewrite (left_id_L ∅ (∪)) in Hid.
        apply elem_of_list_to_set, elem_of_seq in Hid.
        destruct (lookup_lt_is_Some_2 signal_names (id - next_handler_id s)%nat)
          as [name Hname]; [lia|].
        exists name. apply elem_of_app. right. apply elem_of_lookup_imap.
        exists (id - next_handler_id s)%nat, name. split; [f_equal; lia|exact Hname].
      + rewrite lookup_insert_ne by exact Hne. intros Hentry Hid.
        destruct (Hlive w' signals id Hentry Hid) as [name Hc].
        exists name. apply elem_of_app. left. exact Hc. }
  assert (H3' : adds_within (w :: flat_map subtree cs) s s3).
  { eapply adds_within_mono; [|exact H3].
    intros w' Hw'. apply list_elem_of_singleton in Hw' as ->. left. }
  revert H3'. generalize s3. clear s3 H3 Hhas.
  assert (Hsub : forall c, c ∈ cs -> forall w', w' ∈ subtree c ->
                   w' ∈ w :: flat_map subtree cs).
  { intros c Hc w' Hw'. right. apply list_elem_of_In, in_flat_map.
    exists c. split; apply list_elem_of_In; assumption. }
  revert Hsub. generalize (w :: flat_map subtree cs). intros ws Hsub.
  induction IH as [|c cs Hc _ IHcs]; intros s3 H3.
  - exists (Ok tt), s3. split; [reflexivity|]. split; [exact H3|auto].
  - unfold bind at 1. unfold swallow at 1.
    destruct (Hc s3) as (r4 & s4 & Heq4 & H34 & _). rewrite Heq4. cbn [snd].
    apply IHcs; [intros c' Hc'; apply Hsub; right; exact Hc'|].
    eapply adds_within_trans; [exact H3|].
    eapply adds_within_mono; [|exact H34]. apply Hsub. left.
Qed.

Lemma removes_within_refl ws s : removes_within ws s s.
Proof. split; [reflexivity|]. split; [auto|]. split; [auto|]. split; auto. Qed.

Lemma removes_within_trans ws s1 s2 s3 :
  removes_within ws s1 s2 -> removes_within ws s2 s3 -> removes_within ws s1 s3.
Proof.
  intros (A1 & B1 & C1 & D1 & E1) (A2 & B2 & C2 & D2 & E2).
  split; [etransitivity; eassumption|]. split; [auto|].
  split; [intros w Hw; rewrite C2, C1 by exact Hw; reflexivity|].
  split; [|auto].
  intros w. destruct (D2 w) as [Hn|He]; [left; exact Hn|].
  rewrite He. apply D1.
Qed.

Lemma removes_within_mono ws ws' s s' :
  (forall w, w ∈ ws -> w ∈ ws') -> removes_within ws s s' -> removes_within ws' s s'.
Proof.
  intros Hsub (A1 & B1 & C1 & D1 & E1).
  split; [exact A1|].
  split; [intros c Hc Hn; apply B1; [exact Hc|intros Hin; apply Hn, Hsub, Hin]|].
  split; [intros w Hw; apply C1; intros Hin; apply Hw, Hsub, Hin|].
  split; assumption.
Qed.

Lemma remove_signal_handlers_within (t : wtree) :
  forall s, exists s', remove_signal_handlers t s = (Ok tt, s') /\
                       removes_within (subtree t) s s'.
Proof.
  induction t as [w k cs IH] using wtree_rect_children. intros s.
  cbn [remove_signal_handlers subtree]. unfold bind at 1. unfold get at 1.
  destruct (_signal_handlers (self s) !! w) as [signals|] eqn:Hentry.
  2:{ exists s. split; [reflexivity|apply removes_within_refl]. }
  unfold bind at 1. unfold disconnect_all at 1. unfold modify at 1.
  unfold bind at 1. unfold modify at 1.
  match goal with |- context [set_self ?f ?x] => set (s2 := set_self f x) end.
  assert (H2 : removes_within [w] s s2).
  { split; [apply sublist_filter|]. split; [|split; [|split]].
    - intros c Hc Hn. apply list_elem_of_filter. split; [|exact Hc].
      intros [Heq _]. apply Hn. rewrite Heq. left.
    - intros w' Hw'. cbn. apply lookup_delete_ne. intros ->. apply Hw'. left.
    - intros w'. cbn. destruct (decide (w = w')) as [<-|Hne].
      + left. apply lookup_delete_eq.
      + right. apply lookup_delete_ne. exact Hne.
    - intros Hlive w' signals' id. cbn.
      destruct (decide (w = w')) as [<-|Hne]; [rewrite lookup_delete_eq; discriminate|].
      rewrite lookup_delete_ne by exact Hne. intros Hentry' Hid.
      destruct (Hlive w' signals' id Hentry' Hid) as [name Hc].
      exists name. apply list_elem_of_filter. split; [|exact Hc].
      intros [Heq _]. cbn in Heq. congruence. }
  assert (H2' : removes_within (w :: (if isinstance_Container k
                                        then flat_map subtree cs else [])) s s2).
  { eapply removes_within_mono; [|exact H2].
    intros w' Hw'. apply list_elem_of_singleton in Hw' as ->. left. }
  destruct (isinstance_Container k); [|exists s2; split; [reflexivity|exact H2']].
  revert H2'. generalize s2. clear s2 H2 Hentry.
  assert (Hsub : forall c, c ∈ cs -> forall w', w' ∈ subtree c ->
                   w' ∈ w :: flat_map subtree cs).
  { intros c Hc w' Hw'. right. apply list_elem_of_In, in_flat_map.
    exists c. split; apply list_elem_of_In; assumption. }
  revert Hsub. generalize (w :: flat_map subtree cs). intros ws Hsub.
  induction IH as [|c cs Hc _ IHcs]; intros s2 H2.
  - exists s2. split; [reflexivity|exact H2].
  - unfold bind at 1. unfold swallow at 1.
    destruct (Hc s2) as (s3 & Heq3 & H23). rewrite Heq3. cbn [snd].
    apply IHcs; [intros c' Hc'; apply Hsub; right; exact Hc'|].
    eapply removes_within_trans; [exact H2|].
    eapply removes_within_mono; [|exact H23]. apply Hsub. left.
Qed.

(** X23: registration calls touch their subtree only.
    [add_signal_handlers] ends: it returns, always so on a container, or
    raises TypeError; either way it keeps every connection there is and
    adds new ones, for widgets of the subtree, at the end of the table, and
    leaves the entries of widgets outside the subtree as they are.
    [remove_signal_handlers] returns, disconnects handlers of widgets of
    the subtree only, keeps the order of the table, never changes an entry
    it does not delete, and leaves the entries of widgets outside the
    subtree as they are. *)
Theorem registration_within_subtree (t : wtree) s :
  (exists r s' new,
     add_signal_handlers t s = (r, s') /\
     (r = Ok tt \/ r = Raise TypeError) /\
     (isinstance_Container (root_kind t) = true -> r = Ok tt) /\
     connections s' = connections s ++ new /\
     (forall c, c ∈ new -> conn_widget c ∈ subtree t) /\
     (forall w, w ∉ subtree t ->
        _signal_handlers (self s') !! w = _signal_handlers (self s) !! w)) /\
  (exists s',
     remove_signal_handlers t s = (Ok tt, s') /\
     connections s' `sublist_of` connections s /\
     (forall c, c ∈ connections s -> conn_widget c ∉ subtree t -> c ∈ connections s') /\
     (forall w, w ∉ subtree t ->
        _signal_handlers (self s') !! w = _signal_handlers (self s) !! w) /\
     (forall w, _signal_handlers (self s') !! w = None \/
                _signal_handlers (self s') !! w = _signal_handlers (self s) !! w)).
Proof.
  split.
  - destruct (add_signal_handlers_within t s)
      as (r & s' & Heq & ((new & E & A) & B & _) & Hr & Hc).
    exists r, s', new. auto 10.
  - destruct (remove_signal_handlers_within t s) as (s' & Heq & A & B & C & D & _).
    exists s'. auto.
Qed.

End registry.

Section coherence.

Context {World : Type} (ext : @Externals World).




Lemma drop_ancestor_kind (widget h : widget) :
  drop_ancestor widget = Some h -> wkind h = KDockGroup \/ wkind h = KDockPaned.
Proof.
  induction widget as [widget IH] using widget_parent_ind.
  destruct widget as [i k a o ptr par].
  destruct k; cbn [drop_ancestor wkind get_parent];
    try (intros [= <-]; cbn; auto; fail);
    destruct par as [p|]; try discriminate; exact (IH p eq_refl).
Qed.

Lemma session_ok_same (s s' : @Sys World) :
  _drag_data (self s') = _drag_data (self s) -> session_ok s -> session_ok s'.
Proof. unfold session_ok. intros ->. auto. Qed.

Lemma sys_step_session_ok (s s' : @Sys World) :
  sys_step ext s s' -> session_ok s -> session_ok s'.
Proof.
  intros Hstep Hok.
  destruct Hstep as [t s|t s|t s|t s|c t s|c t s|e s|e s|e sel info s].
  - unfold add. destruct (isinstance_DockFrame _); [|exact Hok].
    unfold bind, modify.
    match goal with |- context [set_self ?f ?x] => set (s0 := set_self f x) end.
    destruct (add_signal_handlers_registers t s0) as (r & s1 & Heq & (Hd & _) & _).
    rewrite Heq. apply (session_ok_same s); [exact Hd|exact Hok].
  - unfold remove. unfold bind at 1.
    destruct (remove_signal_handlers_ok t s) as (s1 & Heq & Hd & _).
    rewrite Heq. unfold bind, get. cbn [snd].
    destruct (bool_decide _); cbn; apply (session_ok_same s); assumption.
  - destruct (add_signal_handlers_registers t s) as (r & s1 & Heq & (Hd & _) & _).
    rewrite Heq. apply (session_ok_same s); assumption.
  - destruct (remove_signal_handlers_ok t s) as (s1 & Heq & Hd & _).
    rewrite Heq. apply (session_ok_same s); assumption.
  - unfold on_widget_add. destruct (isinstance_Container _); [|exact Hok].
    destruct (add_signal_handlers_registers t s) as (r & s1 & Heq & (Hd & _) & _).
    rewrite Heq. apply (session_ok_same s); assumption.
  - unfold on_widget_remove. destruct (isinstance_Container _); [|exact Hok].
    destruct (remove_signal_handlers_ok t s) as (s1 & Heq & Hd & _).
    rewrite Heq. apply (session_ok_same s); assumption.
  - pose proof (drag_motion_resolution ext (m_widget e) (m_context e) (m_x e) (m_y e)
                  (m_time e) (world s)) as Hres.
    destruct (drag_motion ext (m_widget e) (m_context e) (m_x e) (m_y e) (m_time e)
                (world s)) as [r w] eqn:Hdm.
    rewrite (on_widget_drag_motion_eq ext _ _ _ _ _ _ _ _ Hdm). cbv zeta.
    destruct r as [d|err]; [|exact Hok].
    destruct (bool_decide _); [exact Hok|].
    destruct (run_leave _ w) as [o w2]. cbn [snd].
    destruct (raised o); [exact Hok|].
    unfold session_ok. cbn [self _drag_data set_drag_data].
    destruct d as [d|]; [|exact I].
    destruct (drop_ancestor (m_widget e)) as [h|] eqn:Hh; [|discriminate].
    pose proof (drop_ancestor_kind _ _ Hh) as Hkind. cbn [fst] in Hres.
    destruct Hres as [[Hd [f Hf]]|(_ & Hk & _)].
    + rewrite Hd, Hf. split; [exact Hkind|discriminate].
    + rewrite Hk. auto.
  - unfold on_widget_drag_leave, bind, get, note, modify, in_world, ret.
    destruct (_drag_data (self s)) as [d|] eqn:Hd; [|exact Hok].
    destruct (leave d) as [f|]; [|exact Hok].
    cbn. destruct (f (drop_widget d) (world s)) as [[[]|err] w2];
      (apply (session_ok_same s); [reflexivity|exact Hok]).
  - rewrite on_widget_drag_data_received_eq.
    destruct (_drag_data (self s)) as [d|] eqn:Hd; [|exact Hok].
    destruct (received d) as [f|]; [|exact Hok]. exact I.
Qed.

(** X25: in every system a new DockLayout can get to, the drop widget of
    the session, if there is one, is a DockGroup or a DockPaned, and a
    session without a [received] callback, the only kind on which
    [on_widget_drag_data_received] fails its assertion, targets a
    DockPaned. *)
Theorem session_targets (s : @Sys World) :
  sys_reachable ext s -> session_ok s.
Proof.
  induction 1 as [s Hinit|s s' _ IH Hstep].
  - unfold session_ok. rewrite Hinit. exact I.
  - exact (sys_step_session_ok s s' Hstep IH).
Qed.

End coherence.

Lemma border_session_cannot_receive_witness :
  on_widget_drag_motion quiet sample_group 0%nat 5 150 0 new_system =
    (Ok tt,
     set_self (set_drag_data
       (Some (mkDragData sample_paned (Some dock_paned_magic_borders_leave) None)))
       new_system) /\
  on_widget_drag_data_received sample_group 0%nat 5 150 0%nat 0 0
    (set_self (set_drag_data
       (Some (mkDragData sample_paned (Some dock_paned_magic_borders_leave) None)))
       new_system) =
    (Raise AssertionError,
     set_self (set_drag_data
       (Some (mkDragData sample_paned (Some dock_paned_magic_borders_leave) None)))
       new_system).
Proof.
  destruct (border_session_cannot_receive quiet sample_group sample_paned 0%nat 5 150 0
              new_system (or_introl eq_refl) eq_refl eq_refl eq_refl eq_refl)
    as [Hmotion Hdrop].
  split; [exact Hmotion|]. exact (Hdrop sample_group 0%nat 5 150 0%nat 0 0).
Defined.


Lemma leafy_tree_fresh : unregistered_in (subtree leafy_tree) new_system.
Proof. intros w _. apply lookup_empty. Qed.

Lemma leafy_tree_NoDup : NoDup (subtree leafy_tree).
Proof. apply (bool_decide_unpack _). vm_compute. exact I. Qed.

Lemma add_signal_handlers_subtree_witness :
  exists s',
    add_signal_handlers leafy_tree new_system = (Ok tt, s') /\
    _signal_handlers (self s') !! 5%nat = None /\
    connections s' =
      connections new_system ++
      registered_connections [1; 2; 3; 4]%nat (next_handler_id new_system).
Proof.
  destruct (add_signal_handlers_subtree leafy_tree new_system leafy_tree_fresh
              leafy_tree_NoDup) as (s' & Hrun & _ & Hout & Hconn & _).
  exists s'. split; [exact Hrun|]. split; [|exact Hconn].
  rewrite Hout; [reflexivity|].
  apply (bool_decide_unpack _). vm_compute. exact I.
Defined.

Lemma new_system_fresh : connections_fresh new_system.
Proof. intros c Hc. inversion Hc. Qed.

Lemma add_remove_signal_handlers_witness :
  exists s1 s2,
    add_signal_handlers leafy_tree new_system = (Ok tt, s1) /\
    remove_signal_handlers leafy_tree s1 = (Ok tt, s2) /\
    self s2 = self new_system /\
    connections s2 = connections new_system /\
    next_handler_id s2 = 32%nat.
Proof.
  destruct (add_remove_signal_handlers leafy_tree new_system leafy_tree_fresh
              leafy_tree_NoDup new_system_fresh)
    as (s1 & s2 & Hadd & Hremove & Hself & Hconn & _ & _ & _ & Hnext).
  exists s1, s2. auto 10.
Defined.

Lemma remove_unknown_frame_witness :
  remove (Node 2 KDockPaned [Node 3 KDockGroup []; Node 4 KDockGroup []]) framed_system =
    (Raise KeyError,
     (remove_signal_handlers
        (Node 2 KDockPaned [Node 3 KDockGroup []; Node 4 KDockGroup []])
        framed_system).2).
Proof.
  refine (proj1 (remove_unknown_frame
                   (Node 2 KDockPaned [Node 3 KDockGroup []; Node 4 KDockGroup []])
                   framed_system _)).
  apply (bool_decide_unpack _). vm_compute. exact I.
Defined.

Lemma add_remove_frame_witness :
  exists s1 s2,
    add leafy_tree new_system = (Ok tt, s1) /\
    remove leafy_tree s1 = (Ok tt, s2) /\
    self s2 = self new_system /\
    remove leafy_tree s2 = (Raise KeyError, s2).
Proof.
  assert (Hnot : root leafy_tree ∉ frames (self new_system)).
  { apply (bool_decide_unpack _). vm_compute. exact I. }
  destruct (add_remove_frame leafy_tree new_system eq_refl Hnot leafy_tree_fresh
              leafy_tree_NoDup new_system_fresh)
    as (s1 & s2 & Hadd & _ & Hremove & Hself & _ & Hagain).
  exists s1, s2. auto.
Defined.


Lemma session_targets_witness :
  session_ok (on_widget_drag_motion quiet sample_group 0%nat 5 150 0 new_system).2.
Proof.
  apply (session_targets quiet).
  apply (sys_reachable_step quiet new_system);
    [apply sys_reachable_init; reflexivity
    |exact (step_drag_motion quiet (mkMotion sample_group 0%nat 5 150 0) new_system)].
Defined.

End docklayout_more_props.
